(** * pgmock: the user-space network stack, embedded and verified

    A shallow embedding of the parts of pgmock's virtual network stack that
    the specification makes claims about:

    - [utils/endianness.ts], [utils/internet-checksum.ts]
    - [addresses/ip-address.ts], [addresses/mac-address.ts]
    - [utils/callback-event-target.ts] and the dispatch glue of
      [network-adapter.ts]
    - [protocols/udp.ts] (the emit path)
    - [routers/router.ts] (device table, IP allocation, ARP responder)
    - [protocols/tcp.ts] (the [TcpSocket] state machine)

    JavaScript numbers are modelled as [Z] (every quantity in these files
    is an integer far below 2^53, where doubles are exact); the 32-bit
    bitwise operators go through [ToInt32] as the language defines them.
    A [Uint8Array] is a [list Z] whose elements are reduced modulo 256 when
    they are stored.  A thrown [Error] is [None] in pure code and [Throw]
    in the socket monad. *)

From Stdlib Require Import ZArith List Lia Bool String Ascii.
From stdpp Require Import gmap strings list.

Local Open Scope Z_scope.

(* ===================================================================== *)
(** * Part I: definitions *)
(* ===================================================================== *)

(** ** JavaScript primitives *)

Module JS.

(** [ToInt32]: the signed 32-bit value of an integral number. *)
Definition ToInt32 (x : Z) : Z := (x + 2 ^ 31) mod 2 ^ 32 - 2 ^ 31.

(** [a & b], [a | b], [a ^ b], [~a], [a >> n] *)
Definition band (a b : Z) : Z := Z.land (ToInt32 a) (ToInt32 b).
Definition bor (a b : Z) : Z := Z.lor (ToInt32 a) (ToInt32 b).
Definition bxor (a b : Z) : Z := Z.lxor (ToInt32 a) (ToInt32 b).
Definition bnot (a : Z) : Z := Z.lnot (ToInt32 a).
Definition shr (a n : Z) : Z := Z.shiftr (ToInt32 a) (n mod 32).

(** [a << n] *)
Definition shl (a n : Z) : Z := ToInt32 (Z.shiftl (ToInt32 a) (n mod 32)).

(** Storing a number into a [Uint8Array] slot. *)
Definition ToUint8 (x : Z) : Z := x mod 256.

(** [new Uint8Array(iterable)] *)
Definition Uint8Array (l : list Z) : list Z := map ToUint8 l.

(** [Number.isSafeInteger] on an integral number. *)
Definition isSafeInteger (x : Z) : bool :=
  (- (2 ^ 53 - 1) <=? x) && (x <=? 2 ^ 53 - 1).

(** [Array.prototype.reduce] with the element index passed to the
    callback. *)
Fixpoint reduce_from {A B : Type} (f : B -> A -> nat -> B)
    (index : nat) (acc : B) (l : list A) : B :=
  match l with
  | [] => acc
  | x :: rest => reduce_from f (S index) (f acc x index) rest
  end.

Definition reduce {A B : Type} (f : B -> A -> nat -> B) (init : B)
    (l : list A) : B :=
  reduce_from f 0 init l.

(** [Array.prototype.every] with the element index. *)
Fixpoint every_from {A : Type} (f : A -> nat -> bool) (index : nat)
    (l : list A) : bool :=
  match l with
  | [] => true
  | x :: rest => f x index && every_from f (S index) rest
  end.

Definition every {A : Type} (f : A -> nat -> bool) (l : list A) : bool :=
  every_from f 0 l.

(** [a.slice(from, to)] and [a.slice(from)] for in-range bounds. *)
Definition slice {A : Type} (from to : nat) (l : list A) : list A :=
  firstn (to - from) (skipn from l).

(** [new Uint8Array(length)]: that many zero bytes; a negative length
    throws. *)
Definition zeros (length : Z) : option (list Z) :=
  if length <? 0 then None else Some (repeat 0 (Z.to_nat length)).

(** [new TextEncoder().encode(s)] for a string of ASCII characters. *)
Definition encodeAscii (s : string) : list Z :=
  map (fun c => Z.of_N (N_of_ascii c)) (list_ascii_of_string s).

(** [a[i] === v] on an array of numbers: an index past the end reads
    [undefined], which is equal to no number. *)
Definition index_is (l : list Z) (i : nat) (v : Z) : bool :=
  match nth_error l i with
  | Some x => x =? v
  | None => false
  end.

End JS.

(** ** utils/endianness.ts *)

Definition toUnsignedIntFromBigEndian (byteArray : list Z) : Z :=
  JS.reduce
    (fun acc byte index =>
       acc + byte * 256 ^ Z.of_nat (length byteArray - index - 1))
    0 byteArray.

Definition toBigEndianFromInt (bytes : nat) (int : Z) : option (list Z) :=
  if negb (JS.isSafeInteger int) then None
  else
    let int := if int <? 0 then 256 ^ Z.of_nat bytes + int else int in
    if int <? 0 then None
    else if int >=? 256 ^ Z.of_nat bytes then None
    else
      Some (map (fun i => JS.ToUint8 (int / 256 ^ Z.of_nat (bytes - i - 1)))
                (seq 0 bytes)).

(** ** addresses/ip-address.ts *)

Module Ipv4Address.

Record t := mk { bytes : list Z }.

(** The constructor on an iterable of numbers: the values are stored in
    a [Uint8Array]; anything but four of them throws. *)
Definition new (data : list Z) : option t :=
  let bytesArray := JS.Uint8Array data in
  if negb (length bytesArray =? 4)%nat then None
  else Some (mk bytesArray).

Definition ZeroAddress : t := mk [0; 0; 0; 0].
Definition BroadcastAddress : t := mk [255; 255; 255; 255].

Definition toInt (a : t) : Z :=
  JS.reduce (fun prev cur _ => prev * 256 + cur) 0 (bytes a).

Definition fromInt (int : Z) : option t :=
  if (int <? 0) || (int >? 0xffffffff) then None
  else
    new [ JS.band (int / 256 / 256 / 256) 0xff;
          JS.band (int / 256 / 256) 0xff;
          JS.band (int / 256) 0xff;
          JS.band int 0xff ].

Definition _fromSignedInt (signedInt : Z) : option t :=
  let signedInt :=
    if signedInt <? 0 then 0xffffffff + signedInt + 1 else signedInt in
  fromInt signedInt.

Definition bitNot (a : t) : option t :=
  _fromSignedInt (JS.band (JS.bnot (toInt a)) 0xffffffff).

Definition bitAnd (a other : t) : option t :=
  _fromSignedInt (JS.band (toInt a) (toInt other)).

Definition bitOr (a other : t) : option t :=
  _fromSignedInt (JS.bor (toInt a) (toInt other)).

Definition bitXor (a other : t) : option t :=
  _fromSignedInt (JS.bxor (toInt a) (toInt other)).

Definition equals (a other : t) : bool :=
  JS.every (fun byte i => JS.index_is (bytes other) i byte) (bytes a).

Definition isRecipientOfTarget (a targetAddress : t) : bool :=
  equals targetAddress BroadcastAddress || equals targetAddress a.

(** The class invariant: exactly four octets. *)
Definition wf (a : t) : Prop :=
  length (bytes a) = 4%nat /\ Forall (fun b => 0 <= b < 256) (bytes a).

End Ipv4Address.

(** ** utils/internet-checksum.ts *)

(** The carry-folding loop [while (res > 0xffff) res = (res & 0xffff) +
    (res >> 16)], with [fuel] bounding the number of times the body runs.
    [foldCarries_exits] below shows that two runs of the body always leave
    the loop through its condition. *)
Fixpoint foldCarries (fuel : nat) (res : Z) : Z :=
  match fuel with
  | O => res
  | S fuel' =>
      if res >? 0xffff
      then foldCarries fuel' (JS.band res 0xffff + JS.shr res 16)
      else res
  end.

Definition internetChecksum (data : list Z) : Z :=
  let res :=
    JS.reduce
      (fun acc byte index =>
         if Nat.even index then acc + byte * 256 else acc + byte)
      0 data in
  foldCarries 2 res.

Definition pseudoChecksum (srcIp destIp : Ipv4Address.t)
    (packetBinary : list Z) (protocol : Z) : option Z :=
  match toBigEndianFromInt 2 (Z.of_nat (length packetBinary)) with
  | None => None
  | Some len =>
      Some (internetChecksum
              (Ipv4Address.bytes srcIp ++ Ipv4Address.bytes destIp
               ++ [0x00; protocol] ++ len ++ packetBinary))
  end.

Definition tcpChecksum (srcIp destIp : Ipv4Address.t)
    (tcpPacketBinary : list Z) : option Z :=
  pseudoChecksum srcIp destIp tcpPacketBinary 0x06.

Definition udpChecksum (srcIp destIp : Ipv4Address.t)
    (udpPacketBinary : list Z) : option Z :=
  match pseudoChecksum srcIp destIp udpPacketBinary 0x11 with
  | None => None
  | Some res =>
      if JS.index_is udpPacketBinary 6 0x00
         && JS.index_is udpPacketBinary 7 0x00
      then Some 0
      else Some res
  end.

(** ** protocols/ipv4.ts, protocols/udp.ts: the data shapes and UDP emit *)

Record Ipv4Data := mkIpv4Data {
  ip_srcIp : Ipv4Address.t;
  ip_destIp : Ipv4Address.t;
  ip_protocol : Z;
  ip_payload : list Z;
  ip_dontFragment : bool;
  ip_dscp : Z;
  ip_ecn : Z;
  ip_timeToLive : Z
}.

Record UdpData := mkUdpData {
  udp_srcIp : Ipv4Address.t;
  udp_destIp : Ipv4Address.t;
  udp_srcPort : Z;
  udp_destPort : Z;
  udp_payload : list Z
}.

Module Udp.

Definition ipProtocolNumber : Z := 0x11.

(** [udpBytes[i] = v] on a typed array: a store past the end is
    ignored. *)
Definition store (l : list Z) (i : nat) (v : Z) : list Z :=
  <[ i := JS.ToUint8 v ]> l.

(** The value of [udpChecksumField] after the zero test of the
    [onSendData] listener. *)
Definition checksumField (udpChecksumResult : Z) : Z :=
  let udpChecksumField := JS.bnot udpChecksumResult in
  if udpChecksumField =? 0 then 0xffff else udpChecksumField.

(** The [onSendData] listener: the IPv4 frame handed to [sendFrame]. *)
Definition onSendData (data : UdpData) : option Ipv4Data :=
  match toBigEndianFromInt 2 (udp_srcPort data),
        toBigEndianFromInt 2 (udp_destPort data),
        toBigEndianFromInt 2 (Z.of_nat (length (udp_payload data)) + 8)
  with
  | Some sp, Some dp, Some len =>
      let udpBytes :=
        JS.Uint8Array (sp ++ dp ++ len ++ [0xff; 0xff] ++ udp_payload data) in
      match udpChecksum (udp_srcIp data) (udp_destIp data) udpBytes with
      | None => None
      | Some c =>
          let udpChecksumField := checksumField c in
          let udpBytes :=
            store udpBytes 6 (JS.band (JS.shr udpChecksumField 8) 0xff) in
          let udpBytes := store udpBytes 7 (JS.band udpChecksumField 0xff) in
          Some {| ip_srcIp := udp_srcIp data;
                  ip_destIp := udp_destIp data;
                  ip_protocol := ipProtocolNumber;
                  ip_payload := udpBytes;
                  ip_dontFragment := true;
                  ip_dscp := 0;
                  ip_ecn := 0;
                  ip_timeToLive := 64 |}
      end
  | _, _, _ => None
  end.

(** The 16-bit checksum field of an emitted datagram (bytes 6 and 7 of
    the UDP header). *)
Definition wireChecksum (frame : Ipv4Data) : Z :=
  toUnsignedIntFromBigEndian (JS.slice 6 8 (ip_payload frame)).

End Udp.

(** ** addresses/mac-address.ts *)

Module MacAddress.

Record t := mk { bytes : list Z }.

Definition new (data : list Z) : option t :=
  let bytesArray := JS.Uint8Array data in
  if negb (length bytesArray =? 6)%nat then None
  else Some (mk bytesArray).

Definition ZeroAddress : t := mk [0; 0; 0; 0; 0; 0].
Definition BroadcastAddress : t := mk [0xff; 0xff; 0xff; 0xff; 0xff; 0xff].

Definition equals (a other : t) : bool :=
  JS.every (fun byte i => JS.index_is (bytes other) i byte) (bytes a).

Definition isRecipientOfTarget (a targetAddress : t) : bool :=
  equals targetAddress BroadcastAddress || equals targetAddress a.

(** [byte.toString(16).padStart(2, "0")] for an octet. *)
Definition hexDigit (d : Z) : ascii :=
  nth (Z.to_nat d)
      ["0"; "1"; "2"; "3"; "4"; "5"; "6"; "7";
       "8"; "9"; "a"; "b"; "c"; "d"; "e"; "f"]%char "?"%char.

Definition hexByte (byte : Z) : string :=
  String (hexDigit (byte / 16)) (String (hexDigit (byte mod 16)) EmptyString).

Fixpoint join (sep : string) (parts : list string) : string :=
  match parts with
  | [] => EmptyString
  | [x] => x
  | x :: rest => (x ++ sep ++ join sep rest)%string
  end.

Definition toString (a : t) : string := join ":" (map hexByte (bytes a)).

Definition wf (a : t) : Prop :=
  length (bytes a) = 6%nat /\ Forall (fun b => 0 <= b < 256) (bytes a).

End MacAddress.

(** ** Bounded iteration of a loop body

    A JavaScript loop whose body either goes round again with a new state
    or leaves the function with a result.  [iterNat n] runs the body at
    most [n] times; [iterPos p] does the same for a binary bound, so that
    a bound as large as the loop's worst case still evaluates in time
    proportional to the iterations actually taken.  [inl] is the state
    reached when the bound runs out. *)

Section Loop.
Context {St R : Type} (body : St -> St + R).

Fixpoint iterNat (n : nat) (s : St) : St + R :=
  match n with
  | O => inl s
  | S n' =>
      match body s with
      | inl s' => iterNat n' s'
      | inr r => inr r
      end
  end.

Fixpoint iterPos (p : positive) (s : St) : St + R :=
  match p with
  | xH => body s
  | xO p' =>
      match iterPos p' s with
      | inl s' => iterPos p' s'
      | inr r => inr r
      end
  | xI p' =>
      match body s with
      | inl s' =>
          match iterPos p' s' with
          | inl s'' => iterPos p' s''
          | inr r => inr r
          end
      | inr r => inr r
      end
  end.
End Loop.

(** ** routers/router.ts *)

Record Device := mkDevice {
  dev_mac : MacAddress.t;
  dev_ip : Ipv4Address.t;
  dev_isConfirmed : bool
}.

Module Router.

Record t := mk {
  mac : MacAddress.t;
  ip : Ipv4Address.t;
  subnetMask : Ipv4Address.t;
  _addressTable : gmap Z MacAddress.t;
  _devices : gmap string Device
}.

Definition _registerDevice (r : t) (device : Device) : t :=
  {| mac := mac r;
     ip := ip r;
     subnetMask := subnetMask r;
     _addressTable :=
       <[ Ipv4Address.toInt (dev_ip device) := dev_mac device ]>
         (_addressTable r);
     _devices :=
       <[ MacAddress.toString (dev_mac device) := device ]> (_devices r) |}.

(** The constructor: the router registers itself, always confirmed. *)
Definition new (mac0 : MacAddress.t) (ip0 subnetMask0 : Ipv4Address.t) : t :=
  _registerDevice
    {| mac := mac0; ip := ip0; subnetMask := subnetMask0;
       _addressTable := ∅; _devices := ∅ |}
    {| dev_mac := mac0; dev_ip := ip0; dev_isConfirmed := true |}.

Definition subnet (r : t) : option Ipv4Address.t :=
  Ipv4Address.bitAnd (subnetMask r) (ip r).

Definition isIpAssigned (r : t) (a : Ipv4Address.t) : bool :=
  bool_decide (is_Some (_addressTable r !! Ipv4Address.toInt a)).

(** One turn of the [for] loop of [_getNextFreeIp] at [curIpInt]:
    [inl] goes round again, [inr (Some (Some a))] returns [a],
    [inr (Some None)] is the [return null] after the loop and
    [inr None] a thrown error. *)
Definition nextFreeIpBody (r : t) (specialAddresses : list Ipv4Address.t)
    (curIpInt : Z) : Z + option (option Ipv4Address.t) :=
  if negb (curIpInt <=? 0xffffffff) then inr (Some None)
  else
    match Ipv4Address.fromInt curIpInt, subnet r with
    | Some curIp, Some actualSubnet =>
        match Ipv4Address.bitAnd (subnetMask r) curIp with
        | Some curIpSubnet =>
            match Ipv4Address.bitXor actualSubnet curIpSubnet with
            | Some subnetDifference =>
                if negb (Ipv4Address.equals subnetDifference
                           Ipv4Address.ZeroAddress)
                then inl (curIpInt + Ipv4Address.toInt subnetDifference)
                else if negb (existsb (fun a => Ipv4Address.equals a curIp)
                                 specialAddresses)
                        && negb (isIpAssigned r curIp)
                then inr (Some (Some curIp))
                else inl (curIpInt + 1)
            | None => inr None
            end
        | None => inr None
        end
    | _, _ => inr None
    end.

(** Every turn of the loop raises [curIpInt] by at least one and the
    loop stops above [0xffffffff], so [2^33] turns are never used up
    ([bodyZ_returns], [getNextFreeIp_int]). *)
Definition loopBound : positive := 8589934592.

Definition _getNextFreeIp (r : t) : option (option Ipv4Address.t) :=
  match subnet r, Ipv4Address.bitNot (subnetMask r) with
  | Some allBitsZero, Some notMask =>
      match Ipv4Address.bitOr allBitsZero notMask with
      | Some allBitsSet =>
          let specialAddresses := [allBitsZero; allBitsSet] in
          match iterPos (nextFreeIpBody r specialAddresses) loopBound 0 with
          | inr res => res
          | inl _ => None
          end
      | None => None
      end
  | _, _ => None
  end.

(** [registerDevice]: [None] is a thrown error, [Some (None, r)] the
    [undefined] result. *)
Definition registerDevice (r : t) (mac0 : MacAddress.t)
    : option (option Device * t) :=
  match _getNextFreeIp r with
  | None => None
  | Some None => Some (None, r)
  | Some (Some ip0) =>
      let device :=
        {| dev_mac := mac0; dev_ip := ip0; dev_isConfirmed := false |} in
      Some (Some device, _registerDevice r device)
  end.

Definition getDeviceByMac (r : t) (mac0 : MacAddress.t) : option Device :=
  _devices r !! MacAddress.toString mac0.

Definition getDeviceByIp (r : t) (a : Ipv4Address.t) : option Device :=
  match _addressTable r !! Ipv4Address.toInt a with
  | None => None
  | Some mac0 => _devices r !! MacAddress.toString mac0
  end.

Definition getOrRegisterDevice (r : t) (mac0 : MacAddress.t)
    : option (option Device * t) :=
  match getDeviceByMac r mac0 with
  | Some d => Some (Some d, r)
  | None => registerDevice r mac0
  end.

End Router.

(** ** protocols/arp.ts: decoded ARP data, and the router's responder *)

Record ArpData := mkArpData {
  arp_srcMac : MacAddress.t;
  arp_destMac : MacAddress.t;
  arp_hardwareType : Z;
  arp_protocolType : Z;
  arp_hardwareSize : Z;
  arp_protocolSize : Z;
  arp_operation : Z;
  arp_originMac : MacAddress.t;
  arp_originIp : Ipv4Address.t;
  arp_queriedIp : Ipv4Address.t;
  arp_queriedMac : option MacAddress.t   (* present in replies only *)
}.

Record EthernetData := mkEthernetData {
  eth_srcMac : MacAddress.t;
  eth_destMac : MacAddress.t;
  eth_etherType : Z;
  eth_payload : list Z
}.

Module Arp.

Definition etherType : Z := 0x0806.

(** The [onProcessFrame] hook of the ARP layer: [None] is a thrown
    error; otherwise whether the frame is consumed, and the decoded data
    passed to [context.processData], if any.  A size byte read past the
    end of the payload is [undefined], the slices that depend on it are
    empty, and the [MacAddress] constructor throws on them. *)
Definition onProcessFrame (frame : EthernetData)
    : option (bool * option ArpData) :=
  if negb (eth_etherType frame =? etherType) then Some (false, None)
  else
    let payload := eth_payload frame in
    let hardwareType := toUnsignedIntFromBigEndian (JS.slice 0 2 payload) in
    let protocolType := toUnsignedIntFromBigEndian (JS.slice 2 4 payload) in
    let operation := toUnsignedIntFromBigEndian (JS.slice 6 8 payload) in
    if negb (hardwareType =? 0x1) then Some (true, None)
    else
      match nth_error payload 4, nth_error payload 5 with
      | Some hardwareSize, Some protocolSize =>
          let hs := Z.to_nat hardwareSize in
          let ps := Z.to_nat protocolSize in
          let senderHardwareAddress := JS.slice 8 (8 + hs) payload in
          let senderProtocolAddress :=
            JS.slice (8 + hs) (8 + hs + ps) payload in
          let targetHardwareAddress :=
            JS.slice (8 + hs + ps) (8 + 2 * hs + ps) payload in
          let targetProtocolAddress :=
            JS.slice (8 + 2 * hs + ps) (8 + 2 * hs + 2 * ps) payload in
          match MacAddress.new senderHardwareAddress,
                MacAddress.new targetHardwareAddress with
          | Some senderMac, Some targetMac =>
              if negb (protocolType =? 0x0800) then Some (true, None)
              else
                match Ipv4Address.new senderProtocolAddress,
                      Ipv4Address.new targetProtocolAddress with
                | Some senderIp, Some targetIp =>
                    if operation =? 0x1 then
                      Some (true, Some
                        {| arp_srcMac := eth_srcMac frame;
                           arp_destMac := eth_destMac frame;
                           arp_hardwareType := hardwareType;
                           arp_protocolType := protocolType;
                           arp_hardwareSize := hardwareSize;
                           arp_protocolSize := protocolSize;
                           arp_operation := operation;
                           arp_originMac := senderMac;
                           arp_originIp := senderIp;
                           arp_queriedIp := targetIp;
                           arp_queriedMac := None |})
                    else if operation =? 0x2 then
                      Some (true, Some
                        {| arp_srcMac := eth_srcMac frame;
                           arp_destMac := eth_destMac frame;
                           arp_hardwareType := hardwareType;
                           arp_protocolType := protocolType;
                           arp_hardwareSize := hardwareSize;
                           arp_protocolSize := protocolSize;
                           arp_operation := operation;
                           arp_queriedMac := Some senderMac;
                           arp_queriedIp := senderIp;
                           arp_originMac := targetMac;
                           arp_originIp := targetIp |})
                    else Some (true, None)
                | _, _ => None
                end
          | _, _ => None
          end
      | _, _ => None
      end.

(** The [onSendData] listener of the ARP layer: the Ethernet frame handed
    to [context.sendFrame]; [None] is a thrown error (an operation other
    than request and reply, a reply without [queriedMac], a field that
    does not fit). *)
Definition onSendData (data : ArpData) : option EthernetData :=
  let details :=
    if arp_operation data =? 0x1 then
      match JS.zeros (arp_hardwareSize data) with
      | Some padding =>
          Some (JS.Uint8Array
                  (MacAddress.bytes (arp_originMac data)
                   ++ Ipv4Address.bytes (arp_originIp data)
                   ++ padding
                   ++ Ipv4Address.bytes (arp_queriedIp data)))
      | None => None
      end
    else if arp_operation data =? 0x2 then
      match arp_queriedMac data with
      | Some queriedMac =>
          Some (JS.Uint8Array
                  (MacAddress.bytes queriedMac
                   ++ Ipv4Address.bytes (arp_queriedIp data)
                   ++ MacAddress.bytes (arp_originMac data)
                   ++ Ipv4Address.bytes (arp_originIp data)))
      | None => None
      end
    else None in
  match details with
  | None => None
  | Some details =>
      match toBigEndianFromInt 2 (arp_hardwareType data),
            toBigEndianFromInt 2 (arp_protocolType data),
            toBigEndianFromInt 2 (arp_operation data)
      with
      | Some ht, Some pt, Some op =>
          Some {| eth_srcMac := arp_srcMac data;
                  eth_destMac := arp_destMac data;
                  eth_etherType := 0x0806;
                  eth_payload :=
                    JS.Uint8Array
                      (ht ++ pt
                       ++ [arp_hardwareSize data; arp_protocolSize data]
                       ++ op ++ details) |}
      | _, _, _ => None
      end
  end.

End Arp.

(** ** protocols/ethernet.ts *)

Module Ethernet.

(** The [onProcessFrame] hook: [None] is an error thrown by the
    [MacAddress] constructor; otherwise whether the frame is consumed, and
    the data passed to [context.processData], if any. *)
Definition onProcessFrame (frame : list Z)
    : option (bool * option EthernetData) :=
  match MacAddress.new (JS.slice 0 6 frame),
        MacAddress.new (JS.slice 6 12 frame) with
  | Some destMac, Some srcMac =>
      let vlanTag := toUnsignedIntFromBigEndian (JS.slice 12 14 frame) in
      let isVlanTagged := (vlanTag =? 0x8100) || (vlanTag =? 0x88a8) in
      if isVlanTagged then Some (true, None)
      else
        let etherType := vlanTag in
        let ethernetPayload := skipn 14 frame in
        Some (true, Some {| eth_destMac := destMac;
                            eth_srcMac := srcMac;
                            eth_etherType := etherType;
                            eth_payload := ethernetPayload |})
  | _, _ => None
  end.

(** The [onSendData] listener: the frame handed to [context.sendFrame]. *)
Definition onSendData (data : EthernetData) : option (list Z) :=
  match toBigEndianFromInt 2 (eth_etherType data) with
  | Some etherType =>
      Some (JS.Uint8Array
              (MacAddress.bytes (eth_destMac data)
               ++ MacAddress.bytes (eth_srcMac data)
               ++ etherType
               ++ eth_payload data))
  | None => None
  end.

End Ethernet.

Module ArpImplementation.

(** The [onProcessFrame] hook of [Router.ArpImplementation]: whether the
    frame is consumed, and the frames passed to [context.sendFrame]. *)
Definition onProcessFrame (router : Router.t) (frame : ArpData)
    : bool * list ArpData :=
  let isRouterSource := MacAddress.equals (Router.mac router) (arp_srcMac frame) in
  let isRouterDest :=
    MacAddress.isRecipientOfTarget (Router.mac router) (arp_destMac frame) in
  if isRouterSource then (true, [])
  else if negb isRouterDest then (false, [])
  else if negb (arp_hardwareType frame =? 0x1) then (true, [])
  else
    match option_map dev_mac
            (Router.getDeviceByIp router (arp_queriedIp frame)) with
    | Some queriedMac =>
        (true,
         [ {| arp_operation := 0x2;
              arp_srcMac := Router.mac router;
              arp_destMac := arp_srcMac frame;
              arp_hardwareType := arp_hardwareType frame;
              arp_hardwareSize := arp_hardwareSize frame;
              arp_protocolType := arp_protocolType frame;
              arp_protocolSize := arp_protocolSize frame;
              arp_originMac := arp_originMac frame;
              arp_originIp := arp_originIp frame;
              arp_queriedMac := Some queriedMac;
              arp_queriedIp := arp_queriedIp frame |} ])
    | None => (true, [])
    end.

End ArpImplementation.

(** ** protocols/dhcp.ts: decoded DHCP data, and the router's responder *)

Record DhcpOption := mkDhcpOption {
  opt_code : Z;
  opt_data : list Z
}.

Record DhcpData := mkDhcpData {
  dhcp_srcIp : Ipv4Address.t;
  dhcp_destIp : Ipv4Address.t;
  dhcp_srcPort : Z;
  dhcp_destPort : Z;
  dhcp_operation : Z;
  dhcp_hops : Z;
  dhcp_xid : Z;
  dhcp_seconds : Z;
  dhcp_flags : Z;
  dhcp_clientIpAddress : Ipv4Address.t;
  dhcp_yourIpAddress : Ipv4Address.t;
  dhcp_serverIpAddress : Ipv4Address.t;
  dhcp_gatewayIpAddress : Ipv4Address.t;
  dhcp_serverName : option string;
  dhcp_bootFileName : option string;
  dhcp_options : list DhcpOption;
  dhcp_hardwareType : Z;
  dhcp_hardwareAddressLength : Z;
  dhcp_clientHardwareAddress : MacAddress.t
}.

Module DhcpImplementation.

(** [device.confirm()]: the device objects live in [_devices], and the
    one that [getOrRegisterDevice(mac)] returns is the one stored under
    [mac.toString()]; that entry is what the call mutates.  (The router's
    own [confirm] does nothing, and its [isConfirmed] is [true] from the
    start.) *)
Definition confirmed (d : Device) : Device :=
  {| dev_mac := dev_mac d; dev_ip := dev_ip d; dev_isConfirmed := true |}.

Definition confirm (router : Router.t) (mac0 : MacAddress.t) : Router.t :=
  {| Router.mac := Router.mac router;
     Router.ip := Router.ip router;
     Router.subnetMask := Router.subnetMask router;
     Router._addressTable := Router._addressTable router;
     Router._devices :=
       alter confirmed (MacAddress.toString mac0) (Router._devices router) |}.

(** The frame handed to [context.sendFrame] in answer to [frame]. *)
Definition reply (router : Router.t) (frame : DhcpData) (device : Device)
    (dhcpMessageType : Z) (leaseTime : list Z) : DhcpData :=
  {| dhcp_srcIp := Router.ip router;
     dhcp_srcPort := dhcp_destPort frame;
     dhcp_destIp := dev_ip device;
     dhcp_destPort := dhcp_srcPort frame;
     dhcp_operation := 0x02;
     dhcp_hops := 0;
     dhcp_serverName := Some ""%string;
     dhcp_bootFileName := Some ""%string;
     dhcp_seconds := 0;
     dhcp_flags := 0;
     dhcp_yourIpAddress := dev_ip device;
     dhcp_serverIpAddress := Router.ip router;
     dhcp_gatewayIpAddress := Ipv4Address.ZeroAddress;
     dhcp_options :=
       [ {| opt_code := 0x35;
            opt_data :=
              JS.Uint8Array [if dhcpMessageType =? 1 then 2 else 5] |};
         {| opt_code := 0x01;
            opt_data := Ipv4Address.bytes (Router.subnetMask router) |};
         {| opt_code := 0x03; opt_data := Ipv4Address.bytes (Router.ip router) |};
         {| opt_code := 0x06; opt_data := Ipv4Address.bytes (Router.ip router) |};
         {| opt_code := 0x0c; opt_data := JS.encodeAscii "emulatorhost" |};
         {| opt_code := 0x0f; opt_data := JS.encodeAscii "emulatorhost" |};
         {| opt_code := 0x1c;
            opt_data := Ipv4Address.bytes Ipv4Address.BroadcastAddress |};
         {| opt_code := 0x33; opt_data := leaseTime |};
         {| opt_code := 0x36; opt_data := Ipv4Address.bytes (Router.ip router) |} ];
     dhcp_hardwareType := dhcp_hardwareType frame;
     dhcp_hardwareAddressLength := dhcp_hardwareAddressLength frame;
     dhcp_xid := dhcp_xid frame;
     dhcp_clientHardwareAddress := dhcp_clientHardwareAddress frame;
     dhcp_clientIpAddress := dhcp_clientIpAddress frame |}.

(** The [onProcessFrame] hook of [Router.DhcpImplementation]: [None] is
    a thrown error; otherwise whether the frame is consumed, the frames
    passed to [context.sendFrame], and the router afterwards. *)
Definition onProcessFrame (router : Router.t) (frame : DhcpData)
    : option (bool * list DhcpData * Router.t) :=
  let routerIp := Router.ip router in
  let isRouterSource := Ipv4Address.equals routerIp (dhcp_srcIp frame) in
  let isRouterDest :=
    Ipv4Address.isRecipientOfTarget routerIp (dhcp_destIp frame) in
  if isRouterSource && (dhcp_srcPort frame =? 67)
  then Some (true, [], router)
  else if negb isRouterDest || negb (dhcp_destPort frame =? 67)
  then Some (false, [], router)
  else
    match List.find (fun option => opt_code option =? 53)
                    (dhcp_options frame) with
    | None => Some (false, [], router)
    | Some dhcpMessageTypeOption =>
        match nth_error (opt_data dhcpMessageTypeOption) 0 with
        | None => Some (false, [], router)   (* [undefined]: default case *)
        | Some dhcpMessageType =>
            if (dhcpMessageType =? 1) || (dhcpMessageType =? 3) then
              match Router.getOrRegisterDevice router
                      (dhcp_clientHardwareAddress frame) with
              | None => None
              | Some (None, router) => Some (true, [], router)
              | Some (Some device, router) =>
                  let router :=
                    if dhcpMessageType =? 3
                    then confirm router (dhcp_clientHardwareAddress frame)
                    else router in
                  match toBigEndianFromInt 4 0x00015180 with
                  | None => None
                  | Some leaseTime =>
                      Some (true,
                            [reply router frame device dhcpMessageType
                               leaseTime],
                            router)
                  end
              end
            else Some (false, [], router)
        end
    end.

End DhcpImplementation.

(** ** utils/callback-event-target.ts

    [_callbacks] is a [Map] keyed by the callback function, iterated in
    insertion order: a list of listeners, each callback carrying the
    identity it is keyed by.  What a callback does is a transformer of the
    world outside the target; a callback that re-enters the target it is
    registered on is outside this model. *)

Module CallbackEventTarget.
Section Target.
Context {CallbackData CallbackResult CallbackMetadata World : Type}.

Record Callback := mkCallback {
  cb_id : nat;
  cb_run : CallbackData -> CallbackMetadata -> World -> CallbackResult * World
}.

Record Listener := mkListener {
  once : bool;
  callback : Callback;
  metadata : CallbackMetadata
}.

Definition t := list Listener.

Definition empty : t := [].

Definition has (tgt : t) (cb : Callback) : bool :=
  existsb (fun l => Nat.eqb (cb_id (callback l)) (cb_id cb)) tgt.

Definition _addListener (tgt : t) (cb : Callback) (md : CallbackMetadata)
    (once0 : bool) : option t :=
  if has tgt cb then None
  else Some (tgt ++ [ {| once := once0; callback := cb; metadata := md |} ]).

Definition addListener (tgt : t) (cb : Callback) (md : CallbackMetadata)
    : option t :=
  _addListener tgt cb md false.

Definition addListenerOnce (tgt : t) (cb : Callback) (md : CallbackMetadata)
    : option t :=
  _addListener tgt cb md true.

Definition removeListener (tgt : t) (cb : Callback) : option t :=
  if negb (has tgt cb) then None
  else Some (filter (fun l => cb_id (callback l) <> cb_id cb) tgt).

Definition removeAllListeners (tgt : t) : t := [].

Record EmitResult := mkEmitResult {
  er_callback : Callback;
  er_result : CallbackResult;
  er_metadata : CallbackMetadata
}.

(** [emit]: the loop over the entries.  [todo] is what is left of the
    iteration, [kept] the listeners that stay registered. *)
Fixpoint emit_from (todo : list Listener) (data : CallbackData)
    (w : World) : list EmitResult * list Listener * World :=
  match todo with
  | [] => ([], [], w)
  | l :: rest =>
      let '(res, w1) := cb_run (callback l) data (metadata l) w in
      let '(results, kept, w2) := emit_from rest data w1 in
      ({| er_callback := callback l;
          er_result := res;
          er_metadata := metadata l |} :: results,
       if once l then kept else l :: kept,
       w2)
  end.

Definition emit (tgt : t) (data : CallbackData) (w : World)
    : list EmitResult * t * World :=
  emit_from tgt data w.

End Target.
Arguments Callback : clear implicits.
Arguments Listener : clear implicits.
Arguments EmitResult : clear implicits.
Arguments t : clear implicits.
End CallbackEventTarget.

(** ** network-adapter.ts: how [createHandlersRecursively] dispatches

    Every hook a layer offers a frame to returns [{ consumed }]. *)

Record Consumed := mkConsumed { consumed : bool }.

Module Layer.
Section Dispatch.
Context {Frame Metadata World : Type}.

Abbreviation Target :=
  (CallbackEventTarget.t Frame Consumed Metadata World).

(** The listener a layer registers with its parent:
    [(frame) => { const results = processFrameTarget.emit(frame);
                  return { consumed: results.some(r => r.result.consumed) } }] *)
Definition onProcessFrame (processFrameTarget : Target) (frame : Frame)
    (w : World) : Consumed * Target * World :=
  let '(results, tgt, w') :=
    CallbackEventTarget.emit processFrameTarget frame w in
  ({| consumed :=
        existsb (fun r => consumed (CallbackEventTarget.er_result r)) results |},
   tgt, w').



End Dispatch.
End Layer.

(** ** protocols/tcp.ts: [TcpPacket] and [TcpSocket] *)

Record TcpFlags := mkTcpFlags {
  fl_ns : bool;
  fl_cwr : bool;
  fl_ece : bool;
  fl_urg : bool;
  fl_ack : bool;
  fl_psh : bool;
  fl_rst : bool;
  fl_syn : bool;
  fl_fin : bool
}.

(** A flags literal leaves the flags it does not name [undefined]; every
    use of a flag is a truthiness test. *)
Definition noFlags : TcpFlags :=
  mkTcpFlags false false false false false false false false false.
Definition flagsAck : TcpFlags :=
  mkTcpFlags false false false false true false false false false.
Definition flagsSyn : TcpFlags :=
  mkTcpFlags false false false false false false false true false.
Definition flagsSynAck : TcpFlags :=
  mkTcpFlags false false false false true false false true false.

Record TcpPacket := mkTcpPacket {
  pk_srcIp : Ipv4Address.t;
  pk_destIp : Ipv4Address.t;
  pk_srcPort : Z;
  pk_destPort : Z;
  pk_seq : Z;
  pk_ack : Z;
  pk_flags : TcpFlags;
  pk_windowSize : option Z;
  pk_urgentPointer : option Z;
  pk_options : option (list Z);
  pk_data : list Z
}.

#[global] Instance Ipv4Address_eq_dec : EqDecision Ipv4Address.t.
Proof. solve_decision. Defined.
#[global] Instance MacAddress_eq_dec : EqDecision MacAddress.t.
Proof. solve_decision. Defined.
#[global] Instance TcpFlags_eq_dec : EqDecision TcpFlags.
Proof. solve_decision. Defined.
#[global] Instance TcpPacket_eq_dec : EqDecision TcpPacket.
Proof. solve_decision. Defined.

Inductive TcpState :=
  INIT | LISTEN | SYN_SENT | SYN_RECEIVED | ESTABLISHED | CLOSED.

Definition TcpState_eqb (a b : TcpState) : bool :=
  match a, b with
  | INIT, INIT | LISTEN, LISTEN | SYN_SENT, SYN_SENT
  | SYN_RECEIVED, SYN_RECEIVED | ESTABLISHED, ESTABLISHED
  | CLOSED, CLOSED => true
  | _, _ => false
  end.

(** What a socket does to the world around it, in the order it does it.
    User callbacks are identified by the position at which they were
    registered; what they do is not the socket's business, and a callback
    that calls back into the socket is outside this model. *)
Inductive Event :=
  | SendPacket (packet : TcpPacket)        (* onSendPacketCallback(packet) *)
  | DataCallback (cb : nat) (data : list Z)
  | EstablishedCallback (cb : nat)
  | CloseCallback (cb : nat).

(** Work the socket leaves with the scheduler: the retransmission loop of
    [_sendPacket] suspended in [await wait(timeout)] after its [i]-th try,
    and [setTimeout(() => this._onEstablishedCallback(), 0)]. *)
Inductive Task :=
  | AfterWait (packet : TcpPacket) (i : nat)
  | FireEstablished.

Inductive Outcome (A : Type) :=
  | Ok (a : A)
  | Throw (msg : string).
Arguments Ok {A} a.
Arguments Throw {A} msg.

Module TcpSocket.

Record t := mk {
  isServer : bool;
  srcIp : Ipv4Address.t;
  destIp : Ipv4Address.t;
  srcPort : Z;
  destPort : Z;
  _state : TcpState;
  _seq : Z;
  _ack : Z;
  _onDataCallbacks : list nat;
  _onEstablishedCallbacks : list nat;
  _onCloseCallbacks : list nat;
  _sentPacketsUnacknowledged : list TcpPacket;
  _receivedPacketsUnacknowledged : list TcpPacket;
  _writeOnceEstablished : list (list Z);
  events : list Event;       (* oldest first *)
  tasks : list Task          (* oldest first *)
}.

(** The constructor; [random] is [randomBytes(4).readInt32BE(0)]. *)
Definition new (isServer0 : bool) (srcIp0 destIp0 : Ipv4Address.t)
    (srcPort0 destPort0 : Z) (random : Z) : t :=
  {| isServer := isServer0;
     srcIp := srcIp0; destIp := destIp0;
     srcPort := srcPort0; destPort := destPort0;
     _state := INIT;
     _seq := JS.band random 0x3fffffff / 100 * 100;
     _ack := 0;
     _onDataCallbacks := [];
     _onEstablishedCallbacks := [];
     _onCloseCallbacks := [];
     _sentPacketsUnacknowledged := [];
     _receivedPacketsUnacknowledged := [];
     _writeOnceEstablished := [];
     events := [];
     tasks := [] |}.

(** *** The socket monad: state, and exceptions that keep the state *)

Definition M (A : Type) : Type := t -> Outcome A * t.

Definition ret {A : Type} (a : A) : M A := fun s => (Ok a, s).

Definition bind {A B : Type} (m : M A) (k : A -> M B) : M B :=
  fun s =>
    match m s with
    | (Ok a, s') => k a s'
    | (Throw msg, s') => (Throw msg, s')
    end.

Definition throw {A : Type} (msg : string) : M A := fun s => (Throw msg, s).

Definition get : M t := fun s => (Ok s, s).

Definition modify (f : t -> t) : M unit := fun s => (Ok tt, f s).

Declare Scope tcp_scope.
Delimit Scope tcp_scope with tcp.
Notation "x <- c1 ;; c2" := (bind c1 (fun x => c2))
  (at level 100, c1 at next level, c2 at level 200,
   right associativity) : tcp_scope.
Notation "c1 ;; c2" := (bind c1 (fun _ => c2))
  (at level 100, c2 at level 200, right associativity) : tcp_scope.
Local Open Scope tcp_scope.

(** [for (const x of xs) body(x)] *)
Fixpoint forEach {A : Type} (xs : list A) (body : A -> M unit) : M unit :=
  match xs with
  | [] => ret tt
  | x :: rest => body x ;; forEach rest body
  end.

(** *** Field updates *)

Definition set_state (v : TcpState) (s : t) : t :=
  mk (isServer s) (srcIp s) (destIp s) (srcPort s) (destPort s)
     v (_seq s) (_ack s)
     (_onDataCallbacks s) (_onEstablishedCallbacks s) (_onCloseCallbacks s)
     (_sentPacketsUnacknowledged s) (_receivedPacketsUnacknowledged s)
     (_writeOnceEstablished s) (events s) (tasks s).

Definition set_seq (v : Z) (s : t) : t :=
  mk (isServer s) (srcIp s) (destIp s) (srcPort s) (destPort s)
     (_state s) v (_ack s)
     (_onDataCallbacks s) (_onEstablishedCallbacks s) (_onCloseCallbacks s)
     (_sentPacketsUnacknowledged s) (_receivedPacketsUnacknowledged s)
     (_writeOnceEstablished s) (events s) (tasks s).

Definition set_ack (v : Z) (s : t) : t :=
  mk (isServer s) (srcIp s) (destIp s) (srcPort s) (destPort s)
     (_state s) (_seq s) v
     (_onDataCallbacks s) (_onEstablishedCallbacks s) (_onCloseCallbacks s)
     (_sentPacketsUnacknowledged s) (_receivedPacketsUnacknowledged s)
     (_writeOnceEstablished s) (events s) (tasks s).

Definition set_onDataCallbacks (v : list nat) (s : t) : t :=
  mk (isServer s) (srcIp s) (destIp s) (srcPort s) (destPort s)
     (_state s) (_seq s) (_ack s)
     v (_onEstablishedCallbacks s) (_onCloseCallbacks s)
     (_sentPacketsUnacknowledged s) (_receivedPacketsUnacknowledged s)
     (_writeOnceEstablished s) (events s) (tasks s).

Definition set_onEstablishedCallbacks (v : list nat) (s : t) : t :=
  mk (isServer s) (srcIp s) (destIp s) (srcPort s) (destPort s)
     (_state s) (_seq s) (_ack s)
     (_onDataCallbacks s) v (_onCloseCallbacks s)
     (_sentPacketsUnacknowledged s) (_receivedPacketsUnacknowledged s)
     (_writeOnceEstablished s) (events s) (tasks s).

Definition set_onCloseCallbacks (v : list nat) (s : t) : t :=
  mk (isServer s) (srcIp s) (destIp s) (srcPort s) (destPort s)
     (_state s) (_seq s) (_ack s)
     (_onDataCallbacks s) (_onEstablishedCallbacks s) v
     (_sentPacketsUnacknowledged s) (_receivedPacketsUnacknowledged s)
     (_writeOnceEstablished s) (events s) (tasks s).

Definition set_sent (v : list TcpPacket) (s : t) : t :=
  mk (isServer s) (srcIp s) (destIp s) (srcPort s) (destPort s)
     (_state s) (_seq s) (_ack s)
     (_onDataCallbacks s) (_onEstablishedCallbacks s) (_onCloseCallbacks s)
     v (_receivedPacketsUnacknowledged s)
     (_writeOnceEstablished s) (events s) (tasks s).

Definition set_received (v : list TcpPacket) (s : t) : t :=
  mk (isServer s) (srcIp s) (destIp s) (srcPort s) (destPort s)
     (_state s) (_seq s) (_ack s)
     (_onDataCallbacks s) (_onEstablishedCallbacks s) (_onCloseCallbacks s)
     (_sentPacketsUnacknowledged s) v
     (_writeOnceEstablished s) (events s) (tasks s).

Definition set_writeOnceEstablished (v : list (list Z)) (s : t) : t :=
  mk (isServer s) (srcIp s) (destIp s) (srcPort s) (destPort s)
     (_state s) (_seq s) (_ack s)
     (_onDataCallbacks s) (_onEstablishedCallbacks s) (_onCloseCallbacks s)
     (_sentPacketsUnacknowledged s) (_receivedPacketsUnacknowledged s)
     v (events s) (tasks s).

Definition set_events (v : list Event) (s : t) : t :=
  mk (isServer s) (srcIp s) (destIp s) (srcPort s) (destPort s)
     (_state s) (_seq s) (_ack s)
     (_onDataCallbacks s) (_onEstablishedCallbacks s) (_onCloseCallbacks s)
     (_sentPacketsUnacknowledged s) (_receivedPacketsUnacknowledged s)
     (_writeOnceEstablished s) v (tasks s).

Definition set_tasks (v : list Task) (s : t) : t :=
  mk (isServer s) (srcIp s) (destIp s) (srcPort s) (destPort s)
     (_state s) (_seq s) (_ack s)
     (_onDataCallbacks s) (_onEstablishedCallbacks s) (_onCloseCallbacks s)
     (_sentPacketsUnacknowledged s) (_receivedPacketsUnacknowledged s)
     (_writeOnceEstablished s) (events s) v.

Definition emitEvent (e : Event) : M unit :=
  modify (fun s => set_events (events s ++ [e]) s).

Definition schedule (k : Task) : M unit :=
  modify (fun s => set_tasks (tasks s ++ [k]) s).

(** *** Callback registration and firing *)

Definition onData (cb : nat) : M unit :=
  modify (fun s => set_onDataCallbacks (_onDataCallbacks s ++ [cb]) s).

Definition onEstablished (cb : nat) : M unit :=
  modify (fun s =>
    set_onEstablishedCallbacks (_onEstablishedCallbacks s ++ [cb]) s).

Definition onClose (cb : nat) : M unit :=
  modify (fun s => set_onCloseCallbacks (_onCloseCallbacks s ++ [cb]) s).

Definition _onDataCallback (packet : TcpPacket) : M unit :=
  s <- get ;;
  forEach (_onDataCallbacks s)
    (fun cb => emitEvent (DataCallback cb (pk_data packet))).

Definition _onCloseCallback : M unit :=
  s <- get ;;
  forEach (_onCloseCallbacks s) (fun cb => emitEvent (CloseCallback cb)).

(** *** Sending *)

(** [_sendPacket]: the packet is completed with the socket's 4-tuple,
    [_seq] moves on, the packet joins the unacknowledged list, and the
    retransmission loop starts: its first try calls
    [onSendPacketCallback] before the first [await]. *)
Definition _sendPacket (seqIncrement : Z) (seq ack : Z) (flags : TcpFlags)
    (data : list Z) : M unit :=
  s <- get ;;
  let tcpPacket :=
    {| pk_srcIp := srcIp s; pk_destIp := destIp s;
       pk_srcPort := srcPort s; pk_destPort := destPort s;
       pk_seq := seq; pk_ack := ack; pk_flags := flags;
       pk_windowSize := None; pk_urgentPointer := None;
       pk_options := None; pk_data := data |} in
  modify (fun s => set_seq (_seq s + seqIncrement) s) ;;
  modify (fun s => set_sent (_sentPacketsUnacknowledged s ++ [tcpPacket]) s) ;;
  emitEvent (SendPacket tcpPacket) ;;
  schedule (AfterWait tcpPacket 1).

Definition _writeSinglePacket (data : list Z) : M unit :=
  s <- get ;;
  if negb (TcpState_eqb (_state s) ESTABLISHED)
  then throw "TcpSocket.write() called in invalid state"
  else _sendPacket (Z.of_nat (length data)) (_seq s) (_ack s) flagsAck data.

(** [for (let i = 0; i < data.length; i += 1200)]; the loop runs at most
    [data.length] times, which is the [fuel] that [write] passes. *)
Fixpoint writeFrom (fuel : nat) (i : nat) (data : list Z) : M unit :=
  match fuel with
  | O => ret tt
  | S fuel' =>
      if (i <? length data)%nat
      then _writeSinglePacket (JS.slice i (i + 1200) data) ;;
           writeFrom fuel' (i + 1200) data
      else ret tt
  end.

Definition write (data : list Z) : M unit :=
  s <- get ;;
  if negb (TcpState_eqb (_state s) ESTABLISHED)
  then modify (fun s =>
         set_writeOnceEstablished (_writeOnceEstablished s ++ [data]) s)
  else writeFrom (length data) 0 data.

Definition _onEstablishedCallback : M unit :=
  s <- get ;;
  (* this._writeOnceEstablished.splice(0) *)
  modify (set_writeOnceEstablished []) ;;
  forEach (_writeOnceEstablished s) write ;;
  s <- get ;;
  forEach (_onEstablishedCallbacks s)
    (fun cb => emitEvent (EstablishedCallback cb)).

Definition close : M unit :=
  modify (set_state CLOSED) ;;
  _onCloseCallback.

Definition isInitialized (s : t) : bool := negb (TcpState_eqb (_state s) INIT).

Definition isClosed (s : t) : bool := TcpState_eqb (_state s) CLOSED.

(** *** The handler's private methods *)

Definition listen : M unit :=
  s <- get ;;
  if negb (TcpState_eqb (_state s) INIT)
  then throw "TcpSocket.listen() called in invalid state"
  else if negb (isServer s)
  then throw "TcpSocket.listen() called on client socket"
  else modify (set_state LISTEN).

Definition connect : M unit :=
  s <- get ;;
  if negb (TcpState_eqb (_state s) INIT)
  then throw "TcpSocket.connect() called in invalid state"
  else if isServer s
  then throw "TcpSocket.connect() called on server socket"
  else
    modify (set_state SYN_SENT) ;;
    _sendPacket 1 (_seq s) 0 flagsSyn [].

(** [this._receivedPacketsUnacknowledged.find(p => p.seq <= this._ack)],
    and the list without the object found (the [filter] compares object
    identities, and [find] returns the first match). *)
Fixpoint takeFirstDue (ack : Z) (queue : list TcpPacket)
    : option (TcpPacket * list TcpPacket) :=
  match queue with
  | [] => None
  | p :: rest =>
      if pk_seq p <=? ack then Some (p, rest)
      else
        match takeFirstDue ack rest with
        | Some (found, rest') => Some (found, p :: rest')
        | None => None
        end
  end.

(** The [while (true)] loop of the ESTABLISHED case; every turn takes
    one packet out of the holding queue, so the length of the queue
    (plus one for the final look) bounds it. *)
Fixpoint drain (fuel : nat) (mustAcknowledge : bool) : M bool :=
  match fuel with
  | O => ret mustAcknowledge
  | S fuel' =>
      s <- get ;;
      match takeFirstDue (_ack s) (_receivedPacketsUnacknowledged s) with
      | None => ret mustAcknowledge
      | Some (packet, others) =>
          modify (set_received others) ;;
          if pk_seq packet <? _ack s
          then drain fuel' true
          else
            modify (fun s =>
              set_ack (_ack s + Z.of_nat (length (pk_data packet))) s) ;;
            if (0 <? Z.of_nat (length (pk_data packet)))
            then _onDataCallback packet ;; drain fuel' true
            else drain fuel' mustAcknowledge
      end
  end.

(** The [switch (this._state)] that ends [process]. *)
Definition processInState (tcpPacket : TcpPacket) : M unit :=
  s <- get ;;
  match _state s with
  | LISTEN =>
      if fl_syn (pk_flags tcpPacket)
      then
        modify (set_state SYN_RECEIVED) ;;
        modify (set_ack (pk_seq tcpPacket + 1)) ;;
        s <- get ;;
        _sendPacket 1 (_seq s) (_ack s) flagsSynAck []
      else ret tt
  | SYN_RECEIVED =>
      if fl_ack (pk_flags tcpPacket)
      then
        modify (set_state ESTABLISHED) ;;
        schedule FireEstablished
      else ret tt
  | SYN_SENT =>
      if fl_syn (pk_flags tcpPacket) && fl_ack (pk_flags tcpPacket)
      then
        modify (set_state ESTABLISHED) ;;
        modify (set_ack (pk_seq tcpPacket + 1)) ;;
        s <- get ;;
        _sendPacket 0 (_seq s) (_ack s) flagsAck [] ;;
        schedule FireEstablished
      else ret tt
  | ESTABLISHED =>
      if (0 <? length (_writeOnceEstablished s))%nat
      then throw "Assertion error; writeOnceEstablished should be empty in ESTABLISHED state. This is a bug in pgmock."
      else
        modify (fun s =>
          set_received (_receivedPacketsUnacknowledged s ++ [tcpPacket]) s) ;;
        s <- get ;;
        mustAcknowledge <-
          drain (S (length (_receivedPacketsUnacknowledged s))) false ;;
        if mustAcknowledge
        then s <- get ;; _sendPacket 0 (_seq s) (_ack s) flagsAck []
        else ret tt
  | CLOSED => ret tt   (* we're already closed, let's just ignore *)
  | INIT => throw "Unknown TcpSocket state"
  end.

Definition process (tcpPacket : TcpPacket) : M unit :=
  s <- get ;;
  if TcpState_eqb (_state s) INIT
  then throw "TcpSocket.process() called in invalid state"
  else if Ipv4Address.equals (pk_srcIp tcpPacket) (srcIp s)
          && (pk_srcPort tcpPacket =? srcPort s)
  then ret tt   (* our own packet *)
  else if negb (Ipv4Address.equals (pk_destIp tcpPacket) (srcIp s))
          || negb (pk_destPort tcpPacket =? srcPort s)
  then throw "TcpSocket.process() called with packet that is neither from nor for this socket"
  else if fl_fin (pk_flags tcpPacket)
  then close
  else
    (if fl_ack (pk_flags tcpPacket)
     then modify (fun s =>
            set_sent
              (List.filter
                 (fun packet =>
                    pk_seq packet + Z.of_nat (length (pk_data packet))
                    >? pk_ack tcpPacket)
                 (_sentPacketsUnacknowledged s))
              s)
     else ret tt) ;;
    processInState tcpPacket.

(** What the scheduler runs when a task comes due.  [AfterWait packet i]
    is the rest of the [i]-th turn of the retransmission loop, after its
    [await wait(timeout)]. *)
Definition isPureAck (packet : TcpPacket) : bool :=
  (length (pk_data packet) =? 0)%nat
  && negb (fl_syn (pk_flags packet)) && negb (fl_fin (pk_flags packet)).

Definition runTask (k : Task) : M unit :=
  match k with
  | FireEstablished => _onEstablishedCallback
  | AfterWait packet i =>
      s <- get ;;
      if isPureAck packet then ret tt
      else if negb (existsb
                     (fun p => bool_decide (p = packet))
                     (_sentPacketsUnacknowledged s))
      then ret tt
      else if (i <? 10)%nat
      then emitEvent (SendPacket packet) ;; schedule (AfterWait packet (S i))
      else close
  end.

End TcpSocket.

(** ** protocols/tcp.ts: the [Tcp] handler's wire format *)

Module Tcp.

Definition ipProtocolNumber : Z := 0x06.

(** [flag ? bit : 0x00] *)
Definition flagBit (flag : bool) (bit : Z) : Z := if flag then bit else 0x00.

(** The callback that [registerSocket] pushes onto a socket's
    [onSendPacketCallbacks]: the IPv4 frame it hands to
    [context.sendFrame]; [None] is an error thrown by
    [toBigEndianFromInt]. *)
Definition onSendPacket (packet : TcpPacket) : option Ipv4Data :=
  let options := default [] (pk_options packet) in
  let headerSize := 20 + Z.of_nat (length options) in
  let windowSize :=
    match pk_windowSize packet with
    | Some w => if w =? 0 then 0xffff else w
    | None => 0xffff
    end in
  match toBigEndianFromInt 2 (pk_srcPort packet),
        toBigEndianFromInt 2 (pk_destPort packet),
        toBigEndianFromInt 4 (pk_seq packet),
        toBigEndianFromInt 4 (pk_ack packet),
        toBigEndianFromInt 2 windowSize,
        toBigEndianFromInt 2 0x0,
        toBigEndianFromInt 2 (default 0x0 (pk_urgentPointer packet))
  with
  | Some sp, Some dp, Some sq, Some ak, Some ws, Some cs, Some up =>
      let flags := pk_flags packet in
      let tcpPacketBinary :=
        JS.Uint8Array
          (sp ++ dp ++ sq ++ ak
           ++ [ JS.bor (JS.shl (headerSize / 4) 4) (flagBit (fl_ns flags) 0x01);
                JS.bor (JS.bor (JS.bor (JS.bor (JS.bor (JS.bor (JS.bor
                  (flagBit (fl_cwr flags) 0x80)
                  (flagBit (fl_ece flags) 0x40))
                  (flagBit (fl_urg flags) 0x20))
                  (flagBit (fl_ack flags) 0x10))
                  (flagBit (fl_psh flags) 0x08))
                  (flagBit (fl_rst flags) 0x04))
                  (flagBit (fl_syn flags) 0x02))
                  (flagBit (fl_fin flags) 0x01) ]
           ++ ws ++ cs ++ up ++ options ++ pk_data packet) in
      match tcpChecksum (pk_srcIp packet) (pk_destIp packet) tcpPacketBinary with
      | None => None
      | Some c =>
          let checksumField := JS.bnot c in
          let tcpPacketBinary :=
            Udp.store tcpPacketBinary 16 (JS.shr checksumField 8) in
          let tcpPacketBinary :=
            Udp.store tcpPacketBinary 17 (JS.band checksumField 0xff) in
          Some {| ip_srcIp := pk_srcIp packet;
                  ip_destIp := pk_destIp packet;
                  ip_protocol := ipProtocolNumber;
                  ip_payload := tcpPacketBinary;
                  ip_dontFragment := true;
                  ip_dscp := 0;
                  ip_ecn := 0;
                  ip_timeToLive := 64 |}
      end
  | _, _, _, _, _, _, _ => None
  end.

(** [payload[i]] as an operand of [>>] or [&]: a read past the end is
    [undefined], which these operators take as 0. *)
Definition byteAt (payload : list Z) (i : nat) : Z := nth i payload 0.

(** [!!(payload[i] & bit)] *)
Definition flagAt (payload : list Z) (i : nat) (bit : Z) : bool :=
  negb (JS.band (byteAt payload i) bit =? 0).

(** The [tcpPacket] that [onProcessFrame] decodes from a frame. *)
Definition tcpPacketOf (frame : Ipv4Data) : TcpPacket :=
  let payload := ip_payload frame in
  let dataOffset := JS.shr (byteAt payload 12) 4 in
  {| pk_srcIp := ip_srcIp frame;
     pk_destIp := ip_destIp frame;
     pk_srcPort := toUnsignedIntFromBigEndian (JS.slice 0 2 payload);
     pk_destPort := toUnsignedIntFromBigEndian (JS.slice 2 4 payload);
     pk_seq := toUnsignedIntFromBigEndian (JS.slice 4 8 payload);
     pk_ack := toUnsignedIntFromBigEndian (JS.slice 8 12 payload);
     pk_flags :=
       {| fl_ns := flagAt payload 12 0x01;
          fl_cwr := flagAt payload 13 0x80;
          fl_ece := flagAt payload 13 0x40;
          fl_urg := flagAt payload 13 0x20;
          fl_ack := flagAt payload 13 0x10;
          fl_psh := flagAt payload 13 0x08;
          fl_rst := flagAt payload 13 0x04;
          fl_syn := flagAt payload 13 0x02;
          fl_fin := flagAt payload 13 0x01 |};
     pk_windowSize := Some (toUnsignedIntFromBigEndian (JS.slice 14 16 payload));
     pk_urgentPointer :=
       Some (toUnsignedIntFromBigEndian (JS.slice 18 20 payload));
     pk_options := Some (JS.slice 20 (Z.to_nat (dataOffset * 4)) payload);
     pk_data := skipn (Z.to_nat (dataOffset * 4)) payload |}.

(** The checksum that [onProcessFrame] computes over a received frame
    before it looks for a socket. *)
Definition receivedChecksum (frame : Ipv4Data) : option Z :=
  tcpChecksum (ip_srcIp frame) (ip_destIp frame) (ip_payload frame).

End Tcp.

(** ** protocols/ipv4.ts

    [isZeroIn16BitsOnesComplement] comes from [utils/ones-complement.ts];
    the layer is modelled for any such test. *)

Module Ipv4.
Section Layer.
Variable isZeroIn16BitsOnesComplement : Z -> bool.

Definition etherType : Z := 0x0800.

(** The [onSendData] listener: the Ethernet data handed to
    [context.sendFrame]; [None] is a thrown error (a total length that
    does not fit, the checksum assertion, an address that the router does
    not know). *)
Definition onSendData (router : Router.t) (data : Ipv4Data)
    : option EthernetData :=
  let ipHeaderLength := 20 in
  let moreFragments := false in
  let flagsBits :=
    JS.bor (if ip_dontFragment data then 0x02 else 0x00)
           (if moreFragments then 0x01 else 0x00) in
  match toBigEndianFromInt 2
          (ipHeaderLength + Z.of_nat (length (ip_payload data))) with
  | None => None
  | Some totalLength =>
      let ipHeaderBytes :=
        JS.Uint8Array
          ([ 0x40 + ipHeaderLength / 4;
             JS.bor (JS.shl (ip_dscp data) 2) (ip_ecn data) ]
           ++ totalLength
           ++ [ 0x00; 0x00;
                JS.shl flagsBits 5; 0x00;
                ip_timeToLive data;
                ip_protocol data;
                0xff; 0xff ]
           ++ Ipv4Address.bytes (ip_srcIp data)
           ++ Ipv4Address.bytes (ip_destIp data)) in
      if negb (Z.of_nat (length ipHeaderBytes) =? ipHeaderLength) then None
      else
        let ipChecksumField := JS.bnot (internetChecksum ipHeaderBytes) in
        let ipHeaderBytes :=
          Udp.store ipHeaderBytes 10
            (JS.band (JS.shr ipChecksumField 8) 0xff) in
        let ipHeaderBytes :=
          Udp.store ipHeaderBytes 11 (JS.band ipChecksumField 0xff) in
        if negb (isZeroIn16BitsOnesComplement
                   (internetChecksum (JS.slice 0 20 ipHeaderBytes)))
        then None
        else
          match Router.getDeviceByIp router (ip_srcIp data) with
          | None => None
          | Some srcDevice =>
              match Router.getDeviceByIp router (ip_destIp data) with
              | None => None
              | Some destDevice =>
                  Some {| eth_srcMac := dev_mac srcDevice;
                          eth_destMac := dev_mac destDevice;
                          eth_etherType := etherType;
                          eth_payload :=
                            JS.Uint8Array (ipHeaderBytes ++ ip_payload data) |}
              end
          end
  end.

(** The [onProcessFrame] hook: [None] is an error thrown by the
    [Ipv4Address] constructor on a payload of fewer than 20 bytes;
    otherwise whether the frame is consumed, and the data passed to
    [context.processData], if any.  The bytes that are read as plain
    numbers (7, 8 and 9) are only used once both addresses have been
    built, that is on a payload of at least 20 bytes. *)
Definition onProcessFrame (frame : EthernetData)
    : option (bool * option Ipv4Data) :=
  if negb (eth_etherType frame =? etherType) then Some (false, None)
  else
    let payload := eth_payload frame in
    let ipVersion := JS.shr (Tcp.byteAt payload 0) 4 in
    if negb (ipVersion =? 4) then Some (true, None)
    else
      let ipHeaderLength := JS.band (Tcp.byteAt payload 0) 0x0f * 4 in
      let dscp := JS.shr (Tcp.byteAt payload 1) 2 in
      let ecn := JS.band (Tcp.byteAt payload 1) 0x03 in
      let totalLength := toUnsignedIntFromBigEndian (JS.slice 2 4 payload) in
      let ipFlags := JS.shr (Tcp.byteAt payload 6) 5 in
      let df := negb (JS.band ipFlags 0x02 =? 0) in
      let mf := negb (JS.band ipFlags 0x01 =? 0) in
      let fragmentOffset :=
        JS.shl (JS.band (Tcp.byteAt payload 6) 0x1f) 8 + nth 7 payload 0 in
      let timeToLive := nth 8 payload 0 in
      let protocol := nth 9 payload 0 in
      match Ipv4Address.new (JS.slice 12 16 payload),
            Ipv4Address.new (JS.slice 16 20 payload) with
      | Some srcIp, Some destIp =>
          let ipOptions := JS.slice 20 (Z.to_nat ipHeaderLength) payload in
          let payload' :=
            JS.slice (Z.to_nat ipHeaderLength) (Z.to_nat totalLength) payload in
          let data :=
            {| ip_srcIp := srcIp;
               ip_destIp := destIp;
               ip_dontFragment := df;
               ip_protocol := protocol;
               ip_timeToLive := timeToLive;
               ip_dscp := dscp;
               ip_ecn := ecn;
               ip_payload := payload' |} in
          let ipChecksum :=
            internetChecksum (JS.slice 0 (Z.to_nat ipHeaderLength) payload) in
          if negb (isZeroIn16BitsOnesComplement ipChecksum)
          then Some (true, None)
          else if negb (length ipOptions =? 0)%nat then Some (true, None)
          else if mf || negb (fragmentOffset =? 0) then Some (true, None)
          else Some (true, Some data)
      | _, _ => None
      end.

End Layer.
End Ipv4.

(** ** Vocabulary of the statements *)

(** A 32-bit signed integer. *)
Definition int32 (a : Z) : Prop := - 2 ^ 31 <= a < 2 ^ 31.

(** [_fromSignedInt]'s first step: the unsigned reading of a signed
    32-bit integer. *)
Definition unsign (s : Z) : Z := if s <? 0 then 0xffffffff + s + 1 else s.

(** An octet, as a [Uint8Array] holds it. *)
Definition isByte (b : Z) : Prop := 0 <= b < 256.

(** The two big-endian bytes of the 16-bit complement of a checksum, as
    the emit paths write them: [~sum >> 8 & 0xff] and [~sum & 0xff]. *)
Definition complementBytes (sum : Z) : list Z :=
  [JS.band (JS.shr (JS.bnot sum) 8) 0xff; JS.band (JS.bnot sum) 0xff].

(** The ones' complement sum that [internetChecksum] folds. *)
Definition wordSum (data : list Z) : Z :=
  JS.reduce
    (fun acc byte index =>
       if Nat.even index then acc + byte * 256 else acc + byte)
    0 data.

(** The address whose integer is [x], octet by octet. *)
Definition ofInt (x : Z) : Ipv4Address.t :=
  Ipv4Address.mk
    [x / 16777216 mod 256; x / 65536 mod 256; x / 256 mod 256; x mod 256].

Definition ip (a b c d : Z) : Ipv4Address.t := Ipv4Address.mk [a; b; c; d].

(** The subnet mask of the adapter's router. *)
Definition mask16 : Ipv4Address.t := ip 255 255 0 0.

(** In the router's subnet; the network address; the all-ones broadcast
    address: the three notions as [_getNextFreeIp] computes them. *)
Definition inSubnet (r : Router.t) (a : Ipv4Address.t) : Prop :=
  Ipv4Address.bitAnd (Router.subnetMask r) a = Router.subnet r.

Definition isNetworkAddress (r : Router.t) (a : Ipv4Address.t) : Prop :=
  Router.subnet r = Some a.

Definition isBroadcastAddress (r : Router.t) (a : Ipv4Address.t) : Prop :=
  exists allBitsZero notMask,
    Router.subnet r = Some allBitsZero
    /\ Ipv4Address.bitNot (Router.subnetMask r) = Some notMask
    /\ Ipv4Address.bitOr allBitsZero notMask = Some a.

(** A packet that reaches the body of [process]: not one of the socket's
    own, and addressed to the socket. *)
Definition inbound (p : TcpPacket) (s : TcpSocket.t) : Prop :=
  Ipv4Address.equals (pk_srcIp p) (TcpSocket.srcIp s)
    && (pk_srcPort p =? TcpSocket.srcPort s) = false
  /\ Ipv4Address.equals (pk_destIp p) (TcpSocket.srcIp s) = true
  /\ pk_destPort p = TcpSocket.srcPort s.

(** The segment [_sendPacket] builds on socket [s]. *)
Definition packetOf (s : TcpSocket.t) (seq ack : Z) (flags : TcpFlags)
    (data : list Z) : TcpPacket :=
  {| pk_srcIp := TcpSocket.srcIp s; pk_destIp := TcpSocket.destIp s;
     pk_srcPort := TcpSocket.srcPort s; pk_destPort := TcpSocket.destPort s;
     pk_seq := seq; pk_ack := ack; pk_flags := flags;
     pk_windowSize := None; pk_urgentPointer := None;
     pk_options := None; pk_data := data |}.

(** The socket after [_sendPacket] has sent [packets], leaving [_seq] at
    [seq]. *)
Definition afterSending (packets : list TcpPacket) (seq : Z)
    (s : TcpSocket.t) : TcpSocket.t :=
  TcpSocket.set_tasks
    (TcpSocket.tasks s ++ map (fun p => AfterWait p 1) packets)
    (TcpSocket.set_events
       (TcpSocket.events s ++ map SendPacket packets)
       (TcpSocket.set_sent
          (TcpSocket._sentPacketsUnacknowledged s ++ packets)
          (TcpSocket.set_seq seq s))).

(** The socket after the ACK handling of [process]. *)
Definition acknowledge (p : TcpPacket) (s : TcpSocket.t) : TcpSocket.t :=
  if fl_ack (pk_flags p)
  then TcpSocket.set_sent
         (List.filter
            (fun packet =>
               pk_seq packet + Z.of_nat (length (pk_data packet))
               >? pk_ack p)
            (TcpSocket._sentPacketsUnacknowledged s))
         s
  else s.

(** The packets handed to [onSendPacketCallback] in a run of events. *)
Definition packetsSent (evs : list Event) : list TcpPacket :=
  flat_map (fun e => match e with SendPacket q => [q] | _ => [] end) evs.

(** What the holding-queue loop of the ESTABLISHED case leaves alone. *)
Definition sameButQueue (s s' : TcpSocket.t) : Prop :=
  TcpSocket._state s' = TcpSocket._state s
  /\ TcpSocket._seq s' = TcpSocket._seq s
  /\ TcpSocket._sentPacketsUnacknowledged s'
     = TcpSocket._sentPacketsUnacknowledged s
  /\ TcpSocket.tasks s' = TcpSocket.tasks s
  /\ TcpSocket.srcIp s' = TcpSocket.srcIp s
  /\ TcpSocket.destIp s' = TcpSocket.destIp s
  /\ TcpSocket.srcPort s' = TcpSocket.srcPort s
  /\ TcpSocket.destPort s' = TcpSocket.destPort s
  /\ TcpSocket._onDataCallbacks s' = TcpSocket._onDataCallbacks s.

(** Whether an unacknowledged packet survives an ACK: the predicate of
    the [filter] in [process]. *)
Definition stillUnacknowledged (ack : Z) (packet : TcpPacket) : bool :=
  pk_seq packet + Z.of_nat (length (pk_data packet)) >? ack.

(** The segments of a [write] of [data] on an established socket, in the
    specification's words: 1200-byte slices followed by the remainder,
    each with the ACK flag, the socket's ack, and a seq that starts at the
    socket's and advances by the payload sent so far. *)
Definition segmentCount (len : nat) : nat := (len + 1199) / 1200.

Definition segmentsOf (s : TcpSocket.t) (data : list Z) : list TcpPacket :=
  map (fun k =>
         packetOf s (TcpSocket._seq s + 1200 * Z.of_nat k) (TcpSocket._ack s)
           flagsAck (JS.slice (1200 * k) (1200 * k + 1200) data))
      (seq 0 (segmentCount (length data))).

(** A device as [registerDevice] hands it out: outside the table of
    assigned addresses before the call, in the subnet, and neither of the
    two special addresses. *)
Definition allocatable (r : Router.t) (a : Ipv4Address.t) : Prop :=
  Ipv4Address.wf a
  /\ inSubnet r a
  /\ ~ isNetworkAddress r a
  /\ ~ isBroadcastAddress r a.

(** A call of the router's registration interface, and the states a
    sequence of such calls reaches. *)
Inductive RouterCall :=
  | CallRegisterDevice (mac : MacAddress.t)
  | CallGetOrRegisterDevice (mac : MacAddress.t).

Definition runCall (r : Router.t) (c : RouterCall)
    : option (option Device * Router.t) :=
  match c with
  | CallRegisterDevice mac => Router.registerDevice r mac
  | CallGetOrRegisterDevice mac => Router.getOrRegisterDevice r mac
  end.

(** The MAC a call asks an address for. *)
Definition callMac (c : RouterCall) : MacAddress.t :=
  match c with
  | CallRegisterDevice mac => mac
  | CallGetOrRegisterDevice mac => mac
  end.

Inductive reachable (r0 : Router.t) : Router.t -> Prop :=
  | reachable_init : reachable r0 r0
  | reachable_call r c res r' :
      reachable r0 r -> runCall r c = Some (res, r') -> reachable r0 r'.

(** What holds of the device table of a router created with the address
    [ip0] and the mask 255.255.0.0, whatever was registered since. *)
Definition RouterInv (mac0 : MacAddress.t) (ip0 : Ipv4Address.t)
    (r : Router.t) : Prop :=
  Router.mac r = mac0
  /\ Router.ip r = ip0
  /\ Router.subnetMask r = mask16
  /\ forall k d, Router._devices r !! k = Some d ->
       k = MacAddress.toString (dev_mac d)
       /\ Router._addressTable r !! Ipv4Address.toInt (dev_ip d)
          = Some (dev_mac d)
       /\ (dev_ip d = ip0 \/ allocatable r (dev_ip d)).

(** The number a byte sequence denotes, most significant byte first, and
    the [n] base-256 digits of a number. *)
Fixpoint bigEndianValue (l : list Z) : Z :=
  match l with
  | [] => 0
  | b :: rest => b * 256 ^ Z.of_nat (length rest) + bigEndianValue rest
  end.

Definition bigEndianDigits (n : nat) (x : Z) : list Z :=
  map (fun i => (x / 256 ^ Z.of_nat (n - i - 1)) mod 256) (seq 0 n).

(** The value of a lower-case hexadecimal digit. *)
Definition hexValue (c : ascii) : Z :=
  match c with
  | "0" => 0 | "1" => 1 | "2" => 2 | "3" => 3 | "4" => 4
  | "5" => 5 | "6" => 6 | "7" => 7 | "8" => 8 | "9" => 9
  | "a" => 10 | "b" => 11 | "c" => 12 | "d" => 13 | "e" => 14 | "f" => 15
  | _ => -1
  end%char.

(** A segment as a [TcpSocket] builds it: no window size, urgent pointer
    or options; and the same segment as the handler decodes it from the
    wire, where these three read as their defaults. *)
Definition plainSegment (p : TcpPacket) : Prop :=
  pk_windowSize p = None /\ pk_urgentPointer p = None /\ pk_options p = None.

Definition asDecoded (p : TcpPacket) : TcpPacket :=
  {| pk_srcIp := pk_srcIp p; pk_destIp := pk_destIp p;
     pk_srcPort := pk_srcPort p; pk_destPort := pk_destPort p;
     pk_seq := pk_seq p; pk_ack := pk_ack p; pk_flags := pk_flags p;
     pk_windowSize := Some 0xffff; pk_urgentPointer := Some 0;
     pk_options := Some []; pk_data := pk_data p |}.

(** The states that calls of the registration interface reach when
    [registerDevice] is only called for a MAC that is not in the table,
    as [getOrRegisterDevice] does. *)
Inductive reachableOnce (r0 : Router.t) : Router.t -> Prop :=
  | once_init : reachableOnce r0 r0
  | once_register r mac res r' :
      reachableOnce r0 r ->
      Router.getDeviceByMac r mac = None ->
      Router.registerDevice r mac = Some (res, r') ->
      reachableOnce r0 r'
  | once_getOrRegister r mac res r' :
      reachableOnce r0 r ->
      Router.getOrRegisterDevice r mac = Some (res, r') ->
      reachableOnce r0 r'.

(** Every entry of the address table leads to a device at that
    address. *)
Definition tableLinked (r : Router.t) : Prop :=
  forall x m, Router._addressTable r !! x = Some m ->
    exists d, Router._devices r !! MacAddress.toString m = Some d
              /\ Ipv4Address.toInt (dev_ip d) = x.

(** ARP data for IPv4 over Ethernet, as the stack exchanges it: a
    request without, or a reply with, the queried MAC. *)
Definition ethernetIpv4Arp (data : ArpData) : Prop :=
  arp_hardwareType data = 0x1 /\ arp_protocolType data = 0x0800
  /\ arp_hardwareSize data = 6 /\ arp_protocolSize data = 4
  /\ MacAddress.wf (arp_originMac data)
  /\ Ipv4Address.wf (arp_originIp data)
  /\ Ipv4Address.wf (arp_queriedIp data)
  /\ ((arp_operation data = 0x1 /\ arp_queriedMac data = None)
      \/ (arp_operation data = 0x2
          /\ exists m, arp_queriedMac data = Some m /\ MacAddress.wf m)).

(** The first value of a DHCP frame's message-type option (code 53). *)
Definition dhcpMessageType (frame : DhcpData) : option Z :=
  match List.find (fun option => opt_code option =? 53) (dhcp_options frame) with
  | Some option => nth_error (opt_data option) 0
  | None => None
  end.

(** A DHCP frame that passes the responder's address checks: not sent
    by the router's own server port, and addressed to the router (or
    broadcast) on port 67. *)
Definition dhcpForRouter (router : Router.t) (frame : DhcpData) : Prop :=
  Ipv4Address.equals (Router.ip router) (dhcp_srcIp frame)
    && (dhcp_srcPort frame =? 67) = false
  /\ Ipv4Address.isRecipientOfTarget (Router.ip router) (dhcp_destIp frame)
     = true
  /\ dhcp_destPort frame = 67.

(** ** Concrete inputs *)

(** The router of [NetworkAdapter]'s constructor. *)
Definition adapterRouterMac : MacAddress.t :=
  MacAddress.mk [0x00; 0x0c; 0x13; 0x37; 0x42; 0x69].
Definition adapterRouter : Router.t :=
  Router.new adapterRouterMac (ip 192 168 13 37) mask16.

(** The emulator's NIC, registered by the boot sequence. *)
Definition emulatorMac : MacAddress.t :=
  MacAddress.mk [0x00; 0x22; 0x15; 0x64; 0x7b; 0x90].

Definition emulatorDevice : Device :=
  {| dev_mac := emulatorMac; dev_ip := ip 192 168 0 1;
     dev_isConfirmed := false |}.

(** The adapter's router after the boot sequence registered the NIC. *)
Definition bootedRouter : Router.t :=
  Router._registerDevice adapterRouter emulatorDevice.

(** An ARP who-has for 192.168.0.1, broadcast by a host at 192.168.0.5. *)
Definition hostMac : MacAddress.t :=
  MacAddress.mk [0xaa; 0xbb; 0xcc; 0xdd; 0xee; 0xff].
Definition arpWhoHas : ArpData :=
  {| arp_srcMac := hostMac;
     arp_destMac := MacAddress.BroadcastAddress;
     arp_hardwareType := 0x1; arp_protocolType := 0x0800;
     arp_hardwareSize := 6; arp_protocolSize := 4;
     arp_operation := 0x1;
     arp_originMac := hostMac; arp_originIp := ip 192 168 0 5;
     arp_queriedIp := ip 192 168 0 1;
     arp_queriedMac := None |}.

(** Two hooks on one layer that log their invocation in the world; the
    first claims every frame. *)
Definition claimingHook : CallbackEventTarget.Callback Z Consumed unit (list nat) :=
  {| CallbackEventTarget.cb_id := 0;
     CallbackEventTarget.cb_run :=
       fun _ _ w => ({| consumed := true |}, w ++ [0%nat]) |}.
Definition secondHook : CallbackEventTarget.Callback Z Consumed unit (list nat) :=
  {| CallbackEventTarget.cb_id := 1;
     CallbackEventTarget.cb_run :=
       fun _ _ w => ({| consumed := false |}, w ++ [1%nat]) |}.
Definition twoHooks : CallbackEventTarget.t Z Consumed unit (list nat) :=
  [ {| CallbackEventTarget.once := false;
       CallbackEventTarget.callback := claimingHook;
       CallbackEventTarget.metadata := tt |};
    {| CallbackEventTarget.once := false;
       CallbackEventTarget.callback := secondHook;
       CallbackEventTarget.metadata := tt |} ].

(** A server socket of the adapter's router, accepted from the emulator,
    and packets of its peer. *)
Definition serverSocket : TcpSocket.t :=
  TcpSocket.new true (ip 192 168 13 37) (ip 192 168 0 1) 5432 40000 123456789.

Definition peerPacket (seq ack : Z) (flags : TcpFlags) (data : list Z)
    : TcpPacket :=
  {| pk_srcIp := ip 192 168 0 1; pk_destIp := ip 192 168 13 37;
     pk_srcPort := 40000; pk_destPort := 5432;
     pk_seq := seq; pk_ack := ack; pk_flags := flags;
     pk_windowSize := None; pk_urgentPointer := None;
     pk_options := None; pk_data := data |}.

Definition flagsFin : TcpFlags :=
  mkTcpFlags false false false false false false false false true.

(** The state a computation of the socket monad leaves. *)
Definition stateAfter {A : Type} (m : TcpSocket.M A) (s : TcpSocket.t)
    : TcpSocket.t :=
  snd (m s).

(** The server socket listening; with a close callback, closed; and
    established by a handshake, with one write buffered before the ACK
    and one established callback. *)
Definition listeningSocket : TcpSocket.t :=
  stateAfter TcpSocket.listen serverSocket.

Definition closedSocket : TcpSocket.t :=
  stateAfter (TcpSocket.bind (TcpSocket.onClose 7)
                (fun _ => TcpSocket.close)) listeningSocket.

Definition synReceivedSocket : TcpSocket.t :=
  stateAfter (TcpSocket.process (peerPacket 7000 0 flagsSyn [])) listeningSocket.

Definition handshakenSocket : TcpSocket.t :=
  stateAfter
    (TcpSocket.bind (TcpSocket.write [104; 101; 108; 108; 111]) (fun _ =>
     TcpSocket.bind (TcpSocket.onEstablished 0) (fun _ =>
     TcpSocket.process (peerPacket 7001 123456701 flagsAck []))))
    synReceivedSocket.

Definition establishedSocket : TcpSocket.t :=
  stateAfter (TcpSocket.process (peerPacket 7001 123456701 flagsAck []))
    synReceivedSocket.

(** The established socket with a five-byte segment, seq 123456701,
    sent and not yet acknowledged. *)
Definition writingSocket : TcpSocket.t :=
  stateAfter (TcpSocket.write [104; 101; 108; 108; 111]) establishedSocket.

Definition helloSegment : TcpPacket :=
  packetOf establishedSocket 123456701 7001 flagsAck [104; 101; 108; 108; 111].

(** A client socket of the adapter's router towards the emulator's
    PostgreSQL port, and packets of its peer. *)
Definition clientSocket : TcpSocket.t :=
  TcpSocket.new false (ip 192 168 13 37) (ip 192 168 0 1) 50000 5432 123456789.

Definition serverPacket (seq ack : Z) (flags : TcpFlags) (data : list Z)
    : TcpPacket :=
  {| pk_srcIp := ip 192 168 0 1; pk_destIp := ip 192 168 13 37;
     pk_srcPort := 5432; pk_destPort := 50000;
     pk_seq := seq; pk_ack := ack; pk_flags := flags;
     pk_windowSize := None; pk_urgentPointer := None;
     pk_options := None; pk_data := data |}.

(** The established server socket with one data callback. *)
Definition readingSocket : TcpSocket.t :=
  stateAfter (TcpSocket.onData 3) establishedSocket.

(** The emulator's DHCPDISCOVER and DHCPREQUEST, broadcast from
    0.0.0.0:68. *)
Definition dhcpFromEmulator (messageType : Z) : DhcpData :=
  {| dhcp_srcIp := Ipv4Address.ZeroAddress;
     dhcp_destIp := Ipv4Address.BroadcastAddress;
     dhcp_srcPort := 68; dhcp_destPort := 67;
     dhcp_operation := 1; dhcp_hops := 0; dhcp_xid := 0x3903f326;
     dhcp_seconds := 0; dhcp_flags := 0;
     dhcp_clientIpAddress := Ipv4Address.ZeroAddress;
     dhcp_yourIpAddress := Ipv4Address.ZeroAddress;
     dhcp_serverIpAddress := Ipv4Address.ZeroAddress;
     dhcp_gatewayIpAddress := Ipv4Address.ZeroAddress;
     dhcp_serverName := None; dhcp_bootFileName := None;
     dhcp_options := [ {| opt_code := 53; opt_data := [messageType] |} ];
     dhcp_hardwareType := 1; dhcp_hardwareAddressLength := 6;
     dhcp_clientHardwareAddress := emulatorMac |}.

(** A checksum test that accepts the all-ones sum, and a packet from the
    adapter's router to the emulator. *)
Definition acceptsAllOnes (checksum : Z) : bool := checksum =? 0xffff.

Definition routerToEmulator : Ipv4Data :=
  {| ip_srcIp := ip 192 168 13 37; ip_destIp := ip 192 168 0 1;
     ip_protocol := 0x11; ip_payload := [0; 67; 0; 68; 0; 8; 0; 0];
     ip_dontFragment := true; ip_dscp := 0; ip_ecn := 0;
     ip_timeToLive := 64 |}.

(** A DHCP-port datagram from the router to the emulator whose words,
    pseudo-header included, add up to a multiple of [0xffff]. *)
Definition udpZeroSum : UdpData :=
  {| udp_srcIp := ip 192 168 13 37; udp_destIp := ip 192 168 0 1;
     udp_srcPort := 67; udp_destPort := 68; udp_payload := [112; 220] |}.

(* ===================================================================== *)
(** * Part II: theorems *)
(* ===================================================================== *)

Import JS.

(** ** 32-bit integers *)

Ltac Zify.zify_post_hook ::= Z.div_mod_to_equations.

Ltac pow_consts :=
  change (2 ^ 32) with 4294967296 in *;
  change (2 ^ 31) with 2147483648 in *.

Section Int32.

Lemma ToInt32_range x : int32 (ToInt32 x).
Proof. unfold int32, ToInt32; pow_consts; lia. Qed.

Lemma ToInt32_mod x : ToInt32 x mod 2 ^ 32 = x mod 2 ^ 32.
Proof. unfold ToInt32; pow_consts; lia. Qed.

Lemma ToInt32_id a : int32 a -> ToInt32 a = a.
Proof. unfold int32, ToInt32; pow_consts; lia. Qed.

Lemma mod32_ones a : a mod 2 ^ 32 = Z.land a (Z.ones 32).
Proof. now rewrite Z.land_ones by lia. Qed.

Lemma land_mod32 a b :
  Z.land a b mod 2 ^ 32 = Z.land (a mod 2 ^ 32) (b mod 2 ^ 32).
Proof.
  rewrite !mod32_ones. apply Z.bits_inj'. intros n _.
  rewrite !Z.land_spec. destruct (Z.testbit a n), (Z.testbit b n), (Z.testbit (Z.ones 32) n); reflexivity.
Qed.

Lemma lor_mod32 a b :
  Z.lor a b mod 2 ^ 32 = Z.lor (a mod 2 ^ 32) (b mod 2 ^ 32).
Proof.
  rewrite !mod32_ones. apply Z.bits_inj'. intros n _.
  rewrite ?Z.land_spec, ?Z.lor_spec, ?Z.land_spec.
  destruct (Z.testbit a n), (Z.testbit b n), (Z.testbit (Z.ones 32) n); reflexivity.
Qed.

Lemma lxor_mod32 a b :
  Z.lxor a b mod 2 ^ 32 = Z.lxor (a mod 2 ^ 32) (b mod 2 ^ 32).
Proof.
  rewrite !mod32_ones. apply Z.bits_inj'. intros n _.
  rewrite ?Z.land_spec, ?Z.lxor_spec, ?Z.land_spec.
  destruct (Z.testbit a n), (Z.testbit b n), (Z.testbit (Z.ones 32) n); reflexivity.
Qed.

Lemma int32_sign a : int32 a <-> (a / 2 ^ 31 = 0 \/ a / 2 ^ 31 = -1).
Proof. unfold int32; pow_consts; lia. Qed.

Lemma land_int32 a b : int32 a -> int32 b -> int32 (Z.land a b).
Proof.
  rewrite !int32_sign, <- !Z.shiftr_div_pow2, Z.shiftr_land by lia.
  intros [-> | ->] [-> | ->]; auto.
Qed.

Lemma lor_int32 a b : int32 a -> int32 b -> int32 (Z.lor a b).
Proof.
  rewrite !int32_sign, <- !Z.shiftr_div_pow2, Z.shiftr_lor by lia.
  intros [-> | ->] [-> | ->]; auto.
Qed.

Lemma lxor_int32 a b : int32 a -> int32 b -> int32 (Z.lxor a b).
Proof.
  rewrite !int32_sign, <- !Z.shiftr_div_pow2, Z.shiftr_lxor by lia.
  intros [-> | ->] [-> | ->]; auto.
Qed.

Lemma unsign_mod s : int32 s -> unsign s = s mod 2 ^ 32.
Proof. unfold int32, unsign; pow_consts. destruct (Z.ltb_spec s 0); lia. Qed.
End Int32.

(** ** IPv4 addresses and their integers *)

Section Addresses.
Import Ipv4Address.

Lemma octets_eq (a b c d a' b' c' d' : Z) :
  a = a' -> b = b' -> c = c' -> d = d' ->
  mk [a; b; c; d] = mk [a'; b'; c'; d'].
Proof. congruence. Qed.

Lemma band_0xff x : band x 0xff = x mod 256.
Proof.
  unfold band. change (ToInt32 0xff) with (Z.ones 8).
  rewrite Z.land_ones by lia. change (2 ^ 8) with 256.
  pose proof (ToInt32_mod x) as H. pow_consts. lia.
Qed.

Lemma fromInt_ofInt x : 0 <= x <= 0xffffffff -> fromInt x = Some (ofInt x).
Proof.
  intros Hx. unfold fromInt.
  destruct (Z.ltb_spec x 0); [lia |].
  destruct (Z.gtb_spec x 0xffffffff); [lia |].
  cbn [orb]. unfold new, Uint8Array. cbn [map length Nat.eqb negb].
  rewrite !band_0xff. unfold ofInt, ToUint8. f_equal.
  apply octets_eq; lia.
Qed.

Lemma toInt_octets a b c d :
  toInt (mk [a; b; c; d]) = ((a * 256 + b) * 256 + c) * 256 + d.
Proof. unfold toInt, reduce. cbn. lia. Qed.

Lemma toInt_ofInt x : 0 <= x <= 0xffffffff -> toInt (ofInt x) = x.
Proof. intros Hx. unfold ofInt. rewrite toInt_octets. lia. Qed.

Lemma wf_ofInt x : wf (ofInt x).
Proof.
  split; [reflexivity |]. unfold ofInt. cbn [bytes].
  repeat constructor; lia.
Qed.

Lemma wf_octets a : wf a ->
  exists b0 b1 b2 b3, a = mk [b0; b1; b2; b3]
    /\ 0 <= b0 < 256 /\ 0 <= b1 < 256 /\ 0 <= b2 < 256 /\ 0 <= b3 < 256.
Proof.
  destruct a as [l]. intros [Hlen Hall]. cbn [bytes] in *.
  destruct l as [|b0 [|b1 [|b2 [|b3 [|]]]]]; try discriminate.
  exists b0, b1, b2, b3.
  repeat match goal with H : Forall _ (_ :: _) |- _ => inversion_clear H end.
  auto 10.
Qed.

Lemma toInt_range a : wf a -> 0 <= toInt a <= 0xffffffff.
Proof.
  intros (b0 & b1 & b2 & b3 & -> & ?) %wf_octets. rewrite toInt_octets. lia.
Qed.

Lemma ofInt_toInt a : wf a -> ofInt (toInt a) = a.
Proof.
  intros (b0 & b1 & b2 & b3 & -> & ?) %wf_octets. rewrite toInt_octets.
  unfold ofInt. apply octets_eq; lia.
Qed.

Lemma toInt_inj a b : wf a -> wf b -> toInt a = toInt b -> a = b.
Proof.
  intros Ha Hb E. rewrite <- (ofInt_toInt a), <- (ofInt_toInt b) by assumption.
  now rewrite E.
Qed.

Lemma equals_true_iff a b : wf a -> wf b -> equals a b = true <-> a = b.
Proof.
  intros (a0 & a1 & a2 & a3 & -> & _) %wf_octets
         (b0 & b1 & b2 & b3 & -> & _) %wf_octets.
  unfold equals, every, index_is. cbn.
  rewrite !andb_true_iff, !Z.eqb_eq. split.
  - intros (-> & -> & -> & -> & _). reflexivity.
  - intros [= -> -> -> ->]. auto.
Qed.

Lemma equals_ofInt x y :
  0 <= x <= 0xffffffff -> 0 <= y <= 0xffffffff ->
  equals (ofInt x) (ofInt y) = bool_decide (x = y).
Proof.
  intros Hx Hy. apply eq_true_iff_eq.
  rewrite equals_true_iff by apply wf_ofInt.
  rewrite bool_decide_eq_true. split; [| now intros ->].
  intros E. rewrite <- (toInt_ofInt x), <- (toInt_ofInt y) by assumption.
  now rewrite E.
Qed.

(** The bitwise methods on well-formed addresses are the bitwise
    operations on their integers. *)
Lemma fromSignedInt_int32 s :
  int32 s -> _fromSignedInt s = Some (ofInt (s mod 2 ^ 32)).
Proof.
  intros Hs. unfold _fromSignedInt. fold (unsign s).
  rewrite unsign_mod by assumption. apply fromInt_ofInt. pow_consts. lia.
Qed.

Lemma bitAnd_ofInt a b : wf a -> wf b ->
  bitAnd a b = Some (ofInt (Z.land (toInt a) (toInt b))).
Proof.
  intros Ha %toInt_range Hb %toInt_range. unfold bitAnd, band.
  rewrite fromSignedInt_int32 by (apply land_int32; apply ToInt32_range).
  rewrite land_mod32, !ToInt32_mod.
  rewrite !Z.mod_small by (pow_consts; lia). reflexivity.
Qed.

Lemma bitOr_ofInt a b : wf a -> wf b ->
  bitOr a b = Some (ofInt (Z.lor (toInt a) (toInt b))).
Proof.
  intros Ha %toInt_range Hb %toInt_range. unfold bitOr, bor.
  rewrite fromSignedInt_int32 by (apply lor_int32; apply ToInt32_range).
  rewrite lor_mod32, !ToInt32_mod.
  rewrite !Z.mod_small by (pow_consts; lia). reflexivity.
Qed.

Lemma bitXor_ofInt a b : wf a -> wf b ->
  bitXor a b = Some (ofInt (Z.lxor (toInt a) (toInt b))).
Proof.
  intros Ha %toInt_range Hb %toInt_range. unfold bitXor, bxor.
  rewrite fromSignedInt_int32 by (apply lxor_int32; apply ToInt32_range).
  rewrite lxor_mod32, !ToInt32_mod.
  rewrite !Z.mod_small by (pow_consts; lia). reflexivity.
Qed.

Lemma bitNot_ofInt a : wf a ->
  bitNot a = Some (ofInt (0xffffffff - toInt a)).
Proof.
  intros Ha %toInt_range. unfold bitNot, band, bnot.
  change (ToInt32 0xffffffff) with (-1). rewrite Z.land_m1_r.
  pose proof (ToInt32_range (toInt a)) as Hr.
  pose proof (ToInt32_mod (toInt a)) as Hm.
  assert (Hn : int32 (Z.lnot (ToInt32 (toInt a)))).
  { unfold Z.lnot, int32 in *. pow_consts. lia. }
  rewrite (ToInt32_id _ Hn), fromSignedInt_int32 by assumption.
  f_equal. f_equal. unfold Z.lnot, int32 in *. pow_consts. lia.
Qed.

End Addresses.

(** ** The Internet checksum *)

Section Checksum.

Let F := fun (acc byte : Z) (index : nat) =>
  if Nat.even index then acc + byte * 256 else acc + byte.

Lemma internetChecksum_unfold data :
  internetChecksum data = foldCarries 2 (wordSum data).
Proof. reflexivity. Qed.

Lemma sum_from_acc l : forall i acc,
  reduce_from F i acc l = acc + reduce_from F i 0 l.
Proof.
  induction l as [|x l IH]; intros i acc; cbn [reduce_from]; [lia |].
  rewrite IH, (IH _ (F 0 x i)).
  change (F acc x i) with (if Nat.even i then acc + x * 256 else acc + x).
  change (F 0 x i) with (if Nat.even i then 0 + x * 256 else 0 + x).
  destruct (Nat.even i); lia.
Qed.

Lemma sum_from_parity l : forall i j acc,
  Nat.even i = Nat.even j ->
  reduce_from F i acc l = reduce_from F j acc l.
Proof.
  induction l as [|x l IH]; intros i j acc E; cbn [reduce_from]; [reflexivity |].
  unfold F at 2 4. rewrite E. apply IH.
  rewrite !Nat.even_succ, <- !Nat.negb_even. now rewrite E.
Qed.

Lemma sum_from_app l1 : forall l2 i acc,
  reduce_from F i acc (l1 ++ l2)
  = reduce_from F (i + length l1) (reduce_from F i acc l1) l2.
Proof.
  induction l1 as [|x l1 IH]; intros l2 i acc; cbn [reduce_from app length].
  - now rewrite Nat.add_0_r.
  - rewrite IH. f_equal. lia.
Qed.

Lemma wordSum_app_even l1 l2 :
  Nat.even (length l1) = true ->
  wordSum (l1 ++ l2) = wordSum l1 + wordSum l2.
Proof.
  intros E. unfold wordSum, reduce. fold F.
  rewrite sum_from_app, sum_from_acc.
  f_equal. apply sum_from_parity. cbn [Nat.add]. now rewrite E.
Qed.

Lemma sum_from_bound l : forall i,
  Forall isByte l ->
  0 <= reduce_from F i 0 l
    <= 65535 * (Z.of_nat (length l) / 2)
       + (if Nat.even i then 65280 else 255) * (Z.of_nat (length l) mod 2).
Proof.
  induction l as [|x l IH]; intros i Hb.
  - cbn. destruct (Nat.even i); lia.
  - inversion_clear Hb as [|? ? Hx Hl]. unfold isByte in Hx.
    cbn [reduce_from]. rewrite sum_from_acc.
    specialize (IH (S i) Hl). rewrite Nat.even_succ, <- Nat.negb_even in IH.
    cbn [length]. rewrite Nat2Z.inj_succ.
    change (F 0 x i) with (if Nat.even i then 0 + x * 256 else 0 + x).
    destruct (Nat.even i); cbn [negb] in IH; lia.
Qed.

Lemma wordSum_bound data :
  Forall isByte data -> Nat.even (length data) = true ->
  0 <= wordSum data <= 65535 * (Z.of_nat (length data) / 2).
Proof.
  intros Hb He. pose proof (sum_from_bound data 0%nat Hb) as H.
  fold F in H. unfold wordSum, reduce. fold F.
  apply Nat.even_spec in He. destruct He as [k Hk].
  rewrite Hk in *. cbn [Nat.even] in H. lia.
Qed.

(** The 32-bit operations of the loop body, on a sum below 2^31. *)
Lemma band_0xffff x : 0 <= x < 2 ^ 31 -> band x 0xffff = x mod 65536.
Proof.
  intros Hx. unfold band. rewrite (ToInt32_id x) by (unfold int32; lia).
  change (ToInt32 0xffff) with (Z.ones 16). now rewrite Z.land_ones by lia.
Qed.

Lemma shr_16 x : 0 <= x < 2 ^ 31 -> shr x 16 = x / 65536.
Proof.
  intros Hx. unfold shr. rewrite (ToInt32_id x) by (unfold int32; lia).
  change (16 mod 32) with 16. now rewrite Z.shiftr_div_pow2 by lia.
Qed.

(** Two turns of the loop fold any sum below 2^31 to the 16-bit ones'
    complement value it stands for. *)
Lemma foldCarries_spec x :
  0 <= x < 2 ^ 31 ->
  0 <= foldCarries 2 x <= 65535
  /\ (x - foldCarries 2 x) mod 65535 = 0
  /\ (foldCarries 2 x = 0 <-> x = 0).
Proof.
  intros Hx. cbn [foldCarries].
  rewrite band_0xffff, shr_16 by assumption.
  set (y := x mod 65536 + x / 65536).
  assert (Hy : 0 <= y < 2 ^ 31) by (subst y; pow_consts; lia).
  rewrite band_0xffff, shr_16 by assumption.
  destruct (Z.gtb_spec x 65535); [| lia].
  destruct (Z.gtb_spec y 65535); subst y; pow_consts; lia.
Qed.

(** The loop always leaves through its condition: after at most two
    turns the value is no longer above [0xffff], whatever the sum. *)
Lemma foldCarries_exits x : foldCarries 2 x <= 0xffff.
Proof.
  cbn [foldCarries]. unfold band, shr.
  change (ToInt32 0xffff) with (Z.ones 16). change (16 mod 32) with 16.
  rewrite !Z.land_ones, !Z.shiftr_div_pow2 by lia.
  pose proof (ToInt32_range x) as Hr. unfold int32 in Hr.
  set (y := ToInt32 x mod 2 ^ 16 + ToInt32 x / 2 ^ 16).
  assert (Hy : -32768 <= y <= 98302).
  { subst y. change (2 ^ 16) with 65536. pow_consts. lia. }
  destruct (Z.gtb_spec x 65535); [| lia].
  destruct (Z.gtb_spec y 65535); [| lia].
  rewrite (ToInt32_id y) by (unfold int32; pow_consts; lia).
  change (2 ^ 16) with 65536. lia.
Qed.

Lemma foldCarries_more_fuel n x : foldCarries (2 + n) x = foldCarries 2 x.
Proof.
  pose proof (foldCarries_exits x) as H. cbn [foldCarries Nat.add] in *.
  destruct (x >? 65535); [| reflexivity].
  destruct (_ >? 65535); [| reflexivity].
  destruct n; cbn [foldCarries]; [reflexivity |].
  destruct (Z.gtb_spec (band (band x 65535 + shr x 16) 65535
                        + shr (band x 65535 + shr x 16) 16) 65535);
    [lia | reflexivity].
Qed.

Lemma complementBytes_spec c :
  0 <= c <= 65535 ->
  complementBytes c = [(65535 - c) / 256; (65535 - c) mod 256].
Proof.
  intros Hc. unfold complementBytes. rewrite !band_0xff. unfold shr, bnot.
  rewrite (ToInt32_id c) by (unfold int32; pow_consts; lia).
  rewrite (ToInt32_id (Z.lnot c)) by (unfold int32, Z.lnot; pow_consts; lia).
  change (8 mod 32) with 8. rewrite Z.shiftr_div_pow2 by lia.
  unfold Z.lnot. change (2 ^ 8) with 256. f_equal; [lia |]. f_equal. lia.
Qed.

End Checksum.

(** C7, as the specification states it, fails on a sequence of odd length:
    the two appended bytes then sit across a word boundary, high byte in
    the low half of one word and low byte in the high half of the next. *)
Lemma internetChecksum_complement_odd_counterexample :
  internetChecksum ([1] ++ complementBytes (internetChecksum [1])) = 0xff
  /\ internetChecksum ([1] ++ complementBytes (internetChecksum [1])) <> 0xffff.
Proof. split; [vm_compute; reflexivity | vm_compute; discriminate]. Qed.

(** C7 (amended): for every byte sequence [B] of even length, of at most
    65534 bytes (so that the sum of its 16-bit words stays below 2^31,
    where the 32-bit operators of the folding loop are exact),
    [internetChecksum] of [B] followed by the two big-endian bytes of the
    16-bit complement of [internetChecksum B] is [0xffff]. *)
Theorem internetChecksum_complement_even (B : list Z) :
  Forall isByte B ->
  Nat.even (length B) = true ->
  Z.of_nat (length B) <= 65534 ->
  internetChecksum (B ++ complementBytes (internetChecksum B)) = 0xffff.
Proof.
  intros Hb He Hlen.
  pose proof (wordSum_bound B Hb He) as HS.
  assert (HS31 : 0 <= wordSum B < 2 ^ 31) by (pow_consts; lia).
  rewrite !internetChecksum_unfold.
  destruct (foldCarries_spec (wordSum B) HS31) as (Hc & Hmod & Hz).
  set (c := foldCarries 2 (wordSum B)) in *.
  rewrite complementBytes_spec by assumption.
  rewrite wordSum_app_even by assumption.
  set (T := wordSum B + wordSum [(65535 - c) / 256; (65535 - c) mod 256]).
  assert (HT : T = wordSum B + 65535 - c).
  { subst T. unfold wordSum, reduce. cbn. lia. }
  assert (HT31 : 0 < T < 2 ^ 31) by (pow_consts; lia).
  destruct (foldCarries_spec T) as (Hr & Hrmod & Hrz); [lia |].
  lia.
Qed.

Lemma internetChecksum_complement_even_witness :
  Forall isByte [1; 2; 3; 4]
  /\ Nat.even (length [1; 2; 3; 4]) = true
  /\ Z.of_nat (length [1; 2; 3; 4]) <= 65534
  /\ internetChecksum
       ([1; 2; 3; 4] ++ complementBytes (internetChecksum [1; 2; 3; 4]))
     = 0xffff.
Proof.
  assert (Hb : Forall isByte [1; 2; 3; 4])
    by (repeat constructor; unfold isByte; lia).
  assert (Hl : Z.of_nat (length [1; 2; 3; 4]) <= 65534) by (cbn; lia).
  split; [exact Hb |]. split; [reflexivity |]. split; [exact Hl |].
  exact (internetChecksum_complement_even [1; 2; 3; 4] Hb eq_refl Hl).
Defined.

(** ** UDP emission *)


(** C6: the code at a datagram whose checksum complement is zero.  The
    ones' complement sum over the pseudo-header and the message (checksum
    field at its placeholder) is [0xffff], and the checksum field that
    [onSendData] puts on the wire is [0x0000], not [0xffff]. *)
Theorem udp_onSendData_emits_zero_checksum :
  udpChecksum (udp_srcIp udpZeroSum) (udp_destIp udpZeroSum)
    [0; 67; 0; 68; 0; 10; 0xff; 0xff; 112; 220] = Some 0xffff
  /\ Z.land (Z.lnot 0xffff) 0xffff = 0
  /\ option_map ip_payload (Udp.onSendData udpZeroSum)
     = Some [0; 67; 0; 68; 0; 10; 0x00; 0x00; 112; 220]
  /\ option_map Udp.wireChecksum (Udp.onSendData udpZeroSum) = Some 0x0000.
Proof. repeat split; vm_compute; reflexivity. Qed.

(** ** Bounded iteration *)

Section LoopFacts.
Context {St R : Type} (body : St -> St + R).

Lemma iterNat_add n m s :
  iterNat body (n + m) s
  = match iterNat body n s with
    | inl s' => iterNat body m s'
    | inr r => inr r
    end.
Proof.
  revert s. induction n as [|n IH]; intros s; cbn [iterNat Nat.add].
  - reflexivity.
  - destruct (body s); [apply IH | reflexivity].
Qed.

Lemma iterPos_iterNat p s :
  iterPos body p s = iterNat body (Pos.to_nat p) s.
Proof.
  revert s. induction p as [p IH | p IH |]; intros s; cbn [iterPos].
  - rewrite Pos2Nat.inj_xI. cbn [iterNat]. destruct (body s) as [s' | r]; [| reflexivity].
    replace (2 * Pos.to_nat p)%nat with (Pos.to_nat p + Pos.to_nat p)%nat by lia.
    rewrite iterNat_add, IH. destruct (iterNat body (Pos.to_nat p) s'); [apply IH | reflexivity].
  - rewrite Pos2Nat.inj_xO.
    replace (2 * Pos.to_nat p)%nat with (Pos.to_nat p + Pos.to_nat p)%nat by lia.
    rewrite iterNat_add, IH. destruct (iterNat body (Pos.to_nat p) s); [apply IH | reflexivity].
  - change (Pos.to_nat 1) with 1%nat. cbn [iterNat].
    destruct (body s); reflexivity.
Qed.

(** A result, once reached, is the result for every larger bound. *)
Lemma iterNat_mono n m s r :
  iterNat body n s = inr r -> (n <= m)%nat -> iterNat body m s = inr r.
Proof.
  intros H Hle. replace m with (n + (m - n))%nat by lia.
  now rewrite iterNat_add, H.
Qed.
End LoopFacts.

(** ** The /16 mask on integers *)

Section Mask16.

Lemma land_disjoint_halves x :
  Z.land (Z.land x 0xffff0000) (Z.land x 0xffff) = 0.
Proof.
  apply Z.bits_inj'. intros n _. rewrite !Z.land_spec, Z.bits_0.
  assert (E : Z.testbit 0xffff0000 n && Z.testbit 0xffff n = false).
  { rewrite <- Z.land_spec. change (Z.land 0xffff0000 0xffff) with 0.
    apply Z.bits_0. }
  destruct (Z.testbit x n), (Z.testbit 0xffff0000 n), (Z.testbit 0xffff n);
    try reflexivity; discriminate.
Qed.

Lemma land_mask16 x :
  0 <= x <= 0xffffffff -> Z.land 0xffff0000 x = 65536 * (x / 65536).
Proof.
  intros Hx.
  assert (E : x = Z.land x 0xffff0000 + Z.land x 0xffff).
  { pose proof (Z.add_lor_land (Z.land x 0xffff0000) (Z.land x 0xffff)) as H.
    rewrite land_disjoint_halves, <- Z.land_lor_distr_r in H.
    change (Z.lor 0xffff0000 0xffff) with (Z.ones 32) in H.
    rewrite Z.land_ones, Z.mod_small in H by (pow_consts; lia). lia. }
  change 0xffff with (Z.ones 16) in E. rewrite Z.land_ones in E by lia.
  change (2 ^ 16) with 65536 in E. rewrite Z.land_comm. lia.
Qed.

Lemma lor_low16 k : Z.lor (65536 * k) 65535 = 65536 * k + 65535.
Proof.
  pose proof (Z.add_lor_land (65536 * k) 65535) as H.
  assert (E : Z.land (65536 * k) (Z.ones 16) = 0).
  { rewrite Z.land_ones by lia. change (2 ^ 16) with 65536. lia. }
  change (Z.ones 16) with 65535 in E. lia.
Qed.

Lemma land_u32 a b :
  0 <= a <= 0xffffffff -> 0 <= b <= 0xffffffff ->
  0 <= Z.land a b <= 0xffffffff.
Proof.
  intros Ha Hb. pose proof (land_mod32 a b) as H.
  rewrite (Z.mod_small a), (Z.mod_small b) in H by (pow_consts; lia).
  pose proof (Z.land_nonneg a b). pow_consts. lia.
Qed.

Lemma lor_u32 a b :
  0 <= a <= 0xffffffff -> 0 <= b <= 0xffffffff ->
  0 <= Z.lor a b <= 0xffffffff.
Proof.
  intros Ha Hb. pose proof (lor_mod32 a b) as H.
  rewrite (Z.mod_small a), (Z.mod_small b) in H by (pow_consts; lia).
  pose proof (Z.lor_nonneg a b). pow_consts. lia.
Qed.

Lemma lxor_u32 a b :
  0 <= a <= 0xffffffff -> 0 <= b <= 0xffffffff ->
  0 <= Z.lxor a b <= 0xffffffff.
Proof.
  intros Ha Hb. pose proof (lxor_mod32 a b) as H.
  rewrite (Z.mod_small a), (Z.mod_small b) in H by (pow_consts; lia).
  pose proof (Z.lxor_nonneg a b). pow_consts. lia.
Qed.

End Mask16.

(** ** The router: IP allocation *)

Section NextFreeIp.
Import Ipv4Address.

Variable r : Router.t.
Hypothesis Hmask_wf : wf (Router.subnetMask r).
Hypothesis Hip_wf : wf (Router.ip r).

(** The mask, the network address and the broadcast address as
    integers. *)
Let M := toInt (Router.subnetMask r).
Let N := Z.land M (toInt (Router.ip r)).
Let B := Z.lor N (0xffffffff - M).

Let assignedInt (x : Z) : bool :=
  bool_decide (is_Some (Router._addressTable r !! x)).

(** One turn of the loop, on integers. *)
Let bodyZ (cur : Z) : Z + option (option Ipv4Address.t) :=
  if negb (cur <=? 0xffffffff) then inr (Some None)
  else
    let d := Z.lxor N (Z.land M cur) in
    if negb (bool_decide (d = 0)) then inl (cur + d)
    else if negb (bool_decide (N = cur) || (bool_decide (B = cur) || false))
            && negb (assignedInt cur)
    then inr (Some (Some (ofInt cur)))
    else inl (cur + 1).

Lemma M_range : 0 <= M <= 0xffffffff.
Proof. apply toInt_range, Hmask_wf. Qed.

Lemma N_range : 0 <= N <= 0xffffffff.
Proof. apply land_u32; [apply M_range | apply toInt_range, Hip_wf]. Qed.

Lemma B_range : 0 <= B <= 0xffffffff.
Proof. pose proof M_range. apply lor_u32; [apply N_range | lia]. Qed.

Lemma subnet_ofInt : Router.subnet r = Some (ofInt N).
Proof. unfold Router.subnet. now rewrite bitAnd_ofInt. Qed.

Lemma broadcast_ofInt :
  exists notMask,
    bitNot (Router.subnetMask r) = Some notMask
    /\ bitOr (ofInt N) notMask = Some (ofInt B).
Proof.
  pose proof M_range. pose proof N_range.
  eexists. split; [apply bitNot_ofInt, Hmask_wf |].
  rewrite bitOr_ofInt by apply wf_ofInt.
  rewrite !toInt_ofInt by (fold M; lia). reflexivity.
Qed.

Lemma nextFreeIpBody_bodyZ cur :
  0 <= cur ->
  Router.nextFreeIpBody r [ofInt N; ofInt B] cur = bodyZ cur.
Proof.
  intros Hcur. pose proof M_range. pose proof N_range. pose proof B_range.
  unfold Router.nextFreeIpBody, bodyZ.
  destruct (Z.leb_spec cur 0xffffffff) as [Hle | Hgt]; cbn [negb]; [| reflexivity].
  assert (Hl : 0 <= Z.land M cur <= 0xffffffff) by (apply land_u32; lia).
  assert (Hd : 0 <= Z.lxor N (Z.land M cur) <= 0xffffffff)
    by (apply lxor_u32; lia).
  rewrite fromInt_ofInt, subnet_ofInt by lia.
  rewrite bitAnd_ofInt by (auto using wf_ofInt).
  rewrite (toInt_ofInt cur) by lia. fold M.
  rewrite bitXor_ofInt by apply wf_ofInt.
  rewrite (toInt_ofInt N), (toInt_ofInt (Z.land M cur)) by lia.
  change ZeroAddress with (ofInt 0).
  rewrite equals_ofInt by lia.
  rewrite toInt_ofInt by lia.
  cbn [existsb]. rewrite !equals_ofInt by lia.
  unfold Router.isIpAssigned. rewrite toInt_ofInt by lia.
  reflexivity.
Qed.

Lemma bodyZ_progress cur cur' :
  0 <= cur -> bodyZ cur = inl cur' -> cur < cur' /\ cur <= 0xffffffff.
Proof.
  intros Hcur. pose proof M_range. pose proof N_range.
  assert (Hd : 0 <= Z.lxor N (Z.land M cur)).
  { apply Z.lxor_nonneg. pose proof (Z.land_nonneg M cur). lia. }
  unfold bodyZ.
  destruct (Z.leb_spec cur 0xffffffff); cbn [negb]; [| discriminate].
  case_bool_decide; cbn [negb].
  - destruct (_ && _); [discriminate |]. intros [= <-]. lia.
  - intros [= <-]. lia.
Qed.

Lemma iterNat_bodyZ n : forall cur,
  0 <= cur ->
  iterNat (Router.nextFreeIpBody r [ofInt N; ofInt B]) n cur
  = iterNat bodyZ n cur.
Proof.
  induction n as [|n IH]; intros cur Hcur; cbn [iterNat]; [reflexivity |].
  rewrite nextFreeIpBody_bodyZ by assumption.
  destruct (bodyZ cur) as [cur' |] eqn:E; [| reflexivity].
  apply IH. apply bodyZ_progress in E; lia.
Qed.

(** The loop returns: every turn raises the counter. *)
Lemma bodyZ_returns n : forall cur,
  0 <= cur -> (1 <= n)%nat -> 0x100000000 - cur < Z.of_nat n ->
  exists res, iterNat bodyZ n cur = inr res.
Proof.
  induction n as [|n IH]; intros cur Hcur Hn Hfuel; [lia |].
  cbn [iterNat]. destruct (bodyZ cur) as [cur' | res] eqn:E; [| eauto].
  apply bodyZ_progress in E; [| assumption].
  apply IH; lia.
Qed.

Lemma bodyZ_no_throw n : forall cur, iterNat bodyZ n cur <> inr None.
Proof.
  induction n as [|n IH]; intros cur; cbn [iterNat]; [discriminate |].
  destruct (bodyZ cur) as [cur' | res] eqn:E; [apply IH |].
  unfold bodyZ in E.
  repeat match type of E with
         | (if ?c then _ else _) = _ => destruct c
         end; congruence.
Qed.

(** What is returned is in the subnet, not special, and free. *)
Lemma bodyZ_sound n : forall cur a,
  0 <= cur ->
  iterNat bodyZ n cur = inr (Some (Some a)) ->
  exists x, cur <= x <= 0xffffffff /\ a = ofInt x
    /\ Z.land M x = N /\ x <> N /\ x <> B /\ assignedInt x = false.
Proof.
  induction n as [|n IH]; intros cur a Hcur; cbn [iterNat]; [discriminate |].
  destruct (bodyZ cur) as [cur' | res] eqn:E.
  - intros H. pose proof (bodyZ_progress _ _ Hcur E).
    destruct (IH cur' a ltac:(lia) H) as (x & ? & ?). exists x. split; [lia | assumption].
  - intros [= ->]. unfold bodyZ in E.
    destruct (Z.leb_spec cur 0xffffffff); cbn [negb] in E; [| discriminate].
    case_bool_decide as Hd; cbn [negb] in E; [| discriminate].
    destruct (_ && _) eqn:Hc; [| discriminate].
    injection E as <-.
    apply andb_true_iff in Hc as [Hs Ha].
    rewrite negb_true_iff, !orb_false_iff, !bool_decide_eq_false in Hs.
    rewrite negb_true_iff in Ha.
    apply Z.lxor_eq in Hd.
    exists cur. repeat split; try lia; try tauto; intuition congruence.
Qed.

(** With the mask 255.255.0.0, the loop passes no address of the
    subnet by: when it returns [null], every address of the subnet that
    is not special is assigned. *)
Hypothesis Hmask16 : Router.subnetMask r = mask16.

Lemma bodyZ_complete n : forall cur,
  0 <= cur -> cur = 0 \/ N <= cur ->
  iterNat bodyZ n cur = inr (Some None) ->
  forall x, cur <= x <= 0xffffffff -> Z.land M x = N ->
    x = N \/ x = B \/ assignedInt x = true.
Proof.
  assert (HM : M = 0xffff0000) by (unfold M; now rewrite Hmask16).
  pose proof N_range as HN.
  assert (HNk : N = 65536 * (toInt (Router.ip r) / 65536)).
  { unfold N. rewrite HM. apply land_mask16, toInt_range, Hip_wf. }
  induction n as [|n IH]; intros cur Hcur Hinv; cbn [iterNat]; [discriminate |].
  destruct (bodyZ cur) as [cur' | res] eqn:E.
  - intros Hres x Hx Hsub.
    destruct (Z.lt_ge_cases x cur') as [Hlt | Hge].
    + (* x lies between the old and the new counter *)
      unfold bodyZ in E.
      destruct (Z.leb_spec cur 0xffffffff); cbn [negb] in E; [| discriminate].
      rewrite HM in Hsub. rewrite land_mask16 in Hsub by lia.
      case_bool_decide as Hd; cbn [negb] in E.
      * destruct (_ && _) eqn:Hc; [discriminate |]. injection E as <-.
        assert (x = cur) by lia. subst x.
        apply andb_false_iff in Hc as [Hs | Ha].
        -- rewrite negb_false_iff, !orb_true_iff, !bool_decide_eq_true in Hs.
           intuition congruence.
        -- rewrite negb_false_iff in Ha. auto.
      * injection E as <-. exfalso.
        destruct Hinv as [-> | Hinv].
        -- rewrite Z.land_0_r, Z.lxor_0_r in Hlt, Hd. lia.
        -- rewrite HM, land_mask16 in Hd by lia.
           assert (Hne : 65536 * (cur / 65536) <> N)
             by (intros Heq; apply Hd; rewrite Heq; apply Z.lxor_nilpotent).
           lia.
    + apply (IH cur'); try assumption; try lia.
      * apply bodyZ_progress in E; lia.
      * right. unfold bodyZ in E.
        destruct (Z.leb_spec cur 0xffffffff); cbn [negb] in E; [| discriminate].
        case_bool_decide as Hd; cbn [negb] in E.
        -- destruct (_ && _); [discriminate |]. injection E as <-.
           apply Z.lxor_eq in Hd. rewrite HM, land_mask16 in Hd by lia. lia.
        -- injection E as <-.
           assert (0 <= Z.lxor N (Z.land M cur)).
           { apply Z.lxor_nonneg. pose proof (Z.land_nonneg M cur). lia. }
           destruct Hinv as [-> | Hinv]; [| lia].
           rewrite Z.land_0_r, Z.lxor_0_r. lia.
  - intros [= ->] x Hx Hsub. unfold bodyZ in E.
    destruct (Z.leb_spec cur 0xffffffff); cbn [negb] in E; [| lia].
    repeat match type of E with
           | (if ?c then _ else _) = _ => destruct c
           end; discriminate.
Qed.

Lemma getNextFreeIp_int :
  exists res, Router._getNextFreeIp r = Some res
    /\ (forall a, res = Some a ->
          exists x, 0 <= x <= 0xffffffff /\ a = ofInt x
            /\ Z.land M x = N /\ x <> N /\ x <> B /\ assignedInt x = false)
    /\ (res = None ->
          forall x, 0 <= x <= 0xffffffff -> Z.land M x = N ->
            x = N \/ x = B \/ assignedInt x = true).
Proof.
  unfold Router._getNextFreeIp. rewrite subnet_ofInt.
  destruct broadcast_ofInt as (notMask & -> & ->).
  rewrite iterPos_iterNat, iterNat_bodyZ by lia.
  destruct (bodyZ_returns (Pos.to_nat Router.loopBound) 0) as [res Hres];
    [lia | pose proof (Pos2Nat.is_pos Router.loopBound); lia
     | unfold Router.loopBound; lia |].
  rewrite Hres. destruct res as [res |]; [| now apply bodyZ_no_throw in Hres].
  exists res. split; [reflexivity |]. split.
  - intros a ->. destruct (bodyZ_sound _ 0 _ ltac:(lia) Hres) as (x & ? & ?).
    exists x. split; [lia | assumption].
  - intros ->. intros x Hx.
    apply (bodyZ_complete (Pos.to_nat Router.loopBound) 0); auto; lia.
Qed.

(** The statements' vocabulary, on integers. *)
Lemma ofInt_inj x y :
  0 <= x <= 0xffffffff -> 0 <= y <= 0xffffffff -> ofInt x = ofInt y -> x = y.
Proof.
  intros Hx Hy E. rewrite <- (toInt_ofInt x), <- (toInt_ofInt y) by assumption.
  now rewrite E.
Qed.

Lemma inSubnet_int a : wf a -> inSubnet r a <-> Z.land M (toInt a) = N.
Proof.
  intros Ha. unfold inSubnet. rewrite subnet_ofInt, bitAnd_ofInt by assumption.
  fold M. pose proof M_range. pose proof N_range. pose proof (toInt_range a Ha).
  split.
  - intros E. apply ofInt_inj; [apply land_u32; lia | lia | congruence].
  - now intros ->.
Qed.

Lemma isNetworkAddress_int a : isNetworkAddress r a <-> a = ofInt N.
Proof.
  unfold isNetworkAddress. rewrite subnet_ofInt.
  split; [congruence | now intros ->].
Qed.

Lemma isBroadcastAddress_int a : isBroadcastAddress r a <-> a = ofInt B.
Proof.
  unfold isBroadcastAddress. rewrite subnet_ofInt.
  destruct broadcast_ofInt as (notMask & Hn & Hb). split.
  - intros (z & n & [= <-] & Hn' & Hb'). congruence.
  - intros ->. eauto.
Qed.

Lemma allocatable_int a :
  allocatable r a <->
  exists x, 0 <= x <= 0xffffffff /\ a = ofInt x
    /\ Z.land M x = N /\ x <> N /\ x <> B.
Proof.
  pose proof N_range. pose proof B_range.
  unfold allocatable. rewrite isNetworkAddress_int, isBroadcastAddress_int.
  split.
  - intros (Ha & Hs & Hn & Hb). apply inSubnet_int in Hs; [| assumption].
    exists (toInt a). pose proof (toInt_range a Ha).
    rewrite ofInt_toInt by assumption.
    repeat split; try lia; try assumption.
    + intros E. apply Hn. rewrite <- E. now rewrite ofInt_toInt.
    + intros E. apply Hb. rewrite <- E. now rewrite ofInt_toInt.
  - intros (x & Hx & -> & Hs & Hn & Hb).
    split; [apply wf_ofInt |]. split.
    + apply inSubnet_int; [apply wf_ofInt |]. now rewrite toInt_ofInt.
    + split; intros E; apply ofInt_inj in E; auto.
Qed.

(** [registerDevice] on a router with the mask 255.255.0.0. *)
Lemma registerDevice_spec mac0 :
  (exists res, Router.registerDevice r mac0 = Some res)
  /\ (forall d r', Router.registerDevice r mac0 = Some (Some d, r') ->
        d = {| dev_mac := mac0; dev_ip := dev_ip d; dev_isConfirmed := false |}
        /\ r' = Router._registerDevice r d
        /\ allocatable r (dev_ip d)
        /\ Router.isIpAssigned r (dev_ip d) = false)
  /\ ((exists r', Router.registerDevice r mac0 = Some (None, r'))
      <-> forall a, allocatable r a -> Router.isIpAssigned r a = true).
Proof.
  unfold Router.registerDevice.
  destruct getNextFreeIp_int as (res & -> & Hsome & Hnone).
  split; [destruct res; eauto |]. split.
  - intros d r'. destruct res as [a |]; [| discriminate].
    intros [= <- <-]. cbn [dev_ip].
    split; [reflexivity |]. split; [reflexivity |]. split.
    + apply allocatable_int.
      destruct (Hsome a eq_refl) as (x & ? & ? & ? & ? & ? & ?). eauto 10.
    + destruct (Hsome a eq_refl) as (x & ? & -> & ? & ? & ? & Ha).
      unfold Router.isIpAssigned. now rewrite toInt_ofInt.
  - split.
    + intros [r' H]. destruct res as [a |]; [discriminate |].
      intros a (x & Hx & -> & Hs & Hn & Hb) %allocatable_int.
      unfold Router.isIpAssigned. rewrite toInt_ofInt by assumption.
      destruct (Hnone eq_refl x Hx Hs) as [? | [? | ?]]; [lia | lia | assumption].
    + intros Hfull. destruct res as [a |]; [| eauto].
      exfalso. destruct (Hsome a eq_refl) as (x & Hx & -> & Hs & Hn & Hb & Ha).
      assert (Hal : allocatable r (ofInt x)) by (apply allocatable_int; eauto 10).
      apply Hfull in Hal. unfold Router.isIpAssigned in Hal.
      rewrite toInt_ofInt in Hal by assumption. fold (assignedInt x) in Hal.
      congruence.
Qed.




End NextFreeIp.

(** ** MAC addresses as keys of the device table *)

Section MacKeys.

Lemma hexValue_hexDigit d : 0 <= d < 16 -> hexValue (MacAddress.hexDigit d) = d.
Proof.
  intros Hd.
  assert (d = 0 \/ d = 1 \/ d = 2 \/ d = 3 \/ d = 4 \/ d = 5 \/ d = 6
          \/ d = 7 \/ d = 8 \/ d = 9 \/ d = 10 \/ d = 11 \/ d = 12
          \/ d = 13 \/ d = 14 \/ d = 15) as H by lia.
  repeat (destruct H as [-> | H]; [reflexivity |]). now subst.
Qed.

Lemma hexByte_inj a b :
  isByte a -> isByte b -> MacAddress.hexByte a = MacAddress.hexByte b -> a = b.
Proof.
  unfold isByte, MacAddress.hexByte. intros Ha Hb [= E1 E2].
  apply (f_equal hexValue) in E1, E2.
  rewrite !hexValue_hexDigit in E1, E2 by lia. lia.
Qed.

Lemma mac_octets a : MacAddress.wf a ->
  exists b0 b1 b2 b3 b4 b5, a = MacAddress.mk [b0; b1; b2; b3; b4; b5]
    /\ isByte b0 /\ isByte b1 /\ isByte b2
    /\ isByte b3 /\ isByte b4 /\ isByte b5.
Proof.
  destruct a as [l]. intros [Hlen Hall]. cbn in Hlen, Hall.
  do 7 (destruct l as [|? l]; try discriminate).
  do 6 eexists. split; [reflexivity |].
  repeat (apply Forall_cons in Hall; destruct Hall as [? Hall]).
  unfold isByte. tauto.
Qed.

Lemma mac_toString_inj a b :
  MacAddress.wf a -> MacAddress.wf b ->
  MacAddress.toString a = MacAddress.toString b -> a = b.
Proof.
  intros (a0 & a1 & a2 & a3 & a4 & a5 & -> & ? & ? & ? & ? & ? & ?) %mac_octets
         (b0 & b1 & b2 & b3 & b4 & b5 & -> & ? & ? & ? & ? & ? & ?) %mac_octets.
  unfold MacAddress.toString. cbn [map MacAddress.bytes MacAddress.join].
  unfold MacAddress.hexByte. cbn [String.append].
  intros [= E0 E0' E1 E1' E2 E2' E3 E3' E4 E4' E5 E5'].
  f_equal. repeat f_equal; apply hexByte_inj; auto;
    unfold MacAddress.hexByte; congruence.
Qed.

End MacKeys.

(** ** The router: the device table across calls *)

Section RouterTable.
Variables (mac0 : MacAddress.t) (ip0 : Ipv4Address.t).
Hypothesis Hip0 : Ipv4Address.wf ip0.

Lemma wf_mask16 : Ipv4Address.wf mask16.
Proof. split; [reflexivity |]. repeat constructor; lia. Qed.

Lemma RouterInv_new : RouterInv mac0 ip0 (Router.new mac0 ip0 mask16).
Proof.
  split; [reflexivity |]. split; [reflexivity |]. split; [reflexivity |].
  intros k d. unfold Router.new.
  cbn [Router._registerDevice Router._devices Router._addressTable
       dev_mac dev_ip].
  intros [[<- <-] | [_ H]] %lookup_insert_Some;
    [| now rewrite lookup_empty in H].
  cbn [dev_mac dev_ip].
  split; [reflexivity |]. split; [apply lookup_insert_eq | now left].
Qed.

Lemma RouterInv_registerDevice r d :
  RouterInv mac0 ip0 r ->
  allocatable r (dev_ip d) ->
  Router.isIpAssigned r (dev_ip d) = false ->
  RouterInv mac0 ip0 (Router._registerDevice r d).
Proof.
  intros (Hm & Hi & Hk & Hdev) Hal Hfree.
  split; [exact Hm |]. split; [exact Hi |]. split; [exact Hk |].
  intros k d'. cbn [Router._registerDevice Router._devices Router._addressTable].
  intros [[<- <-] | [Hne Hd']] %lookup_insert_Some.
  - split; [reflexivity |]. split; [apply lookup_insert_eq | now right].
  - destruct (Hdev k d' Hd') as (Hkey & Htab & Hip).
    split; [exact Hkey |]. split; [| exact Hip].
    rewrite lookup_insert_ne; [exact Htab |].
    intros E. unfold Router.isIpAssigned in Hfree.
    rewrite E, Htab in Hfree. apply bool_decide_eq_false in Hfree.
    apply Hfree. eauto.
Qed.

Lemma registerDevice_undefined r mac r' :
  Router.registerDevice r mac = Some (None, r') -> r' = r.
Proof.
  unfold Router.registerDevice.
  destruct (Router._getNextFreeIp r) as [[a |] |]; congruence.
Qed.

Lemma RouterInv_call r c res r' :
  RouterInv mac0 ip0 r -> runCall r c = Some (res, r') ->
  RouterInv mac0 ip0 r'.
Proof.
  intros Hinv Hcall.
  assert (Hreg : forall mac, Router.registerDevice r mac = Some (res, r') ->
                   RouterInv mac0 ip0 r').
  { intros mac Hr. destruct Hinv as (Hm & Hi & Hk & Hdev).
    destruct res as [d |].
    - destruct (registerDevice_spec r) with (mac0 := mac)
        as (_ & Hsome & _);
        [rewrite Hk; apply wf_mask16 | now rewrite Hi | exact Hk |].
      destruct (Hsome d r' Hr) as (_ & -> & Hal & Hfree).
      apply RouterInv_registerDevice;
        [exact (conj Hm (conj Hi (conj Hk Hdev))) | assumption ..].
    - apply registerDevice_undefined in Hr as ->.
      exact (conj Hm (conj Hi (conj Hk Hdev))). }
  destruct c as [mac | mac]; cbn [runCall] in Hcall; [eauto |].
  unfold Router.getOrRegisterDevice in Hcall.
  destruct (Router.getDeviceByMac r mac); [| eauto].
  now injection Hcall as <- <-.
Qed.

Lemma RouterInv_reachable r :
  reachable (Router.new mac0 ip0 mask16) r -> RouterInv mac0 ip0 r.
Proof.
  induction 1 as [| r c res r' _ IH Hcall]; [apply RouterInv_new |].
  eapply RouterInv_call; eassumption.
Qed.

Lemma reachable_trans r0 r1 r2 :
  reachable r0 r1 -> reachable r1 r2 -> reachable r0 r2.
Proof.
  intros H01 H12. induction H12 as [| r c res r' _ IH Hcall]; [exact H01 |].
  eapply reachable_call; eassumption.
Qed.

Lemma registerDevice_facts r mac d r' :
  RouterInv mac0 ip0 r ->
  Router.registerDevice r mac = Some (Some d, r') ->
  dev_mac d = mac /\ dev_isConfirmed d = false
  /\ r' = Router._registerDevice r d
  /\ allocatable r (dev_ip d)
  /\ Router._addressTable r !! Ipv4Address.toInt (dev_ip d) = None.
Proof.
  intros (Hm & Hi & Hk & Hdev) Hreg.
  destruct (registerDevice_spec r ltac:(rewrite Hk; apply wf_mask16)
              ltac:(now rewrite Hi) Hk mac) as (_ & Hsome & _).
  destruct (Hsome d r' Hreg) as (Hd & -> & Hal & Hfree).
  rewrite Hd. cbn [dev_mac dev_isConfirmed dev_ip].
  split; [reflexivity |]. split; [reflexivity |].
  split; [now rewrite <- Hd |]. split; [exact Hal |].
  unfold Router.isIpAssigned in Hfree.
  apply bool_decide_eq_false in Hfree.
  now apply eq_None_not_Some.
Qed.

Lemma addressTable_call r c res r' :
  RouterInv mac0 ip0 r -> runCall r c = Some (res, r') ->
  forall x m, Router._addressTable r !! x = Some m ->
              Router._addressTable r' !! x = Some m.
Proof.
  intros Hinv Hcall x m Hx.
  assert (Hreg : forall mac, Router.registerDevice r mac = Some (res, r') ->
                   Router._addressTable r' !! x = Some m).
  { intros mac Hr. destruct res as [d |].
    - destruct (registerDevice_facts r mac d r' Hinv Hr)
        as (_ & _ & -> & _ & Hfree).
      cbn [Router._registerDevice Router._addressTable].
      rewrite lookup_insert_ne; [exact Hx | congruence].
    - now rewrite (registerDevice_undefined _ _ _ Hr). }
  destruct c as [mac | mac]; cbn [runCall] in Hcall; [now apply (Hreg mac) |].
  unfold Router.getOrRegisterDevice in Hcall.
  destruct (Router.getDeviceByMac r mac); [| now apply (Hreg mac)].
  now injection Hcall as _ <-.
Qed.

(** Whatever a call returns is on record afterwards: under the MAC
    asked for, as the key of the device table reads it, and in the
    address table. *)
Lemma call_records r c d r' :
  RouterInv mac0 ip0 r -> runCall r c = Some (Some d, r') ->
  Router.getDeviceByMac r' (callMac c) = Some d
  /\ MacAddress.toString (dev_mac d) = MacAddress.toString (callMac c)
  /\ Router._addressTable r' !! Ipv4Address.toInt (dev_ip d)
     = Some (dev_mac d).
Proof.
  intros Hinv Hcall.
  assert (Hrec : Router.getDeviceByMac r' (callMac c) = Some d).
  { assert (Hreg : forall mac, Router.registerDevice r mac = Some (Some d, r') ->
                     Router.getDeviceByMac r' mac = Some d).
    { intros mac. unfold Router.registerDevice.
      destruct (Router._getNextFreeIp r) as [[a |] |]; try discriminate.
      intros [= <- <-]. unfold Router.getDeviceByMac.
      cbn [Router._registerDevice Router._devices dev_mac].
      apply lookup_insert_eq. }
    destruct c as [mac | mac]; cbn [runCall callMac] in *; [auto |].
    unfold Router.getOrRegisterDevice in Hcall.
    destruct (Router.getDeviceByMac r mac) as [d0 |] eqn:Hfound; [| auto].
    now injection Hcall as <- <-. }
  split; [exact Hrec |].
  destruct (RouterInv_call r c (Some d) r' Hinv Hcall) as (_ & _ & _ & Hdev).
  destruct (Hdev _ d Hrec) as (Hkey & Htab & _).
  split; [now symmetry | exact Htab].
Qed.

Lemma addressTable_reachable r r' :
  reachable (Router.new mac0 ip0 mask16) r -> reachable r r' ->
  forall x m, Router._addressTable r !! x = Some m ->
              Router._addressTable r' !! x = Some m.
Proof.
  intros Hr Hrr' x m Hx.
  induction Hrr' as [| r1 c res r2 Hr1 IH Hcall]; [exact Hx |].
  eapply addressTable_call; [| exact Hcall | exact IH].
  apply RouterInv_reachable. eapply reachable_trans; eassumption.
Qed.

End RouterTable.

(** C8: on a router with the subnet mask 255.255.0.0, after any sequence
    of [registerDevice] and [getOrRegisterDevice] calls,
    - no call throws;
    - an IP that [registerDevice] allocates was free, lies in the router's
      subnet and is neither the network address nor the all-ones broadcast
      address, and the same holds of the IP of every device in the table
      other than the router's own;
    - two devices of the table with the same IP have the same MAC;
    - [registerDevice] returns [undefined] exactly when every address of
      the subnet that is neither the network address nor the broadcast
      address is assigned;
    - the device that a call returns is on record after the call: it is
      the device under the MAC asked for, its IP is assigned to its MAC,
      and every earlier entry of the address table is still there;
    - [getOrRegisterDevice] returns the device on record under the MAC,
      leaving the router as it is, and is [registerDevice] when there is
      none;
    - no two distinct MACs are assigned the same IP: a device that a call
      returns for one MAC and a device that any later call returns for
      another MAC have different IPs. *)
Theorem router_ip_allocation (mac0 : MacAddress.t) (ip0 : Ipv4Address.t)
    (r : Router.t) :
  Ipv4Address.wf ip0 ->
  reachable (Router.new mac0 ip0 mask16) r ->
  (forall c, exists res r', runCall r c = Some (res, r'))
  /\ (forall mac d r',
        Router.registerDevice r mac = Some (Some d, r') ->
        dev_mac d = mac /\ dev_isConfirmed d = false
        /\ Router.isIpAssigned r (dev_ip d) = false
        /\ inSubnet r (dev_ip d)
        /\ ~ isNetworkAddress r (dev_ip d)
        /\ ~ isBroadcastAddress r (dev_ip d))
  /\ (forall k d,
        Router._devices r !! k = Some d ->
        dev_ip d = Router.ip r
        \/ (inSubnet r (dev_ip d)
            /\ ~ isNetworkAddress r (dev_ip d)
            /\ ~ isBroadcastAddress r (dev_ip d)))
  /\ (forall k1 k2 d1 d2,
        Router._devices r !! k1 = Some d1 ->
        Router._devices r !! k2 = Some d2 ->
        dev_ip d1 = dev_ip d2 -> dev_mac d1 = dev_mac d2)
  /\ (forall mac,
        Router.registerDevice r mac = Some (None, r)
        <-> (forall a, Ipv4Address.wf a -> inSubnet r a ->
               ~ isNetworkAddress r a -> ~ isBroadcastAddress r a ->
               Router.isIpAssigned r a = true))
  /\ (forall c d r',
        runCall r c = Some (Some d, r') ->
        Router.getDeviceByMac r' (callMac c) = Some d
        /\ MacAddress.toString (dev_mac d) = MacAddress.toString (callMac c)
        /\ Router._addressTable r' !! Ipv4Address.toInt (dev_ip d)
           = Some (dev_mac d)
        /\ Router.isIpAssigned r' (dev_ip d) = true
        /\ Router.getDeviceByIp r' (dev_ip d) = Some d
        /\ (forall x m, Router._addressTable r !! x = Some m ->
                        Router._addressTable r' !! x = Some m))
  /\ (forall mac,
        match Router.getDeviceByMac r mac with
        | Some d => Router.getOrRegisterDevice r mac = Some (Some d, r)
        | None =>
            Router.getOrRegisterDevice r mac = Router.registerDevice r mac
        end)
  /\ (forall c1 d1 r1 r2 c2 d2 r3,
        runCall r c1 = Some (Some d1, r1) ->
        reachable r1 r2 ->
        runCall r2 c2 = Some (Some d2, r3) ->
        MacAddress.wf (callMac c1) -> MacAddress.wf (callMac c2) ->
        callMac c1 <> callMac c2 ->
        dev_ip d1 <> dev_ip d2).
Proof.
  intros Hip0 Hreach.
  pose proof (RouterInv_reachable mac0 ip0 Hip0 r Hreach) as Hinv.
  destruct Hinv as (Hm & Hi & Hk & Hdev).
  assert (Hinv : RouterInv mac0 ip0 r)
    by exact (conj Hm (conj Hi (conj Hk Hdev))).
  assert (Hspec := fun mac => registerDevice_spec r
            ltac:(rewrite Hk; apply wf_mask16) ltac:(now rewrite Hi) Hk mac).
  split; [| split; [| split; [| split; [| split; [| split; [| split]]]]]].
  - intros [mac | mac]; cbn [runCall].
    + destruct (Hspec mac) as ([[res r'] ->] & _). eauto.
    + unfold Router.getOrRegisterDevice.
      destruct (Router.getDeviceByMac r mac); [eauto |].
      destruct (Hspec mac) as ([[res r'] ->] & _). eauto.
  - intros mac d r' Hr. destruct (Hspec mac) as (_ & Hsome & _).
    destruct (Hsome d r' Hr) as (-> & _ & (_ & ? & ? & ?) & ?). cbn. auto 10.
  - intros k d Hd. destruct (Hdev k d Hd) as (_ & _ & [-> | (_ & ? & ? & ?)]); auto.
  - intros k1 k2 d1 d2 H1 H2 E.
    destruct (Hdev k1 d1 H1) as (_ & T1 & _).
    destruct (Hdev k2 d2 H2) as (_ & T2 & _). congruence.
  - intros mac. destruct (Hspec mac) as (_ & _ & Hnone). split.
    + intros Hr a Ha Hs Hn Hb. apply Hnone; [eauto |].
      exact (conj Ha (conj Hs (conj Hn Hb))).
    + intros Hfull. destruct Hnone as [_ [r' Hr]].
      * intros a (? & ? & ? & ?). auto.
      * now rewrite (registerDevice_undefined _ _ _ Hr) in Hr.
  - intros c d r' Hcall.
    destruct (call_records mac0 ip0 Hip0 r c d r' Hinv Hcall)
      as (Hrec & Hkey & Htab).
    split; [exact Hrec |]. split; [exact Hkey |]. split; [exact Htab |].
    split; [| split].
    + unfold Router.isIpAssigned. rewrite Htab.
      apply bool_decide_eq_true. eauto.
    + unfold Router.getDeviceByIp. rewrite Htab, Hkey. exact Hrec.
    + exact (addressTable_call mac0 ip0 Hip0 r c (Some d) r' Hinv Hcall).
  - intros mac. unfold Router.getOrRegisterDevice.
    now destruct (Router.getDeviceByMac r mac).
  - intros c1 d1 r1 r2 c2 d2 r3 Hc1 H12 Hc2 Hwf1 Hwf2 Hne E.
    assert (Hr1 : reachable (Router.new mac0 ip0 mask16) r1)
      by (eapply reachable_call; eassumption).
    assert (Hr2 : reachable (Router.new mac0 ip0 mask16) r2)
      by (eapply reachable_trans; eassumption).
    destruct (call_records mac0 ip0 Hip0 r c1 d1 r1 Hinv Hc1)
      as (_ & Hkey1 & Htab1).
    destruct (call_records mac0 ip0 Hip0 r2 c2 d2 r3
                (RouterInv_reachable mac0 ip0 Hip0 r2 Hr2) Hc2)
      as (_ & Hkey2 & Htab2).
    assert (H13 : reachable r1 r3) by (eapply reachable_call; eassumption).
    pose proof (addressTable_reachable mac0 ip0 Hip0 r1 r3 Hr1 H13 _ _ Htab1)
      as Htab13.
    rewrite E, Htab2 in Htab13. injection Htab13 as Emac.
    apply Hne, mac_toString_inj; [assumption .. |]. congruence.
Qed.

Lemma router_ip_allocation_witness :
  Ipv4Address.wf (ip 192 168 13 37)
  /\ reachable adapterRouter bootedRouter
  /\ Router.registerDevice bootedRouter hostMac
     = Some (Some {| dev_mac := hostMac; dev_ip := ip 192 168 0 2;
                     dev_isConfirmed := false |},
             Router._registerDevice bootedRouter
               {| dev_mac := hostMac; dev_ip := ip 192 168 0 2;
                  dev_isConfirmed := false |})
  /\ inSubnet bootedRouter (ip 192 168 0 2)
  /\ ~ isNetworkAddress bootedRouter (ip 192 168 0 2)
  /\ ~ isBroadcastAddress bootedRouter (ip 192 168 0 2)
  /\ MacAddress.wf emulatorMac /\ MacAddress.wf hostMac
  /\ emulatorMac <> hostMac
  /\ dev_ip emulatorDevice <> ip 192 168 0 2.
Proof.
  assert (Hwf : Ipv4Address.wf (ip 192 168 13 37)).
  { split; [reflexivity |]. repeat constructor; lia. }
  assert (Hboot : Router.registerDevice adapterRouter emulatorMac
                  = Some (Some emulatorDevice, bootedRouter))
    by (vm_compute; reflexivity).
  assert (Hreach : reachable adapterRouter bootedRouter).
  { apply (reachable_call adapterRouter adapterRouter
             (CallRegisterDevice emulatorMac) (Some emulatorDevice)).
    - apply reachable_init.
    - exact Hboot. }
  assert (Hreg : Router.registerDevice bootedRouter hostMac
     = Some (Some {| dev_mac := hostMac; dev_ip := ip 192 168 0 2;
                     dev_isConfirmed := false |},
             Router._registerDevice bootedRouter
               {| dev_mac := hostMac; dev_ip := ip 192 168 0 2;
                  dev_isConfirmed := false |}))
    by (vm_compute; reflexivity).
  assert (Hemu : MacAddress.wf emulatorMac).
  { split; [reflexivity |]. repeat constructor; lia. }
  assert (Hhost : MacAddress.wf hostMac).
  { split; [reflexivity |]. repeat constructor; lia. }
  assert (Hne : emulatorMac <> hostMac) by discriminate.
  split; [exact Hwf |]. split; [exact Hreach |]. split; [exact Hreg |].
  destruct (router_ip_allocation adapterRouterMac (ip 192 168 13 37)
              bootedRouter Hwf Hreach) as (_ & Halloc & _).
  destruct (Halloc _ _ _ Hreg) as (_ & _ & _ & H1 & H2 & H3).
  split; [exact H1 |]. split; [exact H2 |]. split; [exact H3 |].
  split; [exact Hemu |]. split; [exact Hhost |]. split; [exact Hne |].
  destruct (router_ip_allocation adapterRouterMac (ip 192 168 13 37)
              adapterRouter Hwf (reachable_init _))
    as (_ & _ & _ & _ & _ & _ & _ & Hdistinct).
  exact (Hdistinct (CallRegisterDevice emulatorMac) emulatorDevice
           bootedRouter bootedRouter (CallRegisterDevice hostMac) _ _
           Hboot (reachable_init _) Hreg Hemu Hhost Hne).
Defined.

(** ** The router's ARP responder *)

Section ArpResponder.

Lemma mac_equals_true_iff a b :
  MacAddress.wf a -> MacAddress.wf b ->
  MacAddress.equals a b = true <-> a = b.
Proof.
  destruct a as [la], b as [lb]. intros [Ha _] [Hb _]. cbn in Ha, Hb.
  do 7 (destruct la as [|? la]; try discriminate).
  do 7 (destruct lb as [|? lb]; try discriminate).
  unfold MacAddress.equals, every, index_is. cbn.
  rewrite !andb_true_iff, !Z.eqb_eq. split.
  - intros (-> & -> & -> & -> & -> & -> & _). reflexivity.
  - intros [= -> -> -> -> -> ->]. auto 10.
Qed.

Lemma mac_equals_false_iff a b :
  MacAddress.wf a -> MacAddress.wf b ->
  MacAddress.equals a b = false <-> a <> b.
Proof.
  intros Ha Hb. rewrite <- (mac_equals_true_iff a b Ha Hb).
  destruct (MacAddress.equals a b); split; congruence.
Qed.

Lemma wf_broadcast_mac : MacAddress.wf MacAddress.BroadcastAddress.
Proof. split; [reflexivity |]. repeat constructor; lia. Qed.

(** Whatever the ARP layer hands to its subprotocols went through its
    hardware-type and protocol-type checks. *)
Lemma arp_decoded_types frame c data :
  Arp.onProcessFrame frame = Some (c, Some data) ->
  arp_hardwareType data = 0x1 /\ arp_protocolType data = 0x0800
  /\ arp_srcMac data = eth_srcMac frame
  /\ arp_destMac data = eth_destMac frame.
Proof.
  unfold Arp.onProcessFrame.
  repeat match goal with
         | |- context [if ?b then _ else _] => destruct b eqn:?
         | |- context [match ?o with Some _ => _ | None => _ end] =>
             destruct o eqn:?
         end; try discriminate.
  all: intros [= <- <-]; cbn;
    repeat match goal with
           | H : negb _ = false |- _ => apply negb_false_iff in H
           | H : (_ =? _) = true |- _ => apply Z.eqb_eq in H
           end; auto.
Qed.

End ArpResponder.

(** C9: the router's ARP responder, on a frame the ARP layer decoded
    (hardware type 1).  If the source MAC is the router's, the frame is
    consumed and nothing is sent; otherwise, if the destination MAC is
    neither the router's nor the broadcast address, the frame is not
    consumed; otherwise, if the queried IP belongs to a device of the
    table, one reply is sent, with operation 2, the router's MAC as source,
    the request's source MAC as destination and the device's MAC as
    queried MAC, and the frame is consumed; and if the queried IP is
    unknown, the frame is consumed and nothing is sent. *)
Theorem arp_responder_cases (router : Router.t) (frame : ArpData) :
  MacAddress.wf (Router.mac router) ->
  MacAddress.wf (arp_srcMac frame) ->
  MacAddress.wf (arp_destMac frame) ->
  arp_hardwareType frame = 0x1 ->
  (arp_srcMac frame = Router.mac router ->
     ArpImplementation.onProcessFrame router frame = (true, []))
  /\ (arp_srcMac frame <> Router.mac router ->
      arp_destMac frame <> Router.mac router ->
      arp_destMac frame <> MacAddress.BroadcastAddress ->
      ArpImplementation.onProcessFrame router frame = (false, []))
  /\ (arp_srcMac frame <> Router.mac router ->
      arp_destMac frame = Router.mac router
      \/ arp_destMac frame = MacAddress.BroadcastAddress ->
      forall device,
        Router.getDeviceByIp router (arp_queriedIp frame) = Some device ->
        exists reply,
          ArpImplementation.onProcessFrame router frame = (true, [reply])
          /\ arp_operation reply = 0x2
          /\ arp_srcMac reply = Router.mac router
          /\ arp_destMac reply = arp_srcMac frame
          /\ arp_queriedMac reply = Some (dev_mac device)
          /\ arp_queriedIp reply = arp_queriedIp frame
          /\ arp_originMac reply = arp_originMac frame
          /\ arp_originIp reply = arp_originIp frame)
  /\ (arp_srcMac frame <> Router.mac router ->
      arp_destMac frame = Router.mac router
      \/ arp_destMac frame = MacAddress.BroadcastAddress ->
      Router.getDeviceByIp router (arp_queriedIp frame) = None ->
      ArpImplementation.onProcessFrame router frame = (true, [])).
Proof.
  intros Hr Hs Hd Hhw. unfold ArpImplementation.onProcessFrame.
  rewrite Hhw. change (negb (1 =? 1)) with false.
  unfold MacAddress.isRecipientOfTarget.
  pose proof wf_broadcast_mac as Hb.
  split; [| split; [| split]].
  - intros E. rewrite (proj2 (mac_equals_true_iff _ _ Hr Hs)) by congruence.
    reflexivity.
  - intros Hsrc Hdst Hbc.
    rewrite (proj2 (mac_equals_false_iff _ _ Hr Hs)) by congruence.
    rewrite (proj2 (mac_equals_false_iff _ _ Hd Hb)) by congruence.
    rewrite (proj2 (mac_equals_false_iff _ _ Hd Hr)) by congruence.
    reflexivity.
  - intros Hsrc Hdst device Hdev.
    rewrite (proj2 (mac_equals_false_iff _ _ Hr Hs)) by congruence.
    assert (E : MacAddress.equals (arp_destMac frame) MacAddress.BroadcastAddress
                || MacAddress.equals (arp_destMac frame) (Router.mac router)
                = true).
    { apply orb_true_iff.
      destruct Hdst as [E | E]; [right | left];
        apply mac_equals_true_iff; assumption. }
    rewrite E, Hdev. cbn [negb option_map]. eexists. split; [reflexivity |].
    cbn. auto 10.
  - intros Hsrc Hdst Hdev.
    rewrite (proj2 (mac_equals_false_iff _ _ Hr Hs)) by congruence.
    assert (E : MacAddress.equals (arp_destMac frame) MacAddress.BroadcastAddress
                || MacAddress.equals (arp_destMac frame) (Router.mac router)
                = true).
    { apply orb_true_iff.
      destruct Hdst as [E | E]; [right | left];
        apply mac_equals_true_iff; assumption. }
    rewrite E, Hdev. reflexivity.
Qed.

Lemma arp_responder_cases_witness :
  MacAddress.wf (Router.mac bootedRouter)
  /\ MacAddress.wf (arp_srcMac arpWhoHas)
  /\ MacAddress.wf (arp_destMac arpWhoHas)
  /\ arp_hardwareType arpWhoHas = 0x1
  /\ exists reply,
       ArpImplementation.onProcessFrame bootedRouter arpWhoHas = (true, [reply])
       /\ arp_operation reply = 0x2
       /\ arp_srcMac reply = adapterRouterMac
       /\ arp_destMac reply = hostMac
       /\ arp_queriedMac reply = Some emulatorMac.
Proof.
  assert (Hr : MacAddress.wf (Router.mac bootedRouter))
    by (split; [reflexivity |]; repeat constructor; lia).
  assert (Hs : MacAddress.wf (arp_srcMac arpWhoHas))
    by (split; [reflexivity |]; repeat constructor; lia).
  assert (Hd : MacAddress.wf (arp_destMac arpWhoHas))
    by (split; [reflexivity |]; repeat constructor; lia).
  split; [exact Hr |]. split; [exact Hs |]. split; [exact Hd |].
  split; [reflexivity |].
  destruct (arp_responder_cases bootedRouter arpWhoHas Hr Hs Hd eq_refl)
    as (_ & _ & Hreply & _).
  destruct (Hreply ltac:(discriminate) (or_intror eq_refl) emulatorDevice)
    as (reply & H1 & H2 & H3 & H4 & H5 & _).
  - vm_compute. reflexivity.
  - exists reply. auto.
Defined.

(** ** Dispatch to the hooks of a layer *)

Section Dispatch.
Context {Frame Metadata World : Type}.
Import CallbackEventTarget.


End Dispatch.



(** ** The TCP socket *)

Section SocketFacts.
Import TcpSocket.
Local Open Scope tcp_scope.

Lemma forEach_emit {A : Type} (f : A -> Event) (xs : list A) : forall s,
  forEach xs (fun x => emitEvent (f x)) s
  = (Ok tt, set_events (events s ++ map f xs) s).
Proof.
  induction xs as [|x xs IH]; intros s; cbn [forEach map].
  - rewrite app_nil_r. destruct s; reflexivity.
  - unfold bind at 1. cbn [emitEvent modify]. rewrite IH.
    destruct s; cbn. now rewrite <- app_assoc.
Qed.

Lemma close_spec s :
  close s
  = (Ok tt,
     set_events (events s ++ map CloseCallback (_onCloseCallbacks s))
       (set_state CLOSED s)).
Proof.
  unfold close, _onCloseCallback, bind, modify, get.
  rewrite forEach_emit. reflexivity.
Qed.

Lemma process_fin p s :
  _state s <> INIT -> inbound p s -> fl_fin (pk_flags p) = true ->
  process p s = close s.
Proof.
  intros Hst (Hown & Hip & Hport) Hfin. unfold process, bind at 1, get.
  destruct (_state s) eqn:E; try congruence; cbn [TcpState_eqb];
    rewrite Hown, Hip, Hport, Z.eqb_refl, Hfin; reflexivity.
Qed.

End SocketFacts.

(** C10: [close()] is not idempotent in what it does.  On any socket,
    CLOSED ones included, a call sets the state to CLOSED and invokes every
    registered close callback, in order; so two calls invoke each callback
    twice.  An inbound FIN processed by a socket in any state but INIT,
    CLOSED included, is such a call. *)
Theorem close_fires_callbacks_on_every_call
    (s : TcpSocket.t) (p : TcpPacket) :
  TcpSocket._state s <> INIT ->
  inbound p s ->
  fl_fin (pk_flags p) = true ->
  let fired := map CloseCallback (TcpSocket._onCloseCallbacks s) in
  TcpSocket.close s
    = (Ok tt,
       TcpSocket.set_events (TcpSocket.events s ++ fired)
         (TcpSocket.set_state CLOSED s))
  /\ TcpSocket._state (stateAfter TcpSocket.close s) = CLOSED
  /\ TcpSocket.events (stateAfter TcpSocket.close s)
     = TcpSocket.events s ++ fired
  /\ TcpSocket.events
       (stateAfter TcpSocket.close (stateAfter TcpSocket.close s))
     = TcpSocket.events s ++ fired ++ fired
  /\ TcpSocket.process p s = TcpSocket.close s.
Proof.
  intros Hst Hin Hfin fired. unfold stateAfter.
  rewrite !close_spec. cbn [snd].
  split; [reflexivity |]. split; [reflexivity |]. split; [reflexivity |].
  split.
  - destruct s; cbn. now rewrite <- app_assoc.
  - rewrite process_fin, close_spec; [reflexivity | assumption ..].
Qed.

Lemma close_fires_callbacks_on_every_call_witness :
  TcpSocket._state closedSocket = CLOSED
  /\ TcpSocket._state closedSocket <> INIT
  /\ inbound (peerPacket 7001 0 flagsFin []) closedSocket
  /\ fl_fin (pk_flags (peerPacket 7001 0 flagsFin [])) = true
  /\ TcpSocket.events closedSocket = [CloseCallback 7]
  /\ TcpSocket.events
       (stateAfter (TcpSocket.process (peerPacket 7001 0 flagsFin []))
          closedSocket)
     = [CloseCallback 7; CloseCallback 7].
Proof.
  assert (Hst : TcpSocket._state closedSocket <> INIT) by discriminate.
  assert (Hin : inbound (peerPacket 7001 0 flagsFin []) closedSocket)
    by (repeat split; reflexivity).
  split; [reflexivity |].
  split; [exact Hst |]. split; [exact Hin |]. split; [reflexivity |].
  split; [reflexivity |].
  destruct (close_fires_callbacks_on_every_call closedSocket
              (peerPacket 7001 0 flagsFin []) Hst Hin eq_refl)
    as (_ & _ & Hev & _ & Hproc).
  unfold stateAfter in *. rewrite Hproc, Hev. reflexivity.
Defined.

Section SocketProcess.
Import TcpSocket.
Local Open Scope tcp_scope.

Lemma sendPacket_spec seqIncrement seq ack flags data s :
  _sendPacket seqIncrement seq ack flags data s
  = (Ok tt,
     afterSending [packetOf s seq ack flags data] (_seq s + seqIncrement) s).
Proof. reflexivity. Qed.

(** [process] past its guards: the ACK handling, then the state's
    case. *)
Lemma process_inbound p s :
  _state s <> INIT -> inbound p s -> fl_fin (pk_flags p) = false ->
  process p s = processInState p (acknowledge p s).
Proof.
  intros Hst (Hown & Hip & Hport) Hfin. unfold process, bind at 1, get at 1.
  assert (E : TcpState_eqb (_state s) INIT = false)
    by (destruct (_state s); [congruence | reflexivity ..]).
  rewrite E, Hown, Hip, Hport, Z.eqb_refl, Hfin. cbn [negb orb].
  unfold acknowledge, bind at 1.
  destruct (fl_ack (pk_flags p)); reflexivity.
Qed.

Lemma acknowledge_fields p s :
  _state (acknowledge p s) = _state s
  /\ _seq (acknowledge p s) = _seq s
  /\ _ack (acknowledge p s) = _ack s
  /\ events (acknowledge p s) = events s
  /\ tasks (acknowledge p s) = tasks s
  /\ srcIp (acknowledge p s) = srcIp s
  /\ destIp (acknowledge p s) = destIp s
  /\ srcPort (acknowledge p s) = srcPort s
  /\ destPort (acknowledge p s) = destPort s
  /\ _writeOnceEstablished (acknowledge p s) = _writeOnceEstablished s.
Proof. unfold acknowledge. destruct (fl_ack (pk_flags p)); cbn; auto 10. Qed.

End SocketProcess.

(** C5, as the specification states it, fails: a listening server socket
    that processes an inbound packet without the SYN flag (here a bare
    ACK) stays in LISTEN and sends nothing. *)
Lemma listen_without_syn_counterexample :
  TcpSocket.isServer listeningSocket = true
  /\ TcpSocket._state listeningSocket = LISTEN
  /\ inbound (peerPacket 7000 0 flagsAck []) listeningSocket
  /\ TcpSocket._state
       (stateAfter (TcpSocket.process (peerPacket 7000 0 flagsAck []))
          listeningSocket) = LISTEN
  /\ TcpSocket._state
       (stateAfter (TcpSocket.process (peerPacket 7000 0 flagsAck []))
          listeningSocket) <> SYN_RECEIVED
  /\ TcpSocket.events
       (stateAfter (TcpSocket.process (peerPacket 7000 0 flagsAck []))
          listeningSocket) = [].
Proof. repeat split; try reflexivity. vm_compute. discriminate. Qed.

(** C5 (amended): a socket in LISTEN that processes an inbound packet
    without FIN moves to SYN_RECEIVED exactly when the packet's SYN flag is
    set: it then sets [ack = packet.seq + 1], sends one SYN+ACK carrying
    its current seq, and advances seq by 1; without the SYN flag it stays
    in LISTEN and sends nothing. *)
Theorem listen_moves_on_syn_only (s : TcpSocket.t) (p : TcpPacket) :
  TcpSocket._state s = LISTEN ->
  inbound p s ->
  fl_fin (pk_flags p) = false ->
  exists s',
    TcpSocket.process p s = (Ok tt, s')
    /\ (TcpSocket._state s' = SYN_RECEIVED <-> fl_syn (pk_flags p) = true)
    /\ (fl_syn (pk_flags p) = true ->
          TcpSocket._ack s' = pk_seq p + 1
          /\ TcpSocket._seq s' = TcpSocket._seq s + 1
          /\ TcpSocket.events s'
             = TcpSocket.events s
               ++ [SendPacket
                     (packetOf s (TcpSocket._seq s) (pk_seq p + 1)
                        flagsSynAck [])])
    /\ (fl_syn (pk_flags p) = false ->
          TcpSocket._state s' = LISTEN
          /\ TcpSocket._ack s' = TcpSocket._ack s
          /\ TcpSocket._seq s' = TcpSocket._seq s
          /\ TcpSocket.events s' = TcpSocket.events s).
Proof.
  intros Hst Hin Hfin.
  rewrite process_inbound by (congruence || assumption).
  destruct (acknowledge_fields p s)
    as (Est & Eseq & Eack & Eev & _ & EsI & EdI & EsP & EdP & _).
  unfold TcpSocket.processInState, TcpSocket.bind at 1, TcpSocket.get at 1.
  rewrite Est, Hst.
  destruct (fl_syn (pk_flags p)) eqn:Hsyn;
    cbv [TcpSocket.bind TcpSocket.modify TcpSocket.get TcpSocket._sendPacket
         TcpSocket.emitEvent TcpSocket.schedule TcpSocket.ret].
  - eexists. split; [reflexivity |]. cbn.
    split; [tauto |]. split; [| discriminate]. intros _.
    rewrite Eseq, Eev. unfold packetOf. rewrite EsI, EdI, EsP, EdP. auto.
  - eexists. split; [reflexivity |]. rewrite Est, Hst, Eack, Eseq, Eev.
    split; [split; discriminate |]. split; [discriminate | auto].
Qed.

Lemma listen_moves_on_syn_only_witness :
  TcpSocket._state listeningSocket = LISTEN
  /\ inbound (peerPacket 7000 0 flagsSyn []) listeningSocket
  /\ fl_fin (pk_flags (peerPacket 7000 0 flagsSyn [])) = false
  /\ exists s',
       TcpSocket.process (peerPacket 7000 0 flagsSyn []) listeningSocket
       = (Ok tt, s')
       /\ TcpSocket._state s' = SYN_RECEIVED
       /\ TcpSocket._ack s' = 7001.
Proof.
  assert (Hin : inbound (peerPacket 7000 0 flagsSyn []) listeningSocket)
    by (repeat split; reflexivity).
  split; [reflexivity |]. split; [exact Hin |]. split; [reflexivity |].
  destruct (listen_moves_on_syn_only listeningSocket
              (peerPacket 7000 0 flagsSyn []) eq_refl Hin eq_refl)
    as (s' & Hp & Hst & Hsyn & _).
  exists s'. split; [exact Hp |]. split; [apply Hst; reflexivity |].
  apply (Hsyn eq_refl).
Defined.

Section SocketIngress.
Import TcpSocket.
Local Open Scope tcp_scope.

Lemma packetsSent_app evs evs' :
  packetsSent (evs ++ evs') = packetsSent evs ++ packetsSent evs'.
Proof. unfold packetsSent. now rewrite flat_map_app. Qed.

Lemma packetsSent_callbacks {A : Type} (f : A -> Event) (xs : list A) :
  (forall x q, f x <> SendPacket q) -> packetsSent (map f xs) = [].
Proof.
  intros Hf. induction xs as [|x xs IH]; [reflexivity |].
  cbn. destruct (f x) eqn:E; try assumption. now apply Hf in E.
Qed.

Lemma drain_spec fuel : forall mustAcknowledge s,
  exists b s' evs,
    drain fuel mustAcknowledge s = (Ok b, s')
    /\ sameButQueue s s'
    /\ events s' = events s ++ evs
    /\ packetsSent evs = [].
Proof.
  induction fuel as [|fuel IH]; intros must s; cbn [drain].
  - exists must, s, []. rewrite app_nil_r. unfold sameButQueue. auto 15.
  - unfold bind at 1, get at 1.
    destruct (takeFirstDue (_ack s) (_receivedPacketsUnacknowledged s))
      as [[packet others] |].
    2: { exists must, s, []. rewrite app_nil_r. unfold sameButQueue. auto 15. }
    unfold bind at 1, modify at 1. cbn [_ack set_received].
    destruct (pk_seq packet <? _ack s).
    + destruct (IH true (set_received others s)) as (b & s' & evs & -> & Hs & He & Hp).
      exists b, s', evs. auto.
    + unfold bind at 1, modify at 1.
      destruct (0 <? Z.of_nat (length (pk_data packet))).
      * unfold bind at 1, _onDataCallback, bind at 1, get at 1.
        rewrite forEach_emit.
        match goal with
        | |- context [drain fuel true ?s1] =>
            destruct (IH true s1) as (b & s' & evs & -> & Hs & He & Hp)
        end.
        exists b, s'. eexists. split; [reflexivity |].
        split; [exact Hs |]. split.
        -- rewrite He. cbn [events set_events]. rewrite <- app_assoc. reflexivity.
        -- rewrite packetsSent_app, Hp, app_nil_r.
           apply packetsSent_callbacks. discriminate.
      * match goal with
        | |- context [drain fuel must ?s1] =>
            destruct (IH must s1) as (b & s' & evs & -> & Hs & He & Hp)
        end.
        exists b, s', evs. auto.
Qed.

Lemma takeFirstDue_length ack queue packet others :
  takeFirstDue ack queue = Some (packet, others) ->
  length queue = S (length others).
Proof.
  revert others. induction queue as [|q queue IH]; intros others; cbn [takeFirstDue].
  - discriminate.
  - destruct (pk_seq q <=? ack).
    + now intros [= <- <-].
    + destruct (takeFirstDue ack queue) as [[found rest] |]; [| discriminate].
      intros [= <- <-]. cbn [length]. f_equal. now apply IH.
Qed.

(** The loop leaves through its [break]: with one turn per queued
    packet and one more, no packet that is due stays in the queue. *)
Lemma drain_exits fuel : forall mustAcknowledge s b s',
  (length (_receivedPacketsUnacknowledged s) < fuel)%nat ->
  drain fuel mustAcknowledge s = (b, s') ->
  takeFirstDue (_ack s') (_receivedPacketsUnacknowledged s') = None.
Proof.
  induction fuel as [|fuel IH]; intros must s b s' Hlen; [lia |]. cbn [drain].
  unfold bind at 1, get at 1.
  destruct (takeFirstDue (_ack s) (_receivedPacketsUnacknowledged s))
    as [[packet others] |] eqn:E; [| now intros [= <- <-]].
  apply takeFirstDue_length in E.
  unfold bind at 1, modify at 1. cbn [_ack set_received].
  destruct (pk_seq packet <? _ack s).
  - apply IH. cbn. lia.
  - unfold bind at 1, modify at 1.
    destruct (0 <? Z.of_nat (length (pk_data packet))).
    + unfold bind at 1, _onDataCallback, bind at 1, get at 1.
      rewrite forEach_emit. apply IH. cbn. lia.
    + apply IH. cbn. lia.
Qed.

(** The state's case of [process] adds to the unacknowledged list the
    packets it sends, and takes nothing out of it. *)
Lemma processInState_sends p s :
  exists outcome s' evs,
    processInState p s = (outcome, s')
    /\ events s' = events s ++ evs
    /\ _sentPacketsUnacknowledged s'
       = _sentPacketsUnacknowledged s ++ packetsSent evs.
Proof.
  assert (Hnone : forall outcome : Outcome unit,
            exists outcome' s' evs,
              (outcome, s) = (outcome', s')
              /\ events s' = events s ++ evs
              /\ _sentPacketsUnacknowledged s'
                 = _sentPacketsUnacknowledged s ++ packetsSent evs).
  { intros outcome. exists outcome, s, []. now rewrite !app_nil_r. }
  unfold processInState, bind at 1, get at 1.
  destruct (_state s).
  - apply Hnone.
  - destruct (fl_syn (pk_flags p)); [| apply Hnone].
    cbv [bind modify get _sendPacket emitEvent schedule].
    do 3 eexists. split; [reflexivity |]. cbn. split; reflexivity.
  - destruct (fl_syn (pk_flags p) && fl_ack (pk_flags p)); [| apply Hnone].
    cbv [bind modify get _sendPacket emitEvent schedule].
    do 3 eexists. split; [reflexivity |]. cbn. split; reflexivity.
  - destruct (fl_ack (pk_flags p)); [| apply Hnone].
    cbv [bind modify schedule].
    do 2 eexists. exists []. split; [reflexivity |].
    cbn. now rewrite !app_nil_r.
  - destruct (0 <? length (_writeOnceEstablished s))%nat; [apply Hnone |].
    unfold bind at 1, modify at 1. unfold bind at 1, get at 1.
    unfold bind at 1.
    match goal with
    | |- context [drain ?f false ?s2] =>
        destruct (drain_spec f false s2)
          as (b & s3 & evs & Hd & Hsame & He & Hp)
    end.
    rewrite Hd.
    destruct Hsame as (_ & _ & Hsent3 & _).
    cbn [_sentPacketsUnacknowledged set_received events] in Hsent3, He.
    destruct b.
    + cbv [bind modify get _sendPacket emitEvent schedule].
      do 2 eexists. eexists (evs ++ [SendPacket _]).
      split; [reflexivity |]. cbn.
      rewrite He, Hsent3, packetsSent_app, Hp, <- app_assoc. split; reflexivity.
    + exists (Ok tt), s3, evs. split; [reflexivity |].
      rewrite He, Hsent3, Hp, app_nil_r. split; reflexivity.
  - apply Hnone.
Qed.

End SocketIngress.

(** C3, as the specification states it, fails: an ACK whose ack number
    equals [p.seq + p.data.length] removes [p] from the unacknowledged
    list. *)
Lemma ack_equal_to_end_counterexample :
  TcpSocket._sentPacketsUnacknowledged writingSocket = [helloSegment]
  /\ inbound (peerPacket 7001 123456706 flagsAck []) writingSocket
  /\ pk_ack (peerPacket 7001 123456706 flagsAck [])
     = pk_seq helloSegment + Z.of_nat (length (pk_data helloSegment))
  /\ ~ (pk_ack (peerPacket 7001 123456706 flagsAck [])
        > pk_seq helloSegment + Z.of_nat (length (pk_data helloSegment)))
  /\ TcpSocket._sentPacketsUnacknowledged
       (stateAfter
          (TcpSocket.process (peerPacket 7001 123456706 flagsAck []))
          writingSocket) = [].
Proof.
  split; [vm_compute; reflexivity |]. split; [repeat split; reflexivity |].
  split; [reflexivity |]. split; [vm_compute; discriminate |].
  vm_compute. reflexivity.
Qed.

(** C3 (amended): when a socket processes an inbound packet with the ACK
    flag (and without FIN), a previously sent packet [q] stays in the
    unacknowledged list exactly when [q.seq + q.data.length] is strictly
    greater than the incoming ack number; it is removed exactly when the
    ack number is greater than or equal to [q.seq + q.data.length].  The
    list afterwards is what stays of the old one, followed by the packets
    sent while processing. *)
Theorem ack_retires_packets_up_to_ack (s : TcpSocket.t) (p : TcpPacket) :
  TcpSocket._state s <> INIT ->
  inbound p s ->
  fl_fin (pk_flags p) = false ->
  fl_ack (pk_flags p) = true ->
  exists outcome s' evs,
    TcpSocket.process p s = (outcome, s')
    /\ TcpSocket.events s' = TcpSocket.events s ++ evs
    /\ TcpSocket._sentPacketsUnacknowledged s'
       = List.filter (stillUnacknowledged (pk_ack p))
           (TcpSocket._sentPacketsUnacknowledged s)
         ++ packetsSent evs
    /\ (forall q, In q (TcpSocket._sentPacketsUnacknowledged s) ->
          (In q (List.filter (stillUnacknowledged (pk_ack p))
                   (TcpSocket._sentPacketsUnacknowledged s))
           <-> pk_ack p < pk_seq q + Z.of_nat (length (pk_data q)))
          /\ (~ In q (List.filter (stillUnacknowledged (pk_ack p))
                     (TcpSocket._sentPacketsUnacknowledged s))
              <-> pk_ack p >= pk_seq q + Z.of_nat (length (pk_data q)))).
Proof.
  intros Hst Hin Hfin Hack.
  rewrite process_inbound by assumption.
  assert (Hfilter : forall q, In q (TcpSocket._sentPacketsUnacknowledged s) ->
          (In q (List.filter (stillUnacknowledged (pk_ack p))
                   (TcpSocket._sentPacketsUnacknowledged s))
           <-> pk_ack p < pk_seq q + Z.of_nat (length (pk_data q)))
          /\ (~ In q (List.filter (stillUnacknowledged (pk_ack p))
                     (TcpSocket._sentPacketsUnacknowledged s))
              <-> pk_ack p >= pk_seq q + Z.of_nat (length (pk_data q)))).
  { intros q Hq. rewrite filter_In. unfold stillUnacknowledged.
    destruct (Z.gtb_spec (pk_seq q + Z.of_nat (length (pk_data q))) (pk_ack p));
      split; split; try tauto; try lia; intuition (try lia; try discriminate). }
  set (s1 := acknowledge p s).
  assert (Hs1 : TcpSocket._sentPacketsUnacknowledged s1
                = List.filter (stillUnacknowledged (pk_ack p))
                    (TcpSocket._sentPacketsUnacknowledged s)
                /\ TcpSocket.events s1 = TcpSocket.events s).
  { subst s1. unfold acknowledge. rewrite Hack. split; reflexivity. }
  destruct Hs1 as [Hsent Hev].
  destruct (processInState_sends p s1) as (outcome & s' & evs & H1 & H2 & H3).
  exists outcome, s', evs. rewrite H2, H3, Hsent, Hev. auto.
Qed.

(** ** Writing on an established socket *)

Section SocketWrite.
Import TcpSocket.
Local Open Scope tcp_scope.

Lemma afterSending_nil s : afterSending [] (_seq s) s = s.
Proof. destruct s. unfold afterSending. cbn. now rewrite !app_nil_r. Qed.

Lemma afterSending_app l1 l2 q1 q2 s :
  afterSending l2 q2 (afterSending l1 q1 s) = afterSending (l1 ++ l2) q2 s.
Proof.
  unfold afterSending. cbn. now rewrite !map_app, !app_assoc.
Qed.

Lemma take_add {A : Type} (a b : nat) (l : list A) :
  firstn (a + b) l = firstn a l ++ firstn b (skipn a l).
Proof.
  revert l. induction a as [|a IH]; intros l; [reflexivity |].
  destruct l as [|x l]; cbn [Nat.add firstn skipn app].
  - now rewrite firstn_nil.
  - now rewrite IH.
Qed.

Section OneWrite.
Variable data : list Z.
Let n := length data.
Let c := segmentCount n.

(** The chunk that the [k]-th turn of the loop sends. *)
Let chunk (k : nat) : list Z := slice (1200 * k) (1200 * k + 1200) data.

Lemma chunk_take k : chunk k = firstn 1200 (skipn (1200 * k) data).
Proof.
  unfold chunk, slice. f_equal. lia.
Qed.

Lemma chunk_length k :
  length (chunk k) = Nat.min 1200 (n - 1200 * k).
Proof. now rewrite chunk_take, length_firstn, length_skipn. Qed.

Lemma count_spec j : (j < c)%nat <-> (1200 * j < n)%nat.
Proof.
  unfold c, segmentCount.
  pose proof (Nat.div_mod_eq (n + 1199) 1200).
  pose proof (Nat.mod_upper_bound (n + 1199) 1200). lia.
Qed.

Lemma count_bounds : (n <= 1200 * c)%nat /\ (c <= n)%nat.
Proof.
  pose proof (count_spec c). pose proof (count_spec (c - 1)). lia.
Qed.

Lemma chunks_concat m : forall j,
  concat (map chunk (seq j m)) = firstn (1200 * m) (skipn (1200 * j) data).
Proof.
  induction m as [|m IH]; intros j.
  - now rewrite Nat.mul_0_r.
  - cbn [seq map concat]. rewrite IH, chunk_take.
    replace (1200 * S m)%nat with (1200 + 1200 * m)%nat by lia.
    rewrite take_add, skipn_skipn. do 3 f_equal. lia.
Qed.

(** The segment of the [k]-th turn when the loop is entered at turn
    [j] on socket [s]. *)
Let seg (s : t) (j k : nat) : TcpPacket :=
  packetOf s (_seq s + 1200 * Z.of_nat (k - j)) (_ack s) flagsAck (chunk k).

Lemma writeFrom_spec fuel : forall j s,
  _state s = ESTABLISHED ->
  (c - j <= fuel)%nat ->
  writeFrom fuel (1200 * j) data s
  = (Ok tt,
     afterSending (map (seg s j) (seq j (c - j)))
       (_seq s + Z.of_nat (n - 1200 * j)) s).
Proof.
  induction fuel as [|fuel IH]; intros j s Hst Hfuel.
  - cbn [writeFrom]. replace (c - j)%nat with 0%nat by lia.
    assert (Hj : ~ (1200 * j < n)%nat) by (rewrite <- count_spec; lia).
    replace (n - 1200 * j)%nat with 0%nat by lia.
    cbn [seq map Z.of_nat]. now rewrite Z.add_0_r, afterSending_nil.
  - cbn [writeFrom]. fold n.
    destruct (Nat.ltb_spec (1200 * j) n) as [Hlt | Hge].
    + assert (Hj : (j < c)%nat) by now apply count_spec.
      replace (c - j)%nat with (S (c - S j)) by lia.
      cbn [seq map].
      unfold bind at 1, _writeSinglePacket, bind at 1, get at 1.
      rewrite Hst. cbn [TcpState_eqb negb]. rewrite sendPacket_spec.
      fold (chunk j).
      replace (1200 * j + 1200)%nat with (1200 * S j)%nat by lia.
      rewrite IH; [| exact Hst | lia].
      rewrite afterSending_app. f_equal.
      pose proof (chunk_length j) as Hlen.
      f_equal.
      * cbn [app]. f_equal.
        -- unfold seg. f_equal. lia.
        -- apply map_ext_in. intros k Hk. apply in_seq in Hk.
           unfold seg, packetOf, afterSending.
           cbn [srcIp destIp srcPort destPort _seq _ack
                set_tasks set_events set_sent set_seq].
           f_equal.
           assert ((1200 * S j < n)%nat) by (apply count_spec; lia).
           lia.
      * unfold afterSending. cbn [_seq set_tasks set_events set_sent set_seq].
        lia.
    + assert (Hj : ~ (j < c)%nat) by (rewrite count_spec; lia).
      replace (c - j)%nat with 0%nat by lia.
      replace (n - 1200 * j)%nat with 0%nat by lia.
      cbn [seq map Z.of_nat]. now rewrite Z.add_0_r, afterSending_nil.
Qed.

Lemma write_established s :
  _state s = ESTABLISHED ->
  write data s
  = (Ok tt,
     afterSending (segmentsOf s data) (_seq s + Z.of_nat (length data)) s).
Proof.
  intros Hst. unfold write, bind at 1, get at 1.
  rewrite Hst. cbn [TcpState_eqb negb].
  change 0%nat with (1200 * 0)%nat at 1.
  rewrite writeFrom_spec; [| assumption | pose proof count_bounds; lia].
  replace (n - 1200 * 0)%nat with n by lia.
  replace (c - 0)%nat with c by lia.
  f_equal. f_equal.
  unfold segmentsOf. apply map_ext. intros k. unfold seg, chunk.
  now rewrite Nat.sub_0_r.
Qed.

Lemma segmentsOf_concat s : concat (map pk_data (segmentsOf s data)) = data.
Proof.
  unfold segmentsOf. rewrite map_map. cbn [pk_data packetOf].
  change (map _ (seq 0 (segmentCount (length data))))
    with (map chunk (seq 0 c)).
  rewrite chunks_concat.
  replace (1200 * 0)%nat with 0%nat by lia. cbn [skipn].
  apply firstn_all2. pose proof count_bounds. fold n. lia.
Qed.

Lemma segmentsOf_nth s k q :
  nth_error (segmentsOf s data) k = Some q ->
  q = packetOf s (_seq s + 1200 * Z.of_nat k) (_ack s) flagsAck (chunk k)
  /\ (k < c)%nat.
Proof.
  unfold segmentsOf. rewrite nth_error_map. fold n. fold c.
  destruct (nth_error (seq 0 c) k) as [k' |] eqn:Hk'; [| discriminate].
  cbn [option_map]. intros [= <-].
  assert (Hlt : (k < length (seq 0 c))%nat)
    by (apply nth_error_Some; congruence).
  rewrite length_seq in Hlt.
  rewrite nth_error_nth' with (d := 0%nat) in Hk' by now rewrite length_seq.
  rewrite seq_nth in Hk' by assumption. injection Hk' as <-.
  split; [reflexivity | assumption].
Qed.

End OneWrite.

Lemma forEach_write bufs : forall s,
  _state s = ESTABLISHED ->
  exists segs,
    forEach bufs write s
    = (Ok tt,
       afterSending segs (_seq s + Z.of_nat (length (concat bufs))) s)
    /\ concat (map pk_data segs) = concat bufs
    /\ Forall (fun q => pk_flags q = flagsAck /\ pk_ack q = _ack s) segs.
Proof.
  induction bufs as [|data bufs IH]; intros s Hst.
  - exists []. cbn. now rewrite Z.add_0_r, afterSending_nil.
  - cbn [forEach]. unfold bind at 1. rewrite write_established by assumption.
    set (s1 := afterSending _ _ s).
    destruct (IH s1 Hst) as (segs & -> & Hc & Hf).
    exists (segmentsOf s data ++ segs). subst s1.
    rewrite afterSending_app. split; [| split].
    + f_equal. f_equal. cbn [concat]. rewrite length_app.
      unfold afterSending. cbn. lia.
    + rewrite map_app, concat_app, Hc, segmentsOf_concat. reflexivity.
    + apply Forall_app. split; [| exact Hf].
      unfold segmentsOf. apply Forall_map, Forall_forall. auto.
Qed.

End SocketWrite.

(** C4: [write(data)] on an ESTABLISHED socket sends the data as
    consecutive segments of at most 1200 bytes: 1200-byte slices followed
    by the remainder (1200, 1200 and 100 bytes for 2500), each with the
    ACK flag only, the socket's current ack, and the seq the socket has
    when the segment is sent, which advances by each segment's payload
    length; afterwards the socket's seq has advanced by [data.length]. *)
Theorem write_segments_of_1200 (s : TcpSocket.t) (data : list Z) :
  TcpSocket._state s = ESTABLISHED ->
  let segments := segmentsOf s data in
  TcpSocket.write data s
    = (Ok tt,
       afterSending segments (TcpSocket._seq s + Z.of_nat (length data)) s)
  /\ TcpSocket.events (stateAfter (TcpSocket.write data) s)
     = TcpSocket.events s ++ map SendPacket segments
  /\ TcpSocket._seq (stateAfter (TcpSocket.write data) s)
     = TcpSocket._seq s + Z.of_nat (length data)
  /\ concat (map pk_data segments) = data
  /\ (forall k q,
        nth_error segments k = Some q ->
        pk_flags q = flagsAck
        /\ pk_ack q = TcpSocket._ack s
        /\ (0 < length (pk_data q) <= 1200)%nat
        /\ ((S k < length segments)%nat -> length (pk_data q) = 1200%nat)
        /\ pk_seq q
           = TcpSocket._seq s
             + Z.of_nat (length (concat (map pk_data (firstn k segments)))))
  /\ (length data = 2500%nat ->
        map (fun q => length (pk_data q)) segments
          = [1200; 1200; 100]%nat
        /\ map pk_seq segments
           = [TcpSocket._seq s; TcpSocket._seq s + 1200;
              TcpSocket._seq s + 2400]).
Proof.
  intros Hst segments.
  pose proof (write_established data s Hst) as Hw. fold segments in Hw.
  unfold stateAfter. rewrite Hw. cbn [snd].
  split; [reflexivity |]. split; [reflexivity |]. split; [reflexivity |].
  split; [apply segmentsOf_concat |]. split.
  - intros k q Hq.
    assert (Hlenseg : length segments = segmentCount (length data))
      by (unfold segments, segmentsOf; now rewrite length_map, length_seq).
    destruct (segmentsOf_nth data s k q Hq) as [-> Hk].
    pose proof (chunk_length data k) as Hlen. cbv zeta in Hlen.
    pose proof (proj1 (count_spec data k) Hk) as Hkn.
    cbn [pk_flags pk_ack pk_data pk_seq packetOf].
    split; [reflexivity |]. split; [reflexivity |]. split; [lia |]. split.
    + intros Hnext. rewrite Hlenseg in Hnext.
      apply (count_spec data) in Hnext. lia.
    + f_equal. f_equal.
      unfold segments, segmentsOf. rewrite firstn_map, map_map.
      cbn [pk_data packetOf]. rewrite take_seq.
      replace (Nat.min k (segmentCount (length data))) with k by lia.
      rewrite (chunks_concat data k 0).
      replace (1200 * 0)%nat with 0%nat by lia. rewrite drop_0.
      rewrite length_firstn. lia.
  - intros H2500. unfold segments, segmentsOf. rewrite H2500.
    change (segmentCount 2500) with 3%nat. cbn [seq map pk_data pk_seq packetOf].
    unfold slice. rewrite !length_firstn, !length_skipn, H2500.
    split; [reflexivity |]. repeat f_equal; lia.
Qed.

Lemma write_segments_of_1200_witness :
  TcpSocket._state establishedSocket = ESTABLISHED
  /\ map (fun q => (pk_seq q, length (pk_data q)))
       (packetsSent
          (TcpSocket.events
             (stateAfter (TcpSocket.write (repeat 7 2500)) establishedSocket)))
     = [(123456700, 0%nat); (123456701, 1200%nat); (123457901, 1200%nat);
        (123459101, 100%nat)].
Proof.
  split; [reflexivity |].
  destruct (write_segments_of_1200 establishedSocket (repeat 7 2500) eq_refl)
    as (_ & Hev & _).
  rewrite Hev. vm_compute. reflexivity.
Defined.

(** C2, as the specification states it, fails.  The server socket
    completes the handshake with a write buffered before ESTABLISHED and
    one established callback registered; when the deferred
    [_onEstablishedCallback] runs, the buffered write goes out as a segment
    first, and the callback is invoked after it. *)
Lemma buffered_write_precedes_callback_counterexample :
  TcpSocket._state handshakenSocket = ESTABLISHED
  /\ TcpSocket._writeOnceEstablished handshakenSocket
     = [[104; 101; 108; 108; 111]]
  /\ TcpSocket._onEstablishedCallbacks handshakenSocket = [0%nat]
  /\ In FireEstablished (TcpSocket.tasks handshakenSocket)
  /\ TcpSocket.events
       (stateAfter (TcpSocket.runTask FireEstablished) handshakenSocket)
     = TcpSocket.events handshakenSocket
       ++ [SendPacket helloSegment; EstablishedCallback 0].
Proof.
  split; [reflexivity |]. split; [reflexivity |]. split; [reflexivity |].
  split; [vm_compute; tauto |]. vm_compute. reflexivity.
Qed.

(** C2 (amended): when the deferred [_onEstablishedCallback] runs on a
    socket that is ESTABLISHED, the buffered pre-established writes are
    emitted as TCP segments first, in the order they were written, and all
    registered [onEstablished] callbacks are invoked after the last of
    these segments, in registration order; the buffer is empty
    afterwards. *)
Theorem buffered_writes_precede_established_callbacks (s : TcpSocket.t) :
  TcpSocket._state s = ESTABLISHED ->
  exists segments s',
    TcpSocket.runTask FireEstablished s = (Ok tt, s')
    /\ TcpSocket.events s'
       = TcpSocket.events s
         ++ map SendPacket segments
         ++ map EstablishedCallback (TcpSocket._onEstablishedCallbacks s)
    /\ concat (map pk_data segments)
       = concat (TcpSocket._writeOnceEstablished s)
    /\ Forall (fun q => pk_flags q = flagsAck) segments
    /\ TcpSocket._writeOnceEstablished s' = [].
Proof.
  intros Hst. cbn [TcpSocket.runTask].
  unfold TcpSocket._onEstablishedCallback.
  unfold TcpSocket.bind at 1, TcpSocket.get at 1.
  unfold TcpSocket.bind at 1, TcpSocket.modify at 1.
  unfold TcpSocket.bind at 1.
  destruct (forEach_write (TcpSocket._writeOnceEstablished s)
              (TcpSocket.set_writeOnceEstablished [] s) Hst)
    as (segments & -> & Hc & Hf).
  unfold TcpSocket.bind at 1, TcpSocket.get at 1.
  rewrite forEach_emit.
  exists segments. eexists. split; [reflexivity |].
  cbn. rewrite <- app_assoc. split; [reflexivity |]. split; [exact Hc |].
  split; [| reflexivity].
  eapply Forall_impl; [exact Hf |]. now intros q [? _].
Qed.

Lemma buffered_writes_precede_established_callbacks_witness :
  TcpSocket._state handshakenSocket = ESTABLISHED
  /\ exists segments s',
       TcpSocket.runTask FireEstablished handshakenSocket = (Ok tt, s')
       /\ TcpSocket.events s'
          = TcpSocket.events handshakenSocket
            ++ map SendPacket segments ++ [EstablishedCallback 0]
       /\ concat (map pk_data segments) = [104; 101; 108; 108; 111].
Proof.
  split; [reflexivity |].
  destruct (buffered_writes_precede_established_callbacks handshakenSocket
              eq_refl) as (segments & s' & Hrun & Hev & Hc & _).
  exists segments, s'. split; [exact Hrun |]. split; [exact Hev | exact Hc].
Defined.

Lemma ack_retires_packets_up_to_ack_witness :
  TcpSocket._state writingSocket <> INIT
  /\ inbound (peerPacket 7001 123456706 flagsAck []) writingSocket
  /\ fl_fin (pk_flags (peerPacket 7001 123456706 flagsAck [])) = false
  /\ fl_ack (pk_flags (peerPacket 7001 123456706 flagsAck [])) = true
  /\ In helloSegment (TcpSocket._sentPacketsUnacknowledged writingSocket)
  /\ ~ In helloSegment
         (List.filter (stillUnacknowledged 123456706)
            (TcpSocket._sentPacketsUnacknowledged writingSocket)).
Proof.
  assert (Hst : TcpSocket._state writingSocket <> INIT) by discriminate.
  assert (Hin : inbound (peerPacket 7001 123456706 flagsAck []) writingSocket)
    by (repeat split; reflexivity).
  assert (Hq : In helloSegment
                 (TcpSocket._sentPacketsUnacknowledged writingSocket))
    by (left; reflexivity).
  split; [exact Hst |]. split; [exact Hin |]. split; [reflexivity |].
  split; [reflexivity |]. split; [exact Hq |].
  destruct (ack_retires_packets_up_to_ack writingSocket
              (peerPacket 7001 123456706 flagsAck []) Hst Hin eq_refl eq_refl)
    as (_ & _ & _ & _ & _ & _ & Hrule).
  apply (Hrule helloSegment Hq). cbn. lia.
Defined.

(* ===================================================================== *)
(** * Part III: further properties of the code *)
(* ===================================================================== *)

(** ** Big-endian encoding and decoding *)

Section Endianness.

Lemma pow256_pos n : 0 < 256 ^ Z.of_nat n.
Proof. apply Z.pow_pos_nonneg; lia. Qed.

Lemma pow256_succ n : 256 ^ Z.of_nat (S n) = 256 * 256 ^ Z.of_nat n.
Proof. rewrite Nat2Z.inj_succ, Z.pow_succ_r by lia. reflexivity. Qed.

Lemma pow256_le6 n : (n <= 6)%nat -> 256 ^ Z.of_nat n <= 281474976710656.
Proof.
  intros H. change 281474976710656 with (256 ^ 6).
  apply Z.pow_le_mono_r; lia.
Qed.

Lemma toUnsigned_value l : toUnsignedIntFromBigEndian l = bigEndianValue l.
Proof.
  unfold toUnsignedIntFromBigEndian, reduce.
  enough (forall L l' i acc, (i + length l' = L)%nat ->
            reduce_from
              (fun acc byte index =>
                 acc + byte * 256 ^ Z.of_nat (L - index - 1)) i acc l'
            = acc + bigEndianValue l') as H
    by (rewrite (H (length l) l 0%nat 0); [lia | reflexivity]).
  intros L l'. induction l' as [|b l' IH]; intros i acc Hlen;
    cbn [reduce_from bigEndianValue length] in *; [lia |].
  rewrite IH by lia.
  replace (L - i - 1)%nat with (length l') by lia. lia.
Qed.

Lemma bigEndianValue_bound l :
  Forall isByte l -> 0 <= bigEndianValue l < 256 ^ Z.of_nat (length l).
Proof.
  induction 1 as [|b l Hb _ IH]; cbn [bigEndianValue length].
  - cbn. lia.
  - rewrite pow256_succ. unfold isByte in Hb.
    pose proof (pow256_pos (length l)). nia.
Qed.

Lemma bigEndianDigits_length n x : length (bigEndianDigits n x) = n.
Proof. unfold bigEndianDigits. now rewrite length_map, length_seq. Qed.

Lemma bigEndianDigits_succ n x :
  bigEndianDigits (S n) x
  = (x / 256 ^ Z.of_nat n) mod 256 :: bigEndianDigits n x.
Proof.
  unfold bigEndianDigits. cbn [seq map]. f_equal.
  - now replace (S n - 0 - 1)%nat with n by lia.
  - rewrite <- seq_shift, map_map. apply map_ext. intros i.
    now replace (S n - S i - 1)%nat with (n - i - 1)%nat by lia.
Qed.

Lemma bigEndianDigits_isByte n x : Forall isByte (bigEndianDigits n x).
Proof.
  unfold bigEndianDigits. apply Forall_map, Forall_forall. intros i _.
  unfold isByte. cbn. lia.
Qed.

Lemma bigEndianValue_digits n x :
  0 <= x -> bigEndianValue (bigEndianDigits n x) = x mod 256 ^ Z.of_nat n.
Proof.
  intros Hx. induction n as [|n IH].
  - cbn. now rewrite Z.mod_1_r.
  - rewrite bigEndianDigits_succ. cbn [bigEndianValue].
    rewrite bigEndianDigits_length, IH, pow256_succ.
    pose proof (pow256_pos n) as HP.
    rewrite (Z.mul_comm 256), Z.rem_mul_r by lia. lia.
Qed.

Lemma bigEndianDigits_add n x k :
  bigEndianDigits n (x + k * 256 ^ Z.of_nat n) = bigEndianDigits n x.
Proof.
  unfold bigEndianDigits. apply map_ext_in. intros i Hi.
  apply in_seq in Hi.
  replace (256 ^ Z.of_nat n)
    with (256 ^ Z.of_nat (S i) * 256 ^ Z.of_nat (n - i - 1)).
  2: { rewrite <- Z.pow_add_r by lia. f_equal. lia. }
  rewrite pow256_succ.
  pose proof (pow256_pos (n - i - 1)) as HP.
  replace (x + k * (256 * 256 ^ Z.of_nat i * 256 ^ Z.of_nat (n - i - 1)))
    with (x + (k * 256 ^ Z.of_nat i * 256) * 256 ^ Z.of_nat (n - i - 1))
    by ring.
  rewrite Z.div_add by lia.
  rewrite Z.add_mod, Z.mod_mul, Z.add_0_r, Z.mod_mod by lia. reflexivity.
Qed.

Lemma bigEndianDigits_value l :
  Forall isByte l -> bigEndianDigits (length l) (bigEndianValue l) = l.
Proof.
  induction 1 as [|b l Hb Hl IH]; [reflexivity |].
  cbn [length bigEndianValue]. rewrite bigEndianDigits_succ.
  pose proof (bigEndianValue_bound l Hl) as Hv.
  pose proof (pow256_pos (length l)) as HP. unfold isByte in Hb.
  f_equal.
  - rewrite (Z.add_comm (b * _)), Z.div_add by lia.
    rewrite (Z.div_small (bigEndianValue l)) by lia.
    cbn [Z.add]. apply Z.mod_small. lia.
  - rewrite (Z.add_comm (b * _)), bigEndianDigits_add. exact IH.
Qed.

Lemma toBigEndianFromInt_digits n x :
  (n <= 6)%nat -> 0 <= x < 256 ^ Z.of_nat n ->
  toBigEndianFromInt n x = Some (bigEndianDigits n x).
Proof.
  intros Hn Hx. pose proof (pow256_le6 n Hn) as HP.
  unfold toBigEndianFromInt, isSafeInteger.
  change (2 ^ 53) with 9007199254740992.
  destruct (Z.leb_spec (- (9007199254740992 - 1)) x); [| lia].
  destruct (Z.leb_spec x (9007199254740992 - 1)); [| lia].
  cbn [andb negb].
  destruct (Z.ltb_spec x 0); [lia |].
  destruct (Z.ltb_spec x 0); [lia |].
  destruct (Z.geb_spec x (256 ^ Z.of_nat n)); [lia |].
  reflexivity.
Qed.

End Endianness.

(** X1: encoding a number that fits into [n] bytes (at most six, so that
    every intermediate value is an exact double) and decoding the bytes
    gives the number back; the encoding has exactly [n] octets. *)
Theorem bigEndian_encode_then_decode (n : nat) (x : Z) :
  (n <= 6)%nat -> 0 <= x < 256 ^ Z.of_nat n ->
  exists bytes,
    toBigEndianFromInt n x = Some bytes
    /\ length bytes = n
    /\ Forall isByte bytes
    /\ toUnsignedIntFromBigEndian bytes = x.
Proof.
  intros Hn Hx. exists (bigEndianDigits n x).
  split; [now apply toBigEndianFromInt_digits |].
  split; [apply bigEndianDigits_length |].
  split; [apply bigEndianDigits_isByte |].
  rewrite toUnsigned_value, bigEndianValue_digits by lia.
  apply Z.mod_small. lia.
Qed.

Lemma bigEndian_encode_then_decode_witness :
  exists bytes,
    toBigEndianFromInt 2 0x0806 = Some bytes
    /\ length bytes = 2%nat
    /\ Forall isByte bytes
    /\ toUnsignedIntFromBigEndian bytes = 0x0806.
Proof.
  apply (bigEndian_encode_then_decode 2 0x0806); [lia | cbn; lia].
Defined.

(** X2: decoding at most six octets and encoding the number into as many
    bytes gives the octets back. *)
Theorem bigEndian_decode_then_encode (l : list Z) :
  Forall isByte l -> (length l <= 6)%nat ->
  toBigEndianFromInt (length l) (toUnsignedIntFromBigEndian l) = Some l.
Proof.
  intros Hl Hn. rewrite toUnsigned_value.
  rewrite toBigEndianFromInt_digits
    by (auto using bigEndianValue_bound).
  now rewrite bigEndianDigits_value.
Qed.

Lemma bigEndian_decode_then_encode_witness :
  toBigEndianFromInt (length [0xc0; 0xa8; 0x0d; 0x25])
    (toUnsignedIntFromBigEndian [0xc0; 0xa8; 0x0d; 0x25])
  = Some [0xc0; 0xa8; 0x0d; 0x25].
Proof.
  apply (bigEndian_decode_then_encode [0xc0; 0xa8; 0x0d; 0x25]).
  - repeat constructor; unfold isByte; lia.
  - cbn. lia.
Defined.

(** X3: for at most six bytes, [toBigEndianFromInt] throws exactly on the
    numbers outside [-256^n, 256^n), and encodes a negative number as its
    two's complement, that is as the number plus [256^n]. *)
Theorem toBigEndianFromInt_range (n : nat) (x : Z) :
  (n <= 6)%nat ->
  (toBigEndianFromInt n x = None
   <-> x < - 256 ^ Z.of_nat n \/ 256 ^ Z.of_nat n <= x)
  /\ (- 256 ^ Z.of_nat n <= x < 0 ->
      toBigEndianFromInt n x = Some (bigEndianDigits n (256 ^ Z.of_nat n + x))).
Proof.
  intros Hn. pose proof (pow256_le6 n Hn) as HP.
  pose proof (pow256_pos n) as HP0.
  unfold toBigEndianFromInt, isSafeInteger.
  change (2 ^ 53) with 9007199254740992.
  destruct (Z.leb_spec (- (9007199254740992 - 1)) x);
    destruct (Z.leb_spec x (9007199254740992 - 1));
    cbn [andb negb]; try (split; [split; [lia | reflexivity] | lia]).
  destruct (Z.ltb_spec x 0).
  - destruct (Z.ltb_spec (256 ^ Z.of_nat n + x) 0).
    + split; [split; [lia | reflexivity] | lia].
    + destruct (Z.geb_spec (256 ^ Z.of_nat n + x) (256 ^ Z.of_nat n));
        [lia |].
      split; [split; [discriminate | lia] | reflexivity].
  - destruct (Z.ltb_spec x 0); [lia |].
    destruct (Z.geb_spec x (256 ^ Z.of_nat n)).
    + split; [split; [lia | reflexivity] | lia].
    + split; [split; [discriminate | lia] | lia].
Qed.

Lemma toBigEndianFromInt_range_witness :
  (toBigEndianFromInt 2 (-2) = None
   <-> -2 < - 256 ^ Z.of_nat 2 \/ 256 ^ Z.of_nat 2 <= -2)
  /\ (- 256 ^ Z.of_nat 2 <= -2 < 0 ->
      toBigEndianFromInt 2 (-2)
      = Some (bigEndianDigits 2 (256 ^ Z.of_nat 2 + -2))).
Proof. apply (toBigEndianFromInt_range 2 (-2)). lia. Defined.

(** ** Addresses: integers, bit operations, equality, printing *)

(** X4: an address and its 32-bit integer determine each other:
    [fromInt] undoes [toInt], [toInt] undoes [fromInt] on every integer
    from 0 to [0xffffffff], and [fromInt] throws on every other integer. *)
Theorem ipv4_integer_round_trip (a : Ipv4Address.t) (x : Z) :
  Ipv4Address.wf a -> 0 <= x <= 0xffffffff ->
  Ipv4Address.fromInt (Ipv4Address.toInt a) = Some a
  /\ (exists b, Ipv4Address.fromInt x = Some b
                /\ Ipv4Address.wf b /\ Ipv4Address.toInt b = x)
  /\ (forall y, y < 0 \/ 0xffffffff < y -> Ipv4Address.fromInt y = None).
Proof.
  intros Ha Hx. split; [| split].
  - rewrite fromInt_ofInt by now apply toInt_range.
    now rewrite ofInt_toInt.
  - exists (ofInt x). split; [now apply fromInt_ofInt |].
    split; [apply wf_ofInt | now apply toInt_ofInt].
  - intros y Hy. unfold Ipv4Address.fromInt.
    destruct (Z.ltb_spec y 0); [reflexivity |].
    destruct (Z.gtb_spec y 0xffffffff); [reflexivity | lia].
Qed.

Lemma ipv4_integer_round_trip_witness :
  Ipv4Address.fromInt (Ipv4Address.toInt (ip 192 168 13 37))
  = Some (ip 192 168 13 37)
  /\ (exists b, Ipv4Address.fromInt 3232235521 = Some b
                /\ Ipv4Address.wf b /\ Ipv4Address.toInt b = 3232235521)
  /\ (forall y, y < 0 \/ 0xffffffff < y -> Ipv4Address.fromInt y = None).
Proof.
  apply (ipv4_integer_round_trip (ip 192 168 13 37) 3232235521).
  - split; [reflexivity |]. repeat constructor; cbn; lia.
  - lia.
Defined.

(** X5: the four bit operations never throw on addresses and are the bit
    operations on the unsigned 32-bit integers of the addresses, although
    JavaScript computes them on signed 32-bit integers. *)
Theorem ipv4_bit_operations (a b : Ipv4Address.t) :
  Ipv4Address.wf a -> Ipv4Address.wf b ->
  exists n c d e,
    Ipv4Address.bitNot a = Some n
    /\ Ipv4Address.bitAnd a b = Some c
    /\ Ipv4Address.bitOr a b = Some d
    /\ Ipv4Address.bitXor a b = Some e
    /\ Ipv4Address.wf n /\ Ipv4Address.wf c
    /\ Ipv4Address.wf d /\ Ipv4Address.wf e
    /\ Ipv4Address.toInt n = 0xffffffff - Ipv4Address.toInt a
    /\ Ipv4Address.toInt c
       = Z.land (Ipv4Address.toInt a) (Ipv4Address.toInt b)
    /\ Ipv4Address.toInt d
       = Z.lor (Ipv4Address.toInt a) (Ipv4Address.toInt b)
    /\ Ipv4Address.toInt e
       = Z.lxor (Ipv4Address.toInt a) (Ipv4Address.toInt b).
Proof.
  intros Ha Hb.
  pose proof (toInt_range a Ha) as Ra. pose proof (toInt_range b Hb) as Rb.
  do 4 eexists.
  split; [now apply bitNot_ofInt |].
  split; [now apply bitAnd_ofInt |].
  split; [now apply bitOr_ofInt |].
  split; [now apply bitXor_ofInt |].
  repeat (split; [apply wf_ofInt |]).
  split; [apply toInt_ofInt; lia |].
  split; [apply toInt_ofInt; now apply land_u32 |].
  split; [apply toInt_ofInt; now apply lor_u32 |].
  apply toInt_ofInt; now apply lxor_u32.
Qed.

Lemma ipv4_bit_operations_witness :
  exists n c d e,
    Ipv4Address.bitNot mask16 = Some n
    /\ Ipv4Address.bitAnd mask16 (ip 192 168 13 37) = Some c
    /\ Ipv4Address.bitOr mask16 (ip 192 168 13 37) = Some d
    /\ Ipv4Address.bitXor mask16 (ip 192 168 13 37) = Some e
    /\ Ipv4Address.wf n /\ Ipv4Address.wf c
    /\ Ipv4Address.wf d /\ Ipv4Address.wf e
    /\ Ipv4Address.toInt n = 0xffffffff - Ipv4Address.toInt mask16
    /\ Ipv4Address.toInt c
       = Z.land (Ipv4Address.toInt mask16)
                (Ipv4Address.toInt (ip 192 168 13 37))
    /\ Ipv4Address.toInt d
       = Z.lor (Ipv4Address.toInt mask16)
               (Ipv4Address.toInt (ip 192 168 13 37))
    /\ Ipv4Address.toInt e
       = Z.lxor (Ipv4Address.toInt mask16)
                (Ipv4Address.toInt (ip 192 168 13 37)).
Proof.
  apply (ipv4_bit_operations mask16 (ip 192 168 13 37)).
  - split; [reflexivity |]. repeat constructor; cbn; lia.
  - split; [reflexivity |]. repeat constructor; cbn; lia.
Defined.

(** X6: on MAC addresses, [equals] decides equality of the six octets,
    [toString] is injective (the device table is keyed by it), and
    [isRecipientOfTarget] holds exactly of the broadcast address and of
    the address itself. *)
Theorem mac_equality (a b : MacAddress.t) :
  MacAddress.wf a -> MacAddress.wf b ->
  (MacAddress.equals a b = true <-> a = b)
  /\ (MacAddress.toString a = MacAddress.toString b <-> a = b)
  /\ (MacAddress.isRecipientOfTarget a b = true
      <-> b = MacAddress.BroadcastAddress \/ b = a).
Proof.
  intros Ha Hb. split; [now apply mac_equals_true_iff |].
  split.
  - split; [now apply mac_toString_inj | now intros ->].
  - unfold MacAddress.isRecipientOfTarget.
    rewrite orb_true_iff, !mac_equals_true_iff
      by auto using wf_broadcast_mac.
    reflexivity.
Qed.

Lemma mac_equality_witness :
  (MacAddress.equals emulatorMac hostMac = true <-> emulatorMac = hostMac)
  /\ (MacAddress.toString emulatorMac = MacAddress.toString hostMac
      <-> emulatorMac = hostMac)
  /\ (MacAddress.isRecipientOfTarget emulatorMac hostMac = true
      <-> hostMac = MacAddress.BroadcastAddress \/ hostMac = emulatorMac).
Proof.
  apply (mac_equality emulatorMac hostMac).
  - split; [reflexivity |]. repeat constructor; cbn; lia.
  - split; [reflexivity |]. repeat constructor; cbn; lia.
Defined.

(** ** Checksum fields *)

Section ChecksumField.

Lemma wordSum_bound_any l :
  Forall isByte l ->
  0 <= wordSum l <= 65535 * ((Z.of_nat (length l) + 1) / 2).
Proof.
  intros Hb. pose proof (sum_from_bound l 0%nat Hb) as H.
  cbn [Nat.even] in H. unfold wordSum, reduce. lia.
Qed.

Lemma wordSum_pair a b : wordSum [a; b] = a * 256 + b.
Proof. unfold wordSum, reduce. cbn. lia. Qed.

Lemma wordSum_snoc_zero l : wordSum (l ++ [0]) = wordSum l.
Proof.
  unfold wordSum, reduce. rewrite sum_from_app. cbn [reduce_from].
  destruct (Nat.even (0 + length l)); lia.
Qed.

Lemma sum_from_zero_iff l : forall i,
  Forall isByte l ->
  reduce_from
    (fun acc byte index =>
       if Nat.even index then acc + byte * 256 else acc + byte) i 0 l = 0
  <-> Forall (fun b => b = 0) l.
Proof.
  induction l as [|x l IH]; intros i Hb.
  - cbn. split; [constructor | reflexivity].
  - apply Forall_cons in Hb. destruct Hb as [Hx Hl]. unfold isByte in Hx.
    cbn [reduce_from]. rewrite sum_from_acc.
    pose proof (sum_from_bound l (S i) Hl) as Hr.
    specialize (IH (S i) Hl).
    split.
    + intros H. destruct (Nat.even i).
      * constructor; [lia |]. apply IH. lia.
      * constructor; [lia |]. apply IH. lia.
    + intros H. apply Forall_cons in H. destruct H as [-> H].
      apply IH in H. rewrite H. destruct (Nat.even i); lia.
Qed.

Lemma internetChecksum_spec data :
  Forall isByte data -> Z.of_nat (length data) <= 65534 ->
  0 <= internetChecksum data <= 65535
  /\ (wordSum data - internetChecksum data) mod 65535 = 0
  /\ (internetChecksum data = 0 <-> wordSum data = 0).
Proof.
  intros Hb Hlen. rewrite internetChecksum_unfold.
  apply foldCarries_spec.
  pose proof (wordSum_bound_any data Hb). pow_consts. lia.
Qed.

(** The idiom of the emit paths: the checksum is computed over the data
    with a zeroed field, and its complement written into the field. *)
Lemma checksum_field_verifies pre post :
  Forall isByte pre -> Forall isByte post ->
  Nat.even (length pre) = true ->
  Z.of_nat (length pre) + 2 + Z.of_nat (length post) <= 65534 ->
  internetChecksum
    (pre ++ complementBytes (internetChecksum (pre ++ [0; 0] ++ post))
         ++ post)
  = 0xffff.
Proof.
  intros Hpre Hpost He Hlen.
  set (c := internetChecksum (pre ++ [0; 0] ++ post)).
  assert (Hall : Forall isByte (pre ++ [0; 0] ++ post)).
  { apply Forall_app; split; [assumption |].
    repeat constructor; try assumption; unfold isByte; lia. }
  assert (Hl0 : Z.of_nat (length (pre ++ [0; 0] ++ post)) <= 65534).
  { rewrite !length_app. cbn [length]. lia. }
  destruct (internetChecksum_spec _ Hall Hl0) as (Hc & Hmod & Hz).
  fold c in Hc, Hmod, Hz.
  assert (HS : wordSum (pre ++ [0; 0] ++ post) = wordSum pre + wordSum post).
  { rewrite wordSum_app_even by assumption.
    rewrite (wordSum_app_even [0; 0]) by reflexivity.
    rewrite wordSum_pair. lia. }
  rewrite HS in Hmod, Hz.
  rewrite complementBytes_spec by lia.
  set (h := (65535 - c) / 256). set (l := (65535 - c) mod 256).
  assert (Hall' : Forall isByte (pre ++ [h; l] ++ post)).
  { apply Forall_app; split; [assumption |].
    repeat constructor; try assumption; unfold isByte, h, l; lia. }
  assert (Hl1 : Z.of_nat (length (pre ++ [h; l] ++ post)) <= 65534).
  { rewrite !length_app. cbn [length]. lia. }
  destruct (internetChecksum_spec _ Hall' Hl1) as (Hr & Hmod' & Hz').
  assert (HS' : wordSum (pre ++ [h; l] ++ post)
                = wordSum pre + wordSum post + (65535 - c)).
  { rewrite wordSum_app_even by assumption.
    rewrite (wordSum_app_even [h; l]) by reflexivity.
    rewrite wordSum_pair. unfold h, l. lia. }
  rewrite HS' in Hmod', Hz'.
  pose proof (wordSum_bound_any pre Hpre).
  pose proof (wordSum_bound_any post Hpost).
  set (r := internetChecksum (pre ++ [h; l] ++ post)) in *.
  assert (r <> 0) by lia.
  lia.
Qed.

Lemma Uint8Array_bytes l : Forall isByte l -> Uint8Array l = l.
Proof.
  induction 1 as [|b l Hb _ IH]; [reflexivity |].
  unfold Uint8Array in *. cbn [map]. rewrite IH. f_equal.
  unfold ToUint8, isByte in *. lia.
Qed.

Lemma encode2 x :
  0 <= x <= 65535 ->
  toBigEndianFromInt 2 x = Some [x / 256; x mod 256]
  /\ toUnsignedIntFromBigEndian [x / 256; x mod 256] = x
  /\ isByte (x / 256) /\ isByte (x mod 256).
Proof.
  intros Hx. split; [| split].
  - rewrite toBigEndianFromInt_digits by (cbn; lia).
    unfold bigEndianDigits. cbn [seq map Nat.sub].
    change (256 ^ Z.of_nat 1) with 256. change (256 ^ Z.of_nat 0) with 1.
    rewrite Z.div_1_r. do 2 f_equal. lia.
  - rewrite toUnsigned_value. cbn [bigEndianValue length].
    change (256 ^ Z.of_nat 1) with 256. change (256 ^ Z.of_nat 0) with 1.
    lia.
  - unfold isByte. lia.
Qed.

Lemma encode4 x :
  0 <= x <= 0xffffffff ->
  toBigEndianFromInt 4 x
  = Some [x / 16777216; x / 65536 mod 256; x / 256 mod 256; x mod 256]
  /\ toUnsignedIntFromBigEndian
       [x / 16777216; x / 65536 mod 256; x / 256 mod 256; x mod 256] = x
  /\ isByte (x / 16777216) /\ isByte (x / 65536 mod 256)
  /\ isByte (x / 256 mod 256) /\ isByte (x mod 256).
Proof.
  intros Hx. split; [| split].
  - rewrite toBigEndianFromInt_digits by (cbn; lia).
    unfold bigEndianDigits. cbn [seq map Nat.sub].
    change (256 ^ Z.of_nat 3) with 16777216.
    change (256 ^ Z.of_nat 2) with 65536.
    change (256 ^ Z.of_nat 1) with 256. change (256 ^ Z.of_nat 0) with 1.
    rewrite Z.div_1_r. do 2 f_equal. lia.
  - rewrite toUnsigned_value. cbn [bigEndianValue length].
    change (256 ^ Z.of_nat 3) with 16777216.
    change (256 ^ Z.of_nat 2) with 65536.
    change (256 ^ Z.of_nat 1) with 256. change (256 ^ Z.of_nat 0) with 1.
    lia.
  - unfold isByte. lia.
Qed.

End ChecksumField.

(** X7: on up to 65534 octets the checksum is a 16-bit number congruent
    modulo [0xffff] to the sum of the big-endian 16-bit words, and it is 0
    only for data that is all zero; a trailing zero byte never changes it,
    so data of odd length counts as padded with a zero byte. *)
Theorem internetChecksum_is_ones_complement_sum (data : list Z) :
  Forall isByte data -> Z.of_nat (length data) <= 65534 ->
  0 <= internetChecksum data <= 0xffff
  /\ (wordSum data - internetChecksum data) mod 0xffff = 0
  /\ (internetChecksum data = 0 <-> Forall (fun b => b = 0) data)
  /\ internetChecksum (data ++ [0]) = internetChecksum data.
Proof.
  intros Hb Hlen.
  destruct (internetChecksum_spec data Hb Hlen) as (Hr & Hm & Hz).
  split; [exact Hr |]. split; [exact Hm |]. split.
  - rewrite Hz. unfold wordSum, reduce. now apply sum_from_zero_iff.
  - now rewrite !internetChecksum_unfold, wordSum_snoc_zero.
Qed.

Lemma internetChecksum_is_ones_complement_sum_witness :
  0 <= internetChecksum [0x45; 0x00; 0x00] <= 0xffff
  /\ (wordSum [0x45; 0x00; 0x00] - internetChecksum [0x45; 0x00; 0x00])
       mod 0xffff = 0
  /\ (internetChecksum [0x45; 0x00; 0x00] = 0
      <-> Forall (fun b => b = 0) [0x45; 0x00; 0x00])
  /\ internetChecksum ([0x45; 0x00; 0x00] ++ [0])
     = internetChecksum [0x45; 0x00; 0x00].
Proof.
  apply (internetChecksum_is_ones_complement_sum [0x45; 0x00; 0x00]).
  - repeat constructor; unfold isByte; lia.
  - cbn. lia.
Defined.

(** ** The wire format of TCP segments *)

Section TcpWire.

Lemma toBigEndianFromInt_too_large n x :
  (n <= 6)%nat -> 256 ^ Z.of_nat n <= x -> toBigEndianFromInt n x = None.
Proof.
  intros Hn Hx. pose proof (pow256_pos n) as HP.
  unfold toBigEndianFromInt.
  destruct (negb (isSafeInteger x)); [reflexivity |].
  destruct (Z.ltb_spec x 0); [lia |].
  destruct (Z.ltb_spec x 0); [lia |].
  destruct (Z.geb_spec x (256 ^ Z.of_nat n)); [reflexivity | lia].
Qed.

Lemma tcp_flag_bytes fl :
  let b12 := bor (shl ((20 + Z.of_nat 0) / 4) 4) (Tcp.flagBit (fl_ns fl) 0x01) in
  let b13 :=
    bor (bor (bor (bor (bor (bor (bor
      (Tcp.flagBit (fl_cwr fl) 0x80)
      (Tcp.flagBit (fl_ece fl) 0x40))
      (Tcp.flagBit (fl_urg fl) 0x20))
      (Tcp.flagBit (fl_ack fl) 0x10))
      (Tcp.flagBit (fl_psh fl) 0x08))
      (Tcp.flagBit (fl_rst fl) 0x04))
      (Tcp.flagBit (fl_syn fl) 0x02))
      (Tcp.flagBit (fl_fin fl) 0x01) in
  (0 <=? b12) && (b12 <? 256) && (0 <=? b13) && (b13 <? 256) = true
  /\ shr b12 4 = 5
  /\ {| fl_ns := negb (band b12 0x01 =? 0);
        fl_cwr := negb (band b13 0x80 =? 0);
        fl_ece := negb (band b13 0x40 =? 0);
        fl_urg := negb (band b13 0x20 =? 0);
        fl_ack := negb (band b13 0x10 =? 0);
        fl_psh := negb (band b13 0x08 =? 0);
        fl_rst := negb (band b13 0x04 =? 0);
        fl_syn := negb (band b13 0x02 =? 0);
        fl_fin := negb (band b13 0x01 =? 0) |} = fl.
Proof.
  destruct fl as [[] [] [] [] [] [] [] [] []]; vm_compute; auto.
Qed.

(** What the send callback hands to the IPv4 layer for a plain segment:
    sixteen header bytes, the complement of the checksum of pseudo-header
    and segment with a zeroed field, a zero urgent pointer, the data. *)
Lemma onSendPacket_shape p :
  Ipv4Address.wf (pk_srcIp p) -> Ipv4Address.wf (pk_destIp p) ->
  0 <= pk_srcPort p <= 65535 -> 0 <= pk_destPort p <= 65535 ->
  0 <= pk_seq p <= 0xffffffff -> 0 <= pk_ack p <= 0xffffffff ->
  plainSegment p -> Forall isByte (pk_data p) ->
  Z.of_nat (length (pk_data p)) <= 65502 ->
  exists s0 s1 d0 d1 q0 q1 q2 q3 k0 k1 k2 k3 b12 b13 l0 l1 pre,
    toUnsignedIntFromBigEndian [s0; s1] = pk_srcPort p
    /\ toUnsignedIntFromBigEndian [d0; d1] = pk_destPort p
    /\ toUnsignedIntFromBigEndian [q0; q1; q2; q3] = pk_seq p
    /\ toUnsignedIntFromBigEndian [k0; k1; k2; k3] = pk_ack p
    /\ shr b12 4 = 5
    /\ {| fl_ns := negb (band b12 0x01 =? 0);
          fl_cwr := negb (band b13 0x80 =? 0);
          fl_ece := negb (band b13 0x40 =? 0);
          fl_urg := negb (band b13 0x20 =? 0);
          fl_ack := negb (band b13 0x10 =? 0);
          fl_psh := negb (band b13 0x08 =? 0);
          fl_rst := negb (band b13 0x04 =? 0);
          fl_syn := negb (band b13 0x02 =? 0);
          fl_fin := negb (band b13 0x01 =? 0) |} = pk_flags p
    /\ toBigEndianFromInt 2 (20 + Z.of_nat (length (pk_data p)))
       = Some [l0; l1]
    /\ pre = Ipv4Address.bytes (pk_srcIp p) ++ Ipv4Address.bytes (pk_destIp p)
             ++ [0; 6; l0; l1]
             ++ [s0; s1; d0; d1; q0; q1; q2; q3; k0; k1; k2; k3;
                 b12; b13; 255; 255]
    /\ Forall isByte pre
    /\ length pre = 28%nat
    /\ Tcp.onSendPacket p
       = Some {| ip_srcIp := pk_srcIp p;
                 ip_destIp := pk_destIp p;
                 ip_protocol := 6;
                 ip_payload :=
                   [s0; s1; d0; d1; q0; q1; q2; q3; k0; k1; k2; k3;
                    b12; b13; 255; 255]
                   ++ complementBytes
                        (internetChecksum
                           (pre ++ [0; 0] ++ [0; 0] ++ pk_data p))
                   ++ [0; 0] ++ pk_data p;
                 ip_dontFragment := true;
                 ip_dscp := 0; ip_ecn := 0; ip_timeToLive := 64 |}.
Proof.
  destruct p as [src dst sport dport sq ak fl ws up opts data].
  unfold plainSegment. cbn [pk_srcIp pk_destIp pk_srcPort pk_destPort pk_seq
    pk_ack pk_flags pk_windowSize pk_urgentPointer pk_options pk_data].
  intros Hsrc Hdst Hsp Hdp Hsq Hak (-> & -> & ->) Hdata Hlen.
  assert (B0 : isByte 0) by (unfold isByte; lia).
  assert (B6 : isByte 6) by (unfold isByte; lia).
  assert (B255 : isByte 255) by (unfold isByte; lia).
  destruct (encode2 (20 + Z.of_nat (length data)) ltac:(lia))
    as (El & _ & ? & ?).
  destruct (tcp_flag_bytes fl) as (Hb & Hoff & Hfl).
  cbv zeta in Hb, Hoff, Hfl.
  set (b12 := bor (shl ((20 + Z.of_nat 0) / 4) 4)
                  (Tcp.flagBit (fl_ns fl) 0x01)) in *.
  set (b13 := bor _ (Tcp.flagBit (fl_fin fl) 0x01)) in *.
  apply andb_prop in Hb. destruct Hb as [Hb Hb4].
  apply andb_prop in Hb. destruct Hb as [Hb Hb3].
  apply andb_prop in Hb. destruct Hb as [Hb1 Hb2].
  assert (B12 : isByte b12)
    by (split; [now apply Z.leb_le | now apply Z.ltb_lt]).
  assert (B13 : isByte b13)
    by (split; [now apply Z.leb_le | now apply Z.ltb_lt]).
  clear Hb1 Hb2 Hb3 Hb4.
  destruct (wf_octets src Hsrc) as (a0 & a1 & a2 & a3 & -> & ? & ? & ? & ?).
  destruct (wf_octets dst Hdst) as (e0 & e1 & e2 & e3 & -> & ? & ? & ? & ?).
  destruct (encode2 sport Hsp) as (Es & Vs & ? & ?).
  destruct (encode2 dport Hdp) as (Ed & Vd & ? & ?).
  destruct (encode4 sq Hsq) as (Eq & Vq & ? & ? & ? & ?).
  destruct (encode4 ak Hak) as (Ek & Vk & ? & ? & ? & ?).
  exists (sport / 256), (sport mod 256), (dport / 256), (dport mod 256),
    (sq / 16777216), (sq / 65536 mod 256), (sq / 256 mod 256), (sq mod 256),
    (ak / 16777216), (ak / 65536 mod 256), (ak / 256 mod 256), (ak mod 256),
    b12, b13, ((20 + Z.of_nat (length data)) / 256),
    ((20 + Z.of_nat (length data)) mod 256).
  eexists.
  split; [exact Vs |]. split; [exact Vd |].
  split; [exact Vq |]. split; [exact Vk |].
  split; [exact Hoff |]. split; [exact Hfl |].
  split; [exact El |]. split; [reflexivity |].
  assert (Hpre : Forall isByte
    ([a0; a1; a2; a3] ++ [e0; e1; e2; e3]
     ++ [0; 6; (20 + Z.of_nat (length data)) / 256;
         (20 + Z.of_nat (length data)) mod 256]
     ++ [sport / 256; sport mod 256; dport / 256; dport mod 256;
         sq / 16777216; sq / 65536 mod 256; sq / 256 mod 256; sq mod 256;
         ak / 16777216; ak / 65536 mod 256; ak / 256 mod 256; ak mod 256;
         b12; b13; 255; 255])).
  { cbn [app]. repeat (constructor; [assumption |]). constructor. }
  split; [exact Hpre |]. split; [reflexivity |].
  unfold Tcp.onSendPacket.
  cbn [pk_srcIp pk_destIp pk_srcPort pk_destPort pk_seq pk_ack pk_flags
       pk_windowSize pk_urgentPointer pk_options pk_data default length].
  rewrite Es, Ed, Eq, Ek.
  change (toBigEndianFromInt 2 65535) with (Some [255; 255]).
  change (toBigEndianFromInt 2 0) with (Some [0; 0]).
  fold b12. fold b13.
  cbn [app].
  rewrite Uint8Array_bytes.
  2: { cbn [app] in Hpre.
       repeat (apply Forall_cons in Hpre; destruct Hpre as [_ Hpre]).
       repeat (constructor; [assumption |]).
       exact Hdata. }
  unfold tcpChecksum, pseudoChecksum.
  match goal with
  | |- context [toBigEndianFromInt 2 (Z.of_nat (length ?l))] =>
      replace (Z.of_nat (length l)) with (20 + Z.of_nat (length data))
        by (cbn [length]; lia)
  end.
  rewrite El. cbn [Ipv4Address.bytes app].
  unfold Udp.store. cbn [insert list_insert].
  unfold Tcp.ipProtocolNumber, complementBytes.
  do 3 f_equal.
  unfold ToUint8. rewrite <- !band_0xff.
  do 16 f_equal.
  rewrite !band_0xff. do 2 f_equal. now rewrite Z.mod_mod by lia.
Qed.

End TcpWire.

(** X8: a plain segment (as a socket builds it) whose ports, seq and ack
    fit their header fields is serialized into 20 header bytes and the
    data, and the checksum the receiving side computes over the emitted
    frame is [0xffff]. *)
Theorem tcp_onSendPacket_checksum_verifies (p : TcpPacket) :
  Ipv4Address.wf (pk_srcIp p) -> Ipv4Address.wf (pk_destIp p) ->
  0 <= pk_srcPort p <= 65535 -> 0 <= pk_destPort p <= 65535 ->
  0 <= pk_seq p <= 0xffffffff -> 0 <= pk_ack p <= 0xffffffff ->
  plainSegment p -> Forall isByte (pk_data p) ->
  Z.of_nat (length (pk_data p)) <= 65502 ->
  exists frame,
    Tcp.onSendPacket p = Some frame
    /\ ip_protocol frame = 0x06
    /\ ip_srcIp frame = pk_srcIp p /\ ip_destIp frame = pk_destIp p
    /\ length (ip_payload frame) = (20 + length (pk_data p))%nat
    /\ Tcp.receivedChecksum frame = Some 0xffff.
Proof.
  intros Hsrc Hdst Hsp Hdp Hsq Hak Hplain Hdata Hlen.
  destruct (onSendPacket_shape p Hsrc Hdst Hsp Hdp Hsq Hak Hplain Hdata Hlen)
    as (s0 & s1 & d0 & d1 & q0 & q1 & q2 & q3 & k0 & k1 & k2 & k3
        & b12 & b13 & l0 & l1 & pre & _ & _ & _ & _ & _ & _ & El & Epre
        & Bpre & Lpre & E).
  eexists. split; [exact E |].
  split; [reflexivity |]. split; [reflexivity |]. split; [reflexivity |].
  split; [reflexivity |].
  unfold Tcp.receivedChecksum, tcpChecksum, pseudoChecksum.
  cbn [ip_srcIp ip_destIp ip_payload].
  match goal with
  | |- context [toBigEndianFromInt 2 (Z.of_nat (length ?l))] =>
      replace (Z.of_nat (length l)) with (20 + Z.of_nat (length (pk_data p)))
        by (cbn [length app complementBytes]; lia)
  end.
  rewrite El. f_equal.
  set (c := internetChecksum (pre ++ [0; 0] ++ [0; 0] ++ pk_data p)).
  transitivity
    (internetChecksum (pre ++ complementBytes c ++ [0; 0] ++ pk_data p)).
  - f_equal. rewrite Epre, <- !app_assoc. reflexivity.
  - apply checksum_field_verifies.
    + exact Bpre.
    + repeat constructor; try exact Hdata; unfold isByte; lia.
    + now rewrite Lpre.
    + rewrite Lpre. cbn [length app]. lia.
Qed.

Lemma tcp_onSendPacket_checksum_verifies_witness :
  exists frame,
    Tcp.onSendPacket helloSegment = Some frame
    /\ ip_protocol frame = 0x06
    /\ ip_srcIp frame = pk_srcIp helloSegment
    /\ ip_destIp frame = pk_destIp helloSegment
    /\ length (ip_payload frame) = (20 + length (pk_data helloSegment))%nat
    /\ Tcp.receivedChecksum frame = Some 0xffff.
Proof.
  apply (tcp_onSendPacket_checksum_verifies helloSegment).
  - split; [reflexivity |]. repeat constructor; cbn; lia.
  - split; [reflexivity |]. repeat constructor; cbn; lia.
  - cbn; lia.
  - cbn; lia.
  - cbn; lia.
  - cbn; lia.
  - repeat split.
  - repeat constructor; unfold isByte; lia.
  - cbn; lia.
Defined.

(** X9: what the handler decodes from the frame it emitted for a plain
    segment is that segment, with the window size, the urgent pointer and
    the options read as [0xffff], [0] and the empty array. *)
Theorem tcp_segment_round_trip (p : TcpPacket) :
  Ipv4Address.wf (pk_srcIp p) -> Ipv4Address.wf (pk_destIp p) ->
  0 <= pk_srcPort p <= 65535 -> 0 <= pk_destPort p <= 65535 ->
  0 <= pk_seq p <= 0xffffffff -> 0 <= pk_ack p <= 0xffffffff ->
  plainSegment p -> Forall isByte (pk_data p) ->
  Z.of_nat (length (pk_data p)) <= 65502 ->
  option_map Tcp.tcpPacketOf (Tcp.onSendPacket p) = Some (asDecoded p).
Proof.
  intros Hsrc Hdst Hsp Hdp Hsq Hak Hplain Hdata Hlen.
  destruct (onSendPacket_shape p Hsrc Hdst Hsp Hdp Hsq Hak Hplain Hdata Hlen)
    as (s0 & s1 & d0 & d1 & q0 & q1 & q2 & q3 & k0 & k1 & k2 & k3
        & b12 & b13 & l0 & l1 & pre & Vs & Vd & Vq & Vk & Hoff & Hfl & _ & _
        & _ & _ & E).
  rewrite E. cbn [option_map]. f_equal.
  unfold Tcp.tcpPacketOf, Tcp.flagAt, Tcp.byteAt, complementBytes.
  cbn [ip_srcIp ip_destIp ip_payload app nth].
  rewrite Hoff. change (Z.to_nat (5 * 4)) with 20%nat.
  cbn [slice firstn skipn Nat.sub].
  rewrite Vs, Vd, Vq, Vk, Hfl.
  change (toUnsignedIntFromBigEndian [255; 255]) with 65535.
  change (toUnsignedIntFromBigEndian [0; 0]) with 0.
  destruct p; reflexivity.
Qed.

Lemma tcp_segment_round_trip_witness :
  option_map Tcp.tcpPacketOf (Tcp.onSendPacket helloSegment)
  = Some (asDecoded helloSegment).
Proof.
  apply (tcp_segment_round_trip helloSegment).
  - split; [reflexivity |]. repeat constructor; cbn; lia.
  - split; [reflexivity |]. repeat constructor; cbn; lia.
  - cbn; lia.
  - cbn; lia.
  - cbn; lia.
  - cbn; lia.
  - repeat split.
  - repeat constructor; unfold isByte; lia.
  - cbn; lia.
Defined.

(** X10: the send callback throws on a segment whose seq or ack is 2^32
    or more: nothing in the socket wraps [_seq] or [_ack], and
    [toBigEndianFromInt] refuses what does not fit into four bytes. *)
Theorem tcp_onSendPacket_throws_past_32_bits (p : TcpPacket) :
  0x100000000 <= pk_seq p \/ 0x100000000 <= pk_ack p ->
  Tcp.onSendPacket p = None.
Proof.
  intros H. unfold Tcp.onSendPacket.
  destruct (toBigEndianFromInt 2 (pk_srcPort p)); [| reflexivity].
  destruct (toBigEndianFromInt 2 (pk_destPort p)); [| reflexivity].
  destruct H as [H | H].
  - now rewrite (toBigEndianFromInt_too_large 4 (pk_seq p))
      by (change (256 ^ Z.of_nat 4) with 4294967296; lia).
  - destruct (toBigEndianFromInt 4 (pk_seq p)); [| reflexivity].
    now rewrite (toBigEndianFromInt_too_large 4 (pk_ack p))
      by (change (256 ^ Z.of_nat 4) with 4294967296; lia).
Qed.

Lemma tcp_onSendPacket_throws_past_32_bits_witness :
  Tcp.onSendPacket (peerPacket 0x100000000 0 flagsAck []) = None.
Proof.
  apply (tcp_onSendPacket_throws_past_32_bits
           (peerPacket 0x100000000 0 flagsAck [])).
  left. cbn. lia.
Defined.

(** ** The checksum of emitted UDP datagrams *)

Section UdpWire.

(** The idiom of the UDP and IPv4 emit paths: the checksum is computed
    with the field at [0xffff], and its complement written into the
    field. *)
Lemma checksum_field_ones_placeholder pre post :
  Forall isByte pre -> Forall isByte post ->
  Nat.even (length pre) = true ->
  Z.of_nat (length pre) + 2 + Z.of_nat (length post) <= 65534 ->
  let c := internetChecksum (pre ++ [255; 255] ++ post) in
  1 <= c <= 65535
  /\ (c = 65535 \/
      internetChecksum
        (pre ++ [(65535 - c) / 256; (65535 - c) mod 256] ++ post) = 65535).
Proof.
  intros Hpre Hpost He Hlen c.
  assert (Hall : Forall isByte (pre ++ [255; 255] ++ post)).
  { apply Forall_app; split; [assumption |].
    repeat constructor; try assumption; unfold isByte; lia. }
  assert (Hl0 : Z.of_nat (length (pre ++ [255; 255] ++ post)) <= 65534).
  { rewrite !length_app. cbn [length]. lia. }
  destruct (internetChecksum_spec _ Hall Hl0) as (Hc & Hmod & Hz).
  fold c in Hc, Hmod, Hz.
  assert (HS : wordSum (pre ++ [255; 255] ++ post)
               = wordSum pre + wordSum post + 65535).
  { rewrite wordSum_app_even by assumption.
    rewrite (wordSum_app_even [255; 255]) by reflexivity.
    rewrite wordSum_pair. lia. }
  rewrite HS in Hmod, Hz.
  pose proof (wordSum_bound_any pre Hpre).
  pose proof (wordSum_bound_any post Hpost).
  split; [lia |].
  destruct (Z.eq_dec c 65535) as [-> | Hne]; [now left | right].
  set (h := (65535 - c) / 256). set (l := (65535 - c) mod 256).
  assert (Hall' : Forall isByte (pre ++ [h; l] ++ post)).
  { apply Forall_app; split; [assumption |].
    repeat constructor; try assumption; unfold isByte, h, l; lia. }
  assert (Hl1 : Z.of_nat (length (pre ++ [h; l] ++ post)) <= 65534).
  { rewrite !length_app. cbn [length]. lia. }
  destruct (internetChecksum_spec _ Hall' Hl1) as (Hr & Hmod' & Hz').
  assert (HS' : wordSum (pre ++ [h; l] ++ post)
                = wordSum pre + wordSum post + (65535 - c)).
  { rewrite wordSum_app_even by assumption.
    rewrite (wordSum_app_even [h; l]) by reflexivity.
    rewrite wordSum_pair. unfold h, l. lia. }
  rewrite HS' in Hmod', Hz'.
  set (r := internetChecksum (pre ++ [h; l] ++ post)) in *.
  assert (r <> 0) by lia.
  lia.
Qed.

End UdpWire.



(** ** The router's device table *)

Section RouterFacts.
Variables (mac0 : MacAddress.t) (ip0 : Ipv4Address.t).
Hypothesis Hip0 : Ipv4Address.wf ip0.

Lemma reachableOnce_reachable r0 r : reachableOnce r0 r -> reachable r0 r.
Proof.
  induction 1 as [| r mac res r' _ IH _ Hreg | r mac res r' _ IH Hget].
  - apply reachable_init.
  - apply (reachable_call r0 r (CallRegisterDevice mac) res r' IH Hreg).
  - apply (reachable_call r0 r (CallGetOrRegisterDevice mac) res r' IH Hget).
Qed.

Lemma tableLinked_new : tableLinked (Router.new mac0 ip0 mask16).
Proof.
  intros x m. unfold Router.new.
  cbn [Router._registerDevice Router._devices Router._addressTable
       dev_mac dev_ip].
  intros [[<- <-] | [_ H]] %lookup_insert_Some;
    [| now rewrite lookup_empty in H].
  eexists. rewrite lookup_insert_eq. split; reflexivity.
Qed.

Lemma tableLinked_register r mac d r' :
  RouterInv mac0 ip0 r -> tableLinked r ->
  Router.getDeviceByMac r mac = None ->
  Router.registerDevice r mac = Some (Some d, r') ->
  tableLinked r'.
Proof.
  intros Hinv Hl Hnew Hreg.
  destruct (registerDevice_facts mac0 ip0 Hip0 r mac d r' Hinv Hreg)
    as (Hmac & _ & -> & _ & Hfree).
  intros x m.
  cbn [Router._registerDevice Router._devices Router._addressTable].
  intros [[<- <-] | [Hne H]] %lookup_insert_Some.
  - exists d. now rewrite lookup_insert_eq.
  - destruct (Hl x m H) as (d' & Hd' & Hx).
    exists d'. split; [| exact Hx].
    rewrite lookup_insert_ne; [exact Hd' |].
    intros E. unfold Router.getDeviceByMac in Hnew.
    rewrite <- Hmac, E in Hnew. congruence.
Qed.

Lemma tableLinked_reachableOnce r :
  reachableOnce (Router.new mac0 ip0 mask16) r -> tableLinked r.
Proof.
  induction 1 as [| r mac res r' Hr IH Hnew Hreg | r mac res r' Hr IH Hget].
  - apply tableLinked_new.
  - pose proof (RouterInv_reachable mac0 ip0 Hip0 r
                  (reachableOnce_reachable _ _ Hr)) as Hinv.
    destruct res as [d |].
    + eapply tableLinked_register; eassumption.
    + now rewrite (registerDevice_undefined _ _ _ Hreg).
  - pose proof (RouterInv_reachable mac0 ip0 Hip0 r
                  (reachableOnce_reachable _ _ Hr)) as Hinv.
    unfold Router.getOrRegisterDevice in Hget.
    destruct (Router.getDeviceByMac r mac) as [d0 |] eqn:Hfound.
    + injection Hget as _ <-. exact IH.
    + destruct res as [d |].
      * eapply tableLinked_register; eassumption.
      * now rewrite (registerDevice_undefined _ _ _ Hget).
Qed.

Lemma wf_device_ip r k d :
  RouterInv mac0 ip0 r -> Router._devices r !! k = Some d ->
  Ipv4Address.wf (dev_ip d).
Proof.
  intros (_ & _ & _ & Hdev) Hd.
  destruct (Hdev k d Hd) as (_ & _ & [-> | (Hwf & _)]); assumption.
Qed.

End RouterFacts.



(** X13: as long as [registerDevice] is only called for MACs that are
    not in the table (which is how [getOrRegisterDevice] calls it), the
    two lookups agree: the device found under an address has that
    address, and is the device found under its own MAC. *)
Theorem router_lookups_agree (mac0 : MacAddress.t) (ip0 : Ipv4Address.t)
    (r : Router.t) (a : Ipv4Address.t) (d : Device) :
  Ipv4Address.wf ip0 -> Ipv4Address.wf a ->
  reachableOnce (Router.new mac0 ip0 mask16) r ->
  Router.getDeviceByIp r a = Some d ->
  dev_ip d = a /\ Router.getDeviceByMac r (dev_mac d) = Some d.
Proof.
  intros Hip0 Ha Hreach Hget.
  pose proof (RouterInv_reachable mac0 ip0 Hip0 r
                (reachableOnce_reachable _ _ Hreach)) as Hinv.
  pose proof (tableLinked_reachableOnce mac0 ip0 Hip0 r Hreach) as Hl.
  unfold Router.getDeviceByIp in Hget.
  destruct (Router._addressTable r !! Ipv4Address.toInt a) as [m |] eqn:Hm;
    [| discriminate].
  destruct (Hl _ _ Hm) as (d' & Hd' & Hx).
  assert (d' = d) by congruence. subst d'. clear Hget.
  split.
  - apply toInt_inj;
      [exact (wf_device_ip mac0 ip0 Hip0 r _ d Hinv Hd') | exact Ha | exact Hx].
  - destruct Hinv as (_ & _ & _ & Hdev).
    destruct (Hdev _ _ Hd') as (Hk & _).
    unfold Router.getDeviceByMac. now rewrite <- Hk.
Qed.

Lemma router_lookups_agree_witness :
  dev_ip emulatorDevice = ip 192 168 0 1
  /\ Router.getDeviceByMac bootedRouter (dev_mac emulatorDevice)
     = Some emulatorDevice.
Proof.
  apply (router_lookups_agree adapterRouterMac (ip 192 168 13 37)
           bootedRouter (ip 192 168 0 1) emulatorDevice).
  - split; [reflexivity |]. repeat constructor; cbn; lia.
  - split; [reflexivity |]. repeat constructor; cbn; lia.
  - apply (once_register adapterRouter adapterRouter emulatorMac
             (Some emulatorDevice)).
    + apply once_init.
    + vm_compute. reflexivity.
    + vm_compute. reflexivity.
  - vm_compute. reflexivity.
Defined.

(** X14: a second [registerDevice] for a MAC that is already in the
    table allocates another address and replaces the device under the
    MAC, so that the first address is still assigned but now resolves to
    the new, unconfirmed device at the other address. *)
Theorem registerDevice_twice_shadows (mac0 : MacAddress.t)
    (ip0 : Ipv4Address.t) (r : Router.t) (mac : MacAddress.t)
    (d0 d : Device) (r' : Router.t) :
  Ipv4Address.wf ip0 ->
  reachable (Router.new mac0 ip0 mask16) r ->
  Router.getDeviceByMac r mac = Some d0 ->
  Router.registerDevice r mac = Some (Some d, r') ->
  Router.isIpAssigned r' (dev_ip d0) = true
  /\ Router.getDeviceByIp r' (dev_ip d0) = Some d
  /\ dev_ip d <> dev_ip d0
  /\ dev_isConfirmed d = false.
Proof.
  intros Hip0 Hreach Hd0 Hreg.
  pose proof (RouterInv_reachable mac0 ip0 Hip0 r Hreach) as Hinv.
  destruct (registerDevice_facts mac0 ip0 Hip0 r mac d r' Hinv Hreg)
    as (Hmac & Hconf & -> & _ & Hfree).
  destruct Hinv as (_ & _ & _ & Hdev).
  unfold Router.getDeviceByMac in Hd0.
  destruct (Hdev _ _ Hd0) as (Hk & Ht & _).
  assert (Hne : Ipv4Address.toInt (dev_ip d) <> Ipv4Address.toInt (dev_ip d0))
    by congruence.
  split; [| split; [| split]].
  - unfold Router.isIpAssigned.
    cbn [Router._registerDevice Router._addressTable].
    rewrite lookup_insert_ne by exact Hne. rewrite Ht.
    apply bool_decide_eq_true. eauto.
  - unfold Router.getDeviceByIp.
    cbn [Router._registerDevice Router._addressTable Router._devices].
    rewrite lookup_insert_ne by exact Hne. rewrite Ht.
    rewrite <- Hk, Hmac. apply lookup_insert_eq.
  - congruence.
  - exact Hconf.
Qed.

Lemma registerDevice_twice_shadows_witness :
  Router.isIpAssigned
    (Router._registerDevice bootedRouter
       {| dev_mac := emulatorMac; dev_ip := ip 192 168 0 2;
          dev_isConfirmed := false |})
    (dev_ip emulatorDevice) = true
  /\ Router.getDeviceByIp
       (Router._registerDevice bootedRouter
          {| dev_mac := emulatorMac; dev_ip := ip 192 168 0 2;
             dev_isConfirmed := false |})
       (dev_ip emulatorDevice)
     = Some {| dev_mac := emulatorMac; dev_ip := ip 192 168 0 2;
               dev_isConfirmed := false |}
  /\ dev_ip {| dev_mac := emulatorMac; dev_ip := ip 192 168 0 2;
               dev_isConfirmed := false |} <> dev_ip emulatorDevice
  /\ dev_isConfirmed {| dev_mac := emulatorMac; dev_ip := ip 192 168 0 2;
                        dev_isConfirmed := false |} = false.
Proof.
  apply (registerDevice_twice_shadows adapterRouterMac (ip 192 168 13 37)
           bootedRouter emulatorMac emulatorDevice).
  - split; [reflexivity |]. repeat constructor; cbn; lia.
  - apply (reachable_call adapterRouter adapterRouter
             (CallRegisterDevice emulatorMac) (Some emulatorDevice)).
    + apply reachable_init.
    + vm_compute. reflexivity.
  - vm_compute. reflexivity.
  - vm_compute. reflexivity.
Defined.

(** X15: [getOrRegisterDevice] is idempotent: a second call for the same
    MAC returns the device of the first call and changes nothing. *)
Theorem getOrRegisterDevice_idempotent (r : Router.t) (mac : MacAddress.t)
    (d : Device) (r' : Router.t) :
  Router.getOrRegisterDevice r mac = Some (Some d, r') ->
  Router.getOrRegisterDevice r' mac = Some (Some d, r').
Proof.
  unfold Router.getOrRegisterDevice.
  destruct (Router.getDeviceByMac r mac) as [d0 |] eqn:Hfound.
  - intros [= <- <-]. now rewrite Hfound.
  - unfold Router.registerDevice.
    destruct (Router._getNextFreeIp r) as [[a |] |]; try discriminate.
    intros [= <- <-]. unfold Router.getDeviceByMac.
    cbn [Router._registerDevice Router._devices dev_mac].
    now rewrite lookup_insert_eq.
Qed.

Lemma getOrRegisterDevice_idempotent_witness :
  Router.getOrRegisterDevice bootedRouter emulatorMac
  = Some (Some emulatorDevice, bootedRouter).
Proof.
  apply (getOrRegisterDevice_idempotent adapterRouter emulatorMac).
  vm_compute. reflexivity.
Defined.

(** X16: the router never releases or reassigns an address: whatever is
    registered later, an entry of the address table stays as it is. *)
Theorem router_never_reassigns (mac0 : MacAddress.t) (ip0 : Ipv4Address.t)
    (r r' : Router.t) (a : Ipv4Address.t) (m : MacAddress.t) :
  Ipv4Address.wf ip0 ->
  reachable (Router.new mac0 ip0 mask16) r ->
  reachable r r' ->
  Router._addressTable r !! Ipv4Address.toInt a = Some m ->
  Router._addressTable r' !! Ipv4Address.toInt a = Some m
  /\ Router.isIpAssigned r' a = true.
Proof.
  intros Hip0 Hr Hrr' Ha.
  assert (H : Router._addressTable r' !! Ipv4Address.toInt a = Some m).
  { induction Hrr' as [| r1 c res r2 Hr1 IH Hcall]; [exact Ha |].
    eapply (addressTable_call mac0 ip0 Hip0); [| exact Hcall | exact IH].
    apply (RouterInv_reachable mac0 ip0 Hip0).
    eapply reachable_trans; eassumption. }
  split; [exact H |].
  unfold Router.isIpAssigned. rewrite H. apply bool_decide_eq_true. eauto.
Qed.

Lemma router_never_reassigns_witness :
  Router._addressTable bootedRouter !! Ipv4Address.toInt (ip 192 168 13 37)
  = Some adapterRouterMac
  /\ Router.isIpAssigned bootedRouter (ip 192 168 13 37) = true.
Proof.
  apply (router_never_reassigns adapterRouterMac (ip 192 168 13 37)
           adapterRouter bootedRouter).
  - split; [reflexivity |]. repeat constructor; cbn; lia.
  - apply reachable_init.
  - apply (reachable_call adapterRouter adapterRouter
             (CallRegisterDevice emulatorMac) (Some emulatorDevice)).
    + apply reachable_init.
    + vm_compute. reflexivity.
  - vm_compute. reflexivity.
Defined.

(** ** Listeners of a [CallbackEventTarget] *)

Section Listeners.
Context {Data Result Metadata World : Type}.
Import CallbackEventTarget.
Implicit Types (tgt : t Data Result Metadata World)
  (cb : Callback Data Result Metadata World).

Lemma has_app tgt1 tgt2 cb :
  has (tgt1 ++ tgt2) cb = has tgt1 cb || has tgt2 cb.
Proof. unfold has. apply existsb_app. Qed.

Lemma filter_absent (tgt : list (Listener Data Result Metadata World)) cb :
  has tgt cb = false ->
  filter (fun l => cb_id (callback l) <> cb_id cb) tgt = tgt.
Proof.
  induction tgt as [|l tgt IH]; [reflexivity |].
  unfold has. cbn [existsb]. intros [Hl Ht] %orb_false_iff.
  apply Nat.eqb_neq in Hl.
  rewrite filter_cons_True by exact Hl. f_equal. now apply IH.
Qed.



End Listeners.

(** X17: a callback is registered at most once on a target: adding a
    callback that is not registered appends it, after which adding it
    again (once or not) throws and removing it gives the target back;
    removing a callback that is not registered throws. *)
Theorem listener_add_then_remove {Data Result Metadata World : Type}
    (tgt : CallbackEventTarget.t Data Result Metadata World)
    (cb : CallbackEventTarget.Callback Data Result Metadata World)
    (md : Metadata) :
  CallbackEventTarget.has tgt cb = false ->
  exists tgt',
    CallbackEventTarget.addListener tgt cb md = Some tgt'
    /\ tgt' = tgt ++ [ {| CallbackEventTarget.once := false;
                          CallbackEventTarget.callback := cb;
                          CallbackEventTarget.metadata := md |} ]
    /\ CallbackEventTarget.has tgt' cb = true
    /\ CallbackEventTarget.addListener tgt' cb md = None
    /\ CallbackEventTarget.addListenerOnce tgt' cb md = None
    /\ CallbackEventTarget.removeListener tgt' cb = Some tgt
    /\ CallbackEventTarget.removeListener tgt cb = None.
Proof.
  intros Hnew. eexists.
  unfold CallbackEventTarget.addListener, CallbackEventTarget.addListenerOnce,
    CallbackEventTarget._addListener, CallbackEventTarget.removeListener.
  rewrite Hnew. split; [reflexivity |]. split; [reflexivity |].
  assert (Hhas : CallbackEventTarget.has
            (tgt ++ [ {| CallbackEventTarget.once := false;
                         CallbackEventTarget.callback := cb;
                         CallbackEventTarget.metadata := md |} ]) cb = true).
  { rewrite has_app, Hnew. unfold CallbackEventTarget.has.
    cbn [existsb CallbackEventTarget.callback orb]. now rewrite Nat.eqb_refl. }
  rewrite Hhas. cbn [negb].
  repeat (split; [reflexivity |]). split; [| reflexivity].
  unfold CallbackEventTarget.t in *.
  rewrite filter_app, (filter_absent tgt cb Hnew).
  rewrite filter_cons_False by (cbn; auto). now rewrite filter_nil, app_nil_r.
Qed.

Lemma listener_add_then_remove_witness :
  exists tgt',
    CallbackEventTarget.addListener
      [ {| CallbackEventTarget.once := false;
           CallbackEventTarget.callback := claimingHook;
           CallbackEventTarget.metadata := tt |} ] secondHook tt = Some tgt'
    /\ tgt' = twoHooks
    /\ CallbackEventTarget.has tgt' secondHook = true
    /\ CallbackEventTarget.addListener tgt' secondHook tt = None
    /\ CallbackEventTarget.addListenerOnce tgt' secondHook tt = None
    /\ CallbackEventTarget.removeListener tgt' secondHook
       = Some [ {| CallbackEventTarget.once := false;
                   CallbackEventTarget.callback := claimingHook;
                   CallbackEventTarget.metadata := tt |} ]
    /\ CallbackEventTarget.removeListener
         [ {| CallbackEventTarget.once := false;
              CallbackEventTarget.callback := claimingHook;
              CallbackEventTarget.metadata := tt |} ] secondHook = None.
Proof.
  apply (listener_add_then_remove
           [ {| CallbackEventTarget.once := false;
                CallbackEventTarget.callback := claimingHook;
                CallbackEventTarget.metadata := tt |} ] secondHook tt).
  reflexivity.
Defined.


(** ** Frames of the Ethernet and ARP layers *)

Section LinkLayer.

Lemma mac_new_bytes l :
  length l = 6%nat -> Forall isByte l ->
  MacAddress.new l = Some (MacAddress.mk l).
Proof.
  intros Hlen Hb. unfold MacAddress.new.
  rewrite Uint8Array_bytes by assumption. now rewrite Hlen.
Qed.

Lemma mac_new_short l : length l <> 6%nat -> MacAddress.new l = None.
Proof.
  intros Hlen. unfold MacAddress.new, Uint8Array. rewrite length_map.
  destruct (Nat.eqb_spec (length l) 6); [contradiction | reflexivity].
Qed.

Lemma Uint8Array_isByte l : Forall isByte (Uint8Array l).
Proof.
  unfold Uint8Array. apply Forall_map, Forall_forall. intros x _.
  unfold isByte, ToUint8. cbn. lia.
Qed.

Lemma ipv4_new_bytes l :
  length l = 4%nat -> Forall isByte l ->
  Ipv4Address.new l = Some (Ipv4Address.mk l).
Proof.
  intros Hlen Hb. unfold Ipv4Address.new.
  rewrite Uint8Array_bytes by assumption. now rewrite Hlen.
Qed.

End LinkLayer.

(** X19: the ARP layer decodes what it encodes: for a request or a reply
    for IPv4 over Ethernet, [onSendData] emits an Ethernet frame of type
    [0x0806] with a 28-byte payload from which [onProcessFrame] decodes
    the data it was given. *)
Theorem arp_round_trip (data : ArpData) :
  ethernetIpv4Arp data ->
  exists frame,
    Arp.onSendData data = Some frame
    /\ eth_etherType frame = Arp.etherType
    /\ eth_srcMac frame = arp_srcMac data
    /\ eth_destMac frame = arp_destMac data
    /\ length (eth_payload frame) = 28%nat
    /\ Arp.onProcessFrame frame = Some (true, Some data).
Proof.
  destruct data as [src dst ht pt hs ps op oMac oIp qIp qMac].
  unfold ethernetIpv4Arp.
  cbn [arp_srcMac arp_destMac arp_hardwareType arp_protocolType
       arp_hardwareSize arp_protocolSize arp_operation arp_originMac
       arp_originIp arp_queriedIp arp_queriedMac].
  intros (-> & -> & -> & -> & HoMac & HoIp & HqIp & Hop).
  assert (B0 : isByte 0) by (unfold isByte; lia).
  assert (B1 : isByte 1) by (unfold isByte; lia).
  assert (B2 : isByte 2) by (unfold isByte; lia).
  assert (B4 : isByte 4) by (unfold isByte; lia).
  assert (B6 : isByte 6) by (unfold isByte; lia).
  assert (B8 : isByte 8) by (unfold isByte; lia).
  destruct (mac_octets oMac HoMac)
    as (m0 & m1 & m2 & m3 & m4 & m5 & -> & ? & ? & ? & ? & ? & ?).
  destruct (wf_octets oIp HoIp) as (a0 & a1 & a2 & a3 & -> & ? & ? & ? & ?).
  destruct (wf_octets qIp HqIp) as (q0 & q1 & q2 & q3 & -> & ? & ? & ? & ?).
  unfold Arp.onSendData, Arp.onProcessFrame, Arp.etherType.
  cbn [arp_srcMac arp_destMac arp_hardwareType arp_protocolType
       arp_hardwareSize arp_protocolSize arp_operation arp_originMac
       arp_originIp arp_queriedIp arp_queriedMac
       MacAddress.bytes Ipv4Address.bytes].
  change (toBigEndianFromInt 2 1) with (Some [0; 1]).
  change (toBigEndianFromInt 2 2048) with (Some [8; 0]).
  destruct Hop as [(-> & ->) | (-> & m & -> & Hm)].
  - change (1 =? 1) with true. cbn iota.
    change (zeros 6) with (Some [0; 0; 0; 0; 0; 0]).
    change (toBigEndianFromInt 2 1) with (Some [0; 1]).
    cbn [app].
    rewrite !Uint8Array_bytes
      by (repeat (constructor; [assumption |]);
          first [apply Uint8Array_isByte | constructor]).
    eexists. split; [reflexivity |].
    cbn [eth_etherType eth_srcMac eth_destMac eth_payload].
    split; [reflexivity |]. split; [reflexivity |]. split; [reflexivity |].
    split; [reflexivity |].
    change (2054 =? 2054) with true. cbn [negb nth_error].
    change (Z.to_nat 6) with 6%nat. change (Z.to_nat 4) with 4%nat.
    cbn [slice skipn firstn Nat.sub Nat.add Nat.mul].
    change (toUnsignedIntFromBigEndian [0; 1]) with 1.
    change (toUnsignedIntFromBigEndian [8; 0]) with 2048.
    change (1 =? 1) with true. change (2048 =? 2048) with true.
    cbn [negb].
    rewrite !mac_new_bytes, !ipv4_new_bytes
      by (try reflexivity; repeat (constructor; [assumption |]); constructor).
    reflexivity.
  - destruct (mac_octets m Hm)
      as (n0 & n1 & n2 & n3 & n4 & n5 & -> & ? & ? & ? & ? & ? & ?).
    change (2 =? 1) with false. change (2 =? 2) with true. cbn iota.
    change (toBigEndianFromInt 2 2) with (Some [0; 2]).
    cbn [app MacAddress.bytes].
    rewrite !Uint8Array_bytes
      by (repeat (constructor; [assumption |]);
          first [apply Uint8Array_isByte | constructor]).
    eexists. split; [reflexivity |].
    cbn [eth_etherType eth_srcMac eth_destMac eth_payload].
    split; [reflexivity |]. split; [reflexivity |]. split; [reflexivity |].
    split; [reflexivity |].
    change (2054 =? 2054) with true. cbn [negb nth_error].
    change (Z.to_nat 6) with 6%nat. change (Z.to_nat 4) with 4%nat.
    cbn [slice skipn firstn Nat.sub Nat.add Nat.mul].
    change (toUnsignedIntFromBigEndian [0; 1]) with 1.
    change (toUnsignedIntFromBigEndian [8; 0]) with 2048.
    change (toUnsignedIntFromBigEndian [0; 2]) with 2.
    change (1 =? 1) with true. change (2048 =? 2048) with true.
    change (2 =? 1) with false. change (2 =? 2) with true.
    cbn [negb].
    rewrite !mac_new_bytes, !ipv4_new_bytes
      by (try reflexivity; repeat (constructor; [assumption |]); constructor).
    reflexivity.
Qed.

Lemma arp_round_trip_witness :
  exists frame,
    Arp.onSendData arpWhoHas = Some frame
    /\ eth_etherType frame = Arp.etherType
    /\ eth_srcMac frame = arp_srcMac arpWhoHas
    /\ eth_destMac frame = arp_destMac arpWhoHas
    /\ length (eth_payload frame) = 28%nat
    /\ Arp.onProcessFrame frame = Some (true, Some arpWhoHas).
Proof.
  apply (arp_round_trip arpWhoHas).
  unfold ethernetIpv4Arp.
  split; [reflexivity |]. split; [reflexivity |].
  split; [reflexivity |]. split; [reflexivity |].
  split; [split; [reflexivity | repeat constructor; cbn; lia] |].
  split; [split; [reflexivity | repeat constructor; cbn; lia] |].
  split; [split; [reflexivity | repeat constructor; cbn; lia] |].
  left. split; reflexivity.
Defined.

(** X20: the Ethernet layer decodes what it encodes: for data with a
    16-bit EtherType other than the two VLAN tags, [onSendData] emits 14
    header bytes and the payload, and [onProcessFrame] consumes that frame
    and passes the same data on. *)
Theorem ethernet_round_trip (data : EthernetData) :
  MacAddress.wf (eth_destMac data) -> MacAddress.wf (eth_srcMac data) ->
  0 <= eth_etherType data <= 65535 ->
  eth_etherType data <> 0x8100 -> eth_etherType data <> 0x88a8 ->
  Forall isByte (eth_payload data) ->
  exists frame,
    Ethernet.onSendData data = Some frame
    /\ length frame = (14 + length (eth_payload data))%nat
    /\ Ethernet.onProcessFrame frame = Some (true, Some data).
Proof.
  destruct data as [src dst et payload].
  cbn [eth_srcMac eth_destMac eth_etherType eth_payload].
  intros Hdst Hsrc Het Hv1 Hv2 Hpayload.
  destruct (encode2 et Het) as (Ee & Ve & ? & ?).
  destruct (mac_octets dst Hdst)
    as (d0 & d1 & d2 & d3 & d4 & d5 & -> & ? & ? & ? & ? & ? & ?).
  destruct (mac_octets src Hsrc)
    as (s0 & s1 & s2 & s3 & s4 & s5 & -> & ? & ? & ? & ? & ? & ?).
  unfold Ethernet.onSendData, Ethernet.onProcessFrame.
  cbn [eth_srcMac eth_destMac eth_etherType eth_payload MacAddress.bytes].
  rewrite Ee. cbn [app].
  rewrite Uint8Array_bytes
    by (repeat (constructor; [assumption |]); exact Hpayload).
  eexists. split; [reflexivity |]. split; [reflexivity |].
  cbn [slice skipn firstn Nat.sub].
  rewrite !take_0, Ve.
  rewrite !mac_new_bytes
    by (try reflexivity; repeat (constructor; [assumption |]); constructor).
  destruct (Z.eqb_spec et 0x8100); [contradiction |].
  destruct (Z.eqb_spec et 0x88a8); [contradiction |].
  reflexivity.
Qed.

Lemma ethernet_round_trip_witness :
  exists frame,
    Ethernet.onSendData
      {| eth_srcMac := hostMac; eth_destMac := MacAddress.BroadcastAddress;
         eth_etherType := 0x0806; eth_payload := [0; 1; 8; 0] |}
    = Some frame
    /\ length frame = (14 + length [0; 1; 8; 0])%nat
    /\ Ethernet.onProcessFrame frame
       = Some (true,
               Some {| eth_srcMac := hostMac;
                       eth_destMac := MacAddress.BroadcastAddress;
                       eth_etherType := 0x0806;
                       eth_payload := [0; 1; 8; 0] |}).
Proof.
  apply (ethernet_round_trip
           {| eth_srcMac := hostMac; eth_destMac := MacAddress.BroadcastAddress;
              eth_etherType := 0x0806; eth_payload := [0; 1; 8; 0] |}).
  - split; [reflexivity |]. repeat constructor; cbn; lia.
  - split; [reflexivity |]. repeat constructor; cbn; lia.
  - cbn; lia.
  - cbn; lia.
  - cbn; lia.
  - repeat constructor; unfold isByte; lia.
Defined.

(** X21: what [onProcessFrame] does with a received frame: a frame of
    fewer than 12 bytes makes the [MacAddress] constructor throw; a longer
    frame is always consumed, dropped without being passed on exactly when
    bytes 12 and 13 are a VLAN tag, and otherwise, if it has at least 14
    bytes, passed on as data from which [onSendData] rebuilds the frame. *)
Theorem ethernet_frame_parse (frame : list Z) :
  Forall isByte frame ->
  ((length frame < 12)%nat -> Ethernet.onProcessFrame frame = None)
  /\ ((12 <= length frame)%nat ->
      exists res,
        Ethernet.onProcessFrame frame = Some (true, res)
        /\ (res = None
            <-> toUnsignedIntFromBigEndian (JS.slice 12 14 frame) = 0x8100
                \/ toUnsignedIntFromBigEndian (JS.slice 12 14 frame) = 0x88a8)
        /\ ((14 <= length frame)%nat ->
            forall data, res = Some data ->
              Ethernet.onSendData data = Some frame)).
Proof.
  intros Hb. split.
  - intros Hlen. unfold Ethernet.onProcessFrame.
    rewrite (mac_new_short (slice 6 12 frame)).
    + now destruct (MacAddress.new (slice 0 6 frame)).
    + unfold slice. rewrite length_take, length_drop. lia.
  - intros Hlen.
    do 12 (destruct frame as [|? frame]; [cbn in Hlen; lia |]).
    repeat (apply Forall_cons in Hb; let H := fresh "B" in destruct Hb as [H Hb]).
    unfold Ethernet.onProcessFrame.
    cbn [slice skipn firstn Nat.sub]. rewrite ?take_0, ?drop_0.
    rewrite !mac_new_bytes
      by (try reflexivity; repeat (constructor; [assumption |]); constructor).
    set (tag := toUnsignedIntFromBigEndian (take 2 frame)).
    destruct (Z.eqb_spec tag 0x8100) as [E1 | E1];
      [| destruct (Z.eqb_spec tag 0x88a8) as [E2 | E2]]; cbn [orb].
    + eexists. split; [reflexivity |]. split; [tauto |]. discriminate.
    + eexists. split; [reflexivity |]. split; [tauto |]. discriminate.
    + eexists. split; [reflexivity |].
      split; [split; [discriminate | tauto] |].
      intros Hlen' data [= <-].
      destruct frame as [|t0 frame]; [cbn in Hlen'; lia |].
      destruct frame as [|t1 frame]; [cbn in Hlen'; lia |].
      apply Forall_cons in Hb. destruct Hb as [Bt0 Hb].
      apply Forall_cons in Hb. destruct Hb as [Bt1 Hb].
      unfold Ethernet.onSendData.
      cbn [eth_srcMac eth_destMac eth_etherType eth_payload MacAddress.bytes].
      subst tag. cbn [firstn skipn]. rewrite take_0.
      change 2%nat with (length [t0; t1]) at 1.
      rewrite toUnsigned_value.
      rewrite toBigEndianFromInt_digits
        by (try (cbn; lia); apply bigEndianValue_bound;
            repeat (constructor; [assumption |]); constructor).
      rewrite bigEndianDigits_value
        by (repeat (constructor; [assumption |]); constructor).
      cbn [app].
      rewrite Uint8Array_bytes
        by (repeat (constructor; [assumption |]); exact Hb).
      reflexivity.
Qed.

Lemma ethernet_frame_parse_witness :
  ((length [255; 255; 255; 255; 255; 255; 0xaa; 0xbb; 0xcc; 0xdd; 0xee; 0xff;
            8; 6; 0; 1] < 12)%nat ->
   Ethernet.onProcessFrame
     [255; 255; 255; 255; 255; 255; 0xaa; 0xbb; 0xcc; 0xdd; 0xee; 0xff;
      8; 6; 0; 1] = None)
  /\ ((12 <= length [255; 255; 255; 255; 255; 255; 0xaa; 0xbb; 0xcc; 0xdd;
                     0xee; 0xff; 8; 6; 0; 1])%nat ->
      exists res,
        Ethernet.onProcessFrame
          [255; 255; 255; 255; 255; 255; 0xaa; 0xbb; 0xcc; 0xdd; 0xee; 0xff;
           8; 6; 0; 1] = Some (true, res)
        /\ (res = None
            <-> toUnsignedIntFromBigEndian
                  (JS.slice 12 14
                     [255; 255; 255; 255; 255; 255; 0xaa; 0xbb; 0xcc; 0xdd;
                      0xee; 0xff; 8; 6; 0; 1]) = 0x8100
                \/ toUnsignedIntFromBigEndian
                     (JS.slice 12 14
                        [255; 255; 255; 255; 255; 255; 0xaa; 0xbb; 0xcc; 0xdd;
                         0xee; 0xff; 8; 6; 0; 1]) = 0x88a8)
        /\ ((14 <= length [255; 255; 255; 255; 255; 255; 0xaa; 0xbb; 0xcc;
                           0xdd; 0xee; 0xff; 8; 6; 0; 1])%nat ->
            forall data, res = Some data ->
              Ethernet.onSendData data
              = Some [255; 255; 255; 255; 255; 255; 0xaa; 0xbb; 0xcc; 0xdd;
                      0xee; 0xff; 8; 6; 0; 1])).
Proof.
  apply (ethernet_frame_parse
           [255; 255; 255; 255; 255; 255; 0xaa; 0xbb; 0xcc; 0xdd; 0xee; 0xff;
            8; 6; 0; 1]).
  repeat constructor; unfold isByte; lia.
Defined.

(** ** The socket: handshake, ingress, retransmission *)

Section SocketMachine.
Import TcpSocket.
Local Open Scope tcp_scope.

Lemma band_30 x : 0 <= band x 0x3fffffff < 2 ^ 30.
Proof.
  unfold band. change (ToInt32 0x3fffffff) with (Z.ones 30).
  rewrite Z.land_ones by lia. apply Z.mod_pos_bound. lia.
Qed.

Lemma acknowledge_set_sent p s :
  acknowledge p s
  = set_sent
      (if fl_ack (pk_flags p)
       then List.filter (stillUnacknowledged (pk_ack p))
              (_sentPacketsUnacknowledged s)
       else _sentPacketsUnacknowledged s) s.
Proof.
  unfold acknowledge. destruct (fl_ack (pk_flags p)); [reflexivity |].
  destruct s; reflexivity.
Qed.

Lemma inbound_set_sent p l s : inbound p (set_sent l s) <-> inbound p s.
Proof. reflexivity. Qed.


Lemma includes_In (p : TcpPacket) (l : list TcpPacket) :
  existsb (fun q => bool_decide (q = p)) l = true <-> In p l.
Proof.
  rewrite existsb_exists. split.
  - intros (q & Hq & E). apply bool_decide_eq_true in E. now subst.
  - intros H. exists p. split; [exact H | now apply bool_decide_eq_true].
Qed.




End SocketMachine.

(** X22: whatever the random bytes, a new socket starts in INIT with
    [_ack] 0 and an initial sequence number that is a multiple of 100
    below 2^30. *)
Theorem initial_sequence_number (isServer : bool)
    (srcIp destIp : Ipv4Address.t) (srcPort destPort random : Z) :
  let s := TcpSocket.new isServer srcIp destIp srcPort destPort random in
  TcpSocket._state s = INIT
  /\ TcpSocket._ack s = 0
  /\ 0 <= TcpSocket._seq s <= 0x3fffffff
  /\ TcpSocket._seq s mod 100 = 0
  /\ TcpSocket.events s = [].
Proof.
  cbn. pose proof (band_30 random) as H.
  change (2 ^ 30) with 1073741824 in H.
  split; [reflexivity |]. split; [reflexivity |].
  split; [lia |]. split; [lia | reflexivity].
Qed.



Section SocketEstablished.
Import TcpSocket.
Local Open Scope tcp_scope.

Lemma onDataCallback_spec packet s :
  _onDataCallback packet s
  = (Ok tt,
     set_events
       (events s
        ++ map (fun cb => DataCallback cb (pk_data packet))
               (_onDataCallbacks s)) s).
Proof. unfold _onDataCallback, bind, get. now rewrite forEach_emit. Qed.

Lemma acknowledge_queue p s :
  _receivedPacketsUnacknowledged (acknowledge p s)
  = _receivedPacketsUnacknowledged s
  /\ _onDataCallbacks (acknowledge p s) = _onDataCallbacks s
  /\ _onCloseCallbacks (acknowledge p s) = _onCloseCallbacks s.
Proof. unfold acknowledge. destruct (fl_ack (pk_flags p)); cbn; auto. Qed.

Lemma connect_spec s :
  _state s = INIT -> isServer s = false ->
  connect s
  = (Ok tt,
     afterSending [packetOf s (_seq s) 0 flagsSyn []] (_seq s + 1)
       (set_state SYN_SENT s)).
Proof.
  intros Hst Hsrv. unfold connect, bind at 1, get at 1.
  rewrite Hst, Hsrv. reflexivity.
Qed.

(** The ESTABLISHED case of [process]: the packet joins the holding
    queue, the queue is drained, and a bare ACK follows if the loop asks
    for one. *)
Lemma processInState_established p s :
  _state s = ESTABLISHED -> _writeOnceEstablished s = [] ->
  processInState p s
  = match drain (S (length (_receivedPacketsUnacknowledged s ++ [p]))) false
            (set_received (_receivedPacketsUnacknowledged s ++ [p]) s) with
    | (Ok true, s2) => _sendPacket 0 (_seq s2) (_ack s2) flagsAck [] s2
    | (Ok false, s2) => (Ok tt, s2)
    | (Throw msg, s2) => (Throw msg, s2)
    end.
Proof.
  intros Hst Hw. unfold processInState, bind at 1, get at 1.
  rewrite Hst, Hw. cbn [length Nat.ltb Nat.leb].
  unfold bind at 1, modify at 1. unfold bind at 1, get at 1.
  cbn [_receivedPacketsUnacknowledged set_received]. unfold bind at 1.
  destruct (drain _ false _) as [[[] |] s2]; reflexivity.
Qed.

(** One turn of the holding-queue loop. *)
Lemma drain_step fuel mustAcknowledge s :
  drain (S fuel) mustAcknowledge s
  = match takeFirstDue (_ack s) (_receivedPacketsUnacknowledged s) with
    | None => (Ok mustAcknowledge, s)
    | Some (packet, others) =>
        if pk_seq packet <? _ack s
        then drain fuel true (set_received others s)
        else if 0 <? Z.of_nat (length (pk_data packet))
        then drain fuel true
               (set_events
                  (events s
                   ++ map (fun cb => DataCallback cb (pk_data packet))
                          (_onDataCallbacks s))
                  (set_ack (_ack s + Z.of_nat (length (pk_data packet)))
                     (set_received others s)))
        else drain fuel mustAcknowledge
               (set_ack (_ack s + Z.of_nat (length (pk_data packet)))
                  (set_received others s))
    end.
Proof.
  cbn [drain]. unfold bind at 1, get at 1.
  destruct (takeFirstDue (_ack s) (_receivedPacketsUnacknowledged s))
    as [[packet others] |]; [| reflexivity].
  unfold bind at 1, modify at 1. cbn [_ack set_received].
  destruct (pk_seq packet <? _ack s); [reflexivity |].
  unfold bind at 1, modify at 1. cbn [_ack set_received set_ack].
  destruct (0 <? Z.of_nat (length (pk_data packet))); [| reflexivity].
  unfold bind at 1. rewrite onDataCallback_spec. reflexivity.
Qed.

End SocketEstablished.

(** X24: the client side of the handshake.  [connect] on a fresh client
    socket sends a SYN with the initial sequence number and moves to
    SYN_SENT; an inbound SYN+ACK then establishes the connection: [_ack]
    becomes the peer's seq plus one, a bare ACK goes out without moving
    [_seq], and the established callback is scheduled.  The ack number of
    the SYN+ACK is not looked at. *)
Theorem client_handshake (s : TcpSocket.t) (p : TcpPacket) :
  TcpSocket._state s = INIT -> TcpSocket.isServer s = false ->
  inbound p s ->
  fl_syn (pk_flags p) = true -> fl_ack (pk_flags p) = true ->
  fl_fin (pk_flags p) = false ->
  exists s1 s2,
    TcpSocket.connect s = (Ok tt, s1)
    /\ TcpSocket._state s1 = SYN_SENT
    /\ TcpSocket._seq s1 = TcpSocket._seq s + 1
    /\ TcpSocket.events s1
       = TcpSocket.events s
         ++ [SendPacket (packetOf s (TcpSocket._seq s) 0 flagsSyn [])]
    /\ TcpSocket.process p s1 = (Ok tt, s2)
    /\ TcpSocket._state s2 = ESTABLISHED
    /\ TcpSocket._ack s2 = pk_seq p + 1
    /\ TcpSocket._seq s2 = TcpSocket._seq s + 1
    /\ TcpSocket.events s2
       = TcpSocket.events s1
         ++ [SendPacket
               (packetOf s (TcpSocket._seq s + 1) (pk_seq p + 1) flagsAck [])]
    /\ TcpSocket.tasks s2
       = TcpSocket.tasks s
         ++ [AfterWait (packetOf s (TcpSocket._seq s) 0 flagsSyn []) 1;
             AfterWait
               (packetOf s (TcpSocket._seq s + 1) (pk_seq p + 1) flagsAck [])
               1;
             FireEstablished].
Proof.
  intros Hst Hsrv Hin Hsyn Hack Hfin.
  set (s1 := afterSending [packetOf s (TcpSocket._seq s) 0 flagsSyn []]
               (TcpSocket._seq s + 1) (TcpSocket.set_state SYN_SENT s)).
  exists s1.
  assert (Hin1 : inbound p s1) by exact Hin.
  eexists. split; [now apply connect_spec |].
  split; [reflexivity |]. split; [reflexivity |]. split; [reflexivity |].
  rewrite process_inbound; [| discriminate | exact Hin1 | exact Hfin].
  rewrite acknowledge_set_sent, Hack.
  unfold TcpSocket.processInState, TcpSocket.bind at 1, TcpSocket.get at 1.
  cbn [TcpSocket._state TcpSocket.set_sent afterSending TcpSocket.set_tasks
       TcpSocket.set_events TcpSocket.set_seq TcpSocket.set_state s1].
  rewrite Hsyn, Hack. cbn [andb].
  cbv [TcpSocket.bind TcpSocket.modify TcpSocket.get TcpSocket._sendPacket
       TcpSocket.emitEvent TcpSocket.schedule TcpSocket.ret].
  split; [reflexivity |].
  cbn. rewrite Z.add_0_r, <- !app_assoc. repeat split; reflexivity.
Qed.

Lemma client_handshake_witness :
  exists s1 s2,
    TcpSocket.connect clientSocket = (Ok tt, s1)
    /\ TcpSocket._state s1 = SYN_SENT
    /\ TcpSocket._seq s1 = TcpSocket._seq clientSocket + 1
    /\ TcpSocket.events s1
       = TcpSocket.events clientSocket
         ++ [SendPacket
               (packetOf clientSocket (TcpSocket._seq clientSocket) 0
                  flagsSyn [])]
    /\ TcpSocket.process (serverPacket 9000 123456701 flagsSynAck []) s1
       = (Ok tt, s2)
    /\ TcpSocket._state s2 = ESTABLISHED
    /\ TcpSocket._ack s2 = pk_seq (serverPacket 9000 123456701 flagsSynAck []) + 1
    /\ TcpSocket._seq s2 = TcpSocket._seq clientSocket + 1
    /\ TcpSocket.events s2
       = TcpSocket.events s1
         ++ [SendPacket
               (packetOf clientSocket (TcpSocket._seq clientSocket + 1)
                  (pk_seq (serverPacket 9000 123456701 flagsSynAck []) + 1)
                  flagsAck [])]
    /\ TcpSocket.tasks s2
       = TcpSocket.tasks clientSocket
         ++ [AfterWait
               (packetOf clientSocket (TcpSocket._seq clientSocket) 0
                  flagsSyn []) 1;
             AfterWait
               (packetOf clientSocket (TcpSocket._seq clientSocket + 1)
                  (pk_seq (serverPacket 9000 123456701 flagsSynAck []) + 1)
                  flagsAck [])
               1;
             FireEstablished].
Proof.
  apply (client_handshake clientSocket
           (serverPacket 9000 123456701 flagsSynAck [])).
  - reflexivity.
  - reflexivity.
  - repeat split; reflexivity.
  - reflexivity.
  - reflexivity.
  - reflexivity.
Defined.

(** X25: an established socket with an empty holding queue processes one
    inbound packet as follows.  A packet that starts at [_ack] and carries
    data is delivered once to every data callback, in registration order;
    [_ack] moves on by its length and one bare ACK goes out.  A packet
    that starts below [_ack] is not delivered again but is answered with a
    bare ACK of the unchanged [_ack].  A packet that starts above [_ack]
    waits in the holding queue, and an empty packet at [_ack] is dropped,
    both without any callback or ACK.  [_seq] never moves. *)
Theorem established_ingress (s : TcpSocket.t) (p : TcpPacket) :
  TcpSocket._state s = ESTABLISHED ->
  TcpSocket._writeOnceEstablished s = [] ->
  TcpSocket._receivedPacketsUnacknowledged s = [] ->
  inbound p s -> fl_fin (pk_flags p) = false ->
  exists s',
    TcpSocket.process p s = (Ok tt, s')
    /\ TcpSocket._state s' = ESTABLISHED
    /\ TcpSocket._seq s' = TcpSocket._seq s
    /\ (pk_seq p < TcpSocket._ack s ->
        TcpSocket._ack s' = TcpSocket._ack s
        /\ TcpSocket._receivedPacketsUnacknowledged s' = []
        /\ TcpSocket.events s'
           = TcpSocket.events s
             ++ [SendPacket
                   (packetOf s (TcpSocket._seq s) (TcpSocket._ack s)
                      flagsAck [])])
    /\ (pk_seq p = TcpSocket._ack s -> pk_data p <> [] ->
        TcpSocket._ack s'
        = TcpSocket._ack s + Z.of_nat (length (pk_data p))
        /\ TcpSocket._receivedPacketsUnacknowledged s' = []
        /\ TcpSocket.events s'
           = TcpSocket.events s
             ++ map (fun cb => DataCallback cb (pk_data p))
                    (TcpSocket._onDataCallbacks s)
             ++ [SendPacket
                   (packetOf s (TcpSocket._seq s)
                      (TcpSocket._ack s + Z.of_nat (length (pk_data p)))
                      flagsAck [])])
    /\ (pk_seq p = TcpSocket._ack s -> pk_data p = [] ->
        TcpSocket._ack s' = TcpSocket._ack s
        /\ TcpSocket._receivedPacketsUnacknowledged s' = []
        /\ TcpSocket.events s' = TcpSocket.events s)
    /\ (TcpSocket._ack s < pk_seq p ->
        TcpSocket._ack s' = TcpSocket._ack s
        /\ TcpSocket._receivedPacketsUnacknowledged s' = [p]
        /\ TcpSocket.events s' = TcpSocket.events s).
Proof.
  intros Hst Hw Hq Hin Hfin.
  rewrite process_inbound by (congruence || assumption).
  rewrite acknowledge_set_sent.
  set (sent' := if fl_ack (pk_flags p) then _ else _).
  rewrite processInState_established by assumption.
  cbn [TcpSocket._receivedPacketsUnacknowledged TcpSocket.set_sent].
  rewrite Hq. cbn [app length].
  rewrite drain_step.
  cbn [TcpSocket._ack TcpSocket.set_received TcpSocket.set_sent
       TcpSocket._receivedPacketsUnacknowledged TcpSocket.takeFirstDue].
  destruct (Z.leb_spec (pk_seq p) (TcpSocket._ack s)) as [Hle | Hgt].
  2: { eexists. split; [reflexivity |]. cbn.
       split; [exact Hst |]. split; [reflexivity |].
       split; [lia |]. split; [lia |]. split; [lia |]. auto. }
  destruct (Z.ltb_spec (pk_seq p) (TcpSocket._ack s)) as [Hlt | Hge].
  { rewrite drain_step.
    cbn [TcpSocket._ack TcpSocket.set_received TcpSocket.set_sent
         TcpSocket._receivedPacketsUnacknowledged TcpSocket.takeFirstDue].
    rewrite sendPacket_spec.
    eexists. split; [reflexivity |]. cbn. rewrite Z.add_0_r.
    split; [exact Hst |]. split; [reflexivity |].
    split; [auto |]. split; [lia |]. split; [lia |]. lia. }
  destruct (pk_data p) as [|b data] eqn:Hdata.
  { cbn [length Z.of_nat Z.ltb Z.compare].
    rewrite drain_step.
    cbn [TcpSocket._ack TcpSocket.set_received TcpSocket.set_sent
         TcpSocket.set_ack
         TcpSocket._receivedPacketsUnacknowledged TcpSocket.takeFirstDue].
    eexists. split; [reflexivity |]. cbn. rewrite Z.add_0_r.
    split; [exact Hst |]. split; [reflexivity |].
    split; [lia |]. split; [congruence |]. split; [auto |]. lia. }
  assert (Hpos : (0 <? Z.of_nat (length (b :: data))) = true)
    by (apply Z.ltb_lt; cbn [length]; lia).
  rewrite Hpos, drain_step.
  cbn [TcpSocket._ack TcpSocket.set_received TcpSocket.set_sent
       TcpSocket.set_ack TcpSocket.set_events
       TcpSocket._receivedPacketsUnacknowledged TcpSocket.takeFirstDue].
  rewrite sendPacket_spec.
  eexists. split; [reflexivity |]. cbn -[Z.of_nat Z.add]. rewrite Z.add_0_r.
  split; [exact Hst |]. split; [reflexivity |].
  split; [lia |]. split.
  - intros _ _. rewrite <- !app_assoc. auto.
  - split; [congruence | lia].
Qed.

Lemma established_ingress_witness :
  exists s',
    TcpSocket.process (peerPacket 7001 123456701 flagsAck [1; 2; 3])
      readingSocket = (Ok tt, s')
    /\ TcpSocket._ack s' = 7004
    /\ TcpSocket.events s'
       = TcpSocket.events readingSocket
         ++ [DataCallback 3 [1; 2; 3];
             SendPacket (packetOf readingSocket 123456701 7004 flagsAck [])].
Proof.
  destruct (established_ingress readingSocket
              (peerPacket 7001 123456701 flagsAck [1; 2; 3]))
    as (s' & Hp & _ & _ & _ & Hdata & _).
  - reflexivity.
  - reflexivity.
  - reflexivity.
  - repeat split; reflexivity.
  - reflexivity.
  - exists s'. split; [exact Hp |].
    destruct (Hdata eq_refl (ltac:(discriminate))) as (Ha & _ & He).
    split; [exact Ha | exact He].
Defined.

(** X26: segments that arrive out of order are reassembled.  When the
    second of two adjacent data segments arrives first, it is held without
    any callback or ACK; when the first arrives, both are delivered to the
    data callbacks in stream order, and a single bare ACK covers both. *)
Theorem out_of_order_segments_are_reassembled (s : TcpSocket.t)
    (a b : TcpPacket) :
  TcpSocket._state s = ESTABLISHED ->
  TcpSocket._writeOnceEstablished s = [] ->
  TcpSocket._receivedPacketsUnacknowledged s = [] ->
  inbound a s -> inbound b s ->
  fl_fin (pk_flags a) = false -> fl_fin (pk_flags b) = false ->
  pk_seq a = TcpSocket._ack s -> pk_data a <> [] ->
  pk_seq b = TcpSocket._ack s + Z.of_nat (length (pk_data a)) ->
  pk_data b <> [] ->
  exists s1 s2,
    TcpSocket.process b s = (Ok tt, s1)
    /\ TcpSocket.events s1 = TcpSocket.events s
    /\ TcpSocket._ack s1 = TcpSocket._ack s
    /\ TcpSocket._receivedPacketsUnacknowledged s1 = [b]
    /\ TcpSocket.process a s1 = (Ok tt, s2)
    /\ TcpSocket._ack s2
       = TcpSocket._ack s + Z.of_nat (length (pk_data a))
         + Z.of_nat (length (pk_data b))
    /\ TcpSocket._receivedPacketsUnacknowledged s2 = []
    /\ TcpSocket.events s2
       = TcpSocket.events s
         ++ map (fun cb => DataCallback cb (pk_data a))
                (TcpSocket._onDataCallbacks s)
         ++ map (fun cb => DataCallback cb (pk_data b))
                (TcpSocket._onDataCallbacks s)
         ++ [SendPacket
               (packetOf s (TcpSocket._seq s)
                  (TcpSocket._ack s + Z.of_nat (length (pk_data a))
                   + Z.of_nat (length (pk_data b)))
                  flagsAck [])].
Proof.
  intros Hst Hw Hq Hina Hinb Hfa Hfb Hsa Hda Hsb Hdb.
  assert (Hla : 0 < Z.of_nat (length (pk_data a)))
    by (destruct (pk_data a); [congruence | cbn [length]; lia]).
  assert (Hlb : 0 < Z.of_nat (length (pk_data b)))
    by (destruct (pk_data b); [congruence | cbn [length]; lia]).
  (* the second segment arrives *)
  assert (H1 : TcpSocket.process b s
               = (Ok tt, TcpSocket.set_received [b] (acknowledge b s))).
  { rewrite process_inbound by (congruence || assumption).
    rewrite acknowledge_set_sent.
    rewrite processInState_established by assumption.
    cbn [TcpSocket._receivedPacketsUnacknowledged TcpSocket.set_sent].
    rewrite Hq. cbn [app length]. rewrite drain_step.
    cbn [TcpSocket._ack TcpSocket.set_received TcpSocket.set_sent
         TcpSocket._receivedPacketsUnacknowledged TcpSocket.takeFirstDue].
    destruct (Z.leb_spec (pk_seq b) (TcpSocket._ack s)); [lia |].
    reflexivity. }
  set (s1 := TcpSocket.set_received [b] (acknowledge b s)) in *.
  exists s1.
  destruct (acknowledge_fields b s)
    as (Est & Eseq & Eack & Eev & Etk & EsI & EdI & EsP & EdP & Ew).
  destruct (acknowledge_queue b s) as (_ & Ecb & _).
  assert (Eack1 : TcpSocket._ack s1 = TcpSocket._ack s) by exact Eack.
  assert (Eev1 : TcpSocket.events s1 = TcpSocket.events s) by exact Eev.
  assert (Ecb1 : TcpSocket._onDataCallbacks s1 = TcpSocket._onDataCallbacks s)
    by exact Ecb.
  assert (Eseq1 : TcpSocket._seq s1 = TcpSocket._seq s) by exact Eseq.
  assert (EsI1 : TcpSocket.srcIp s1 = TcpSocket.srcIp s) by exact EsI.
  assert (EdI1 : TcpSocket.destIp s1 = TcpSocket.destIp s) by exact EdI.
  assert (EsP1 : TcpSocket.srcPort s1 = TcpSocket.srcPort s) by exact EsP.
  assert (EdP1 : TcpSocket.destPort s1 = TcpSocket.destPort s) by exact EdP.
  assert (Hq1 : TcpSocket._receivedPacketsUnacknowledged s1 = [b])
    by reflexivity.
  assert (Hst1 : TcpSocket._state s1 = ESTABLISHED) by (cbn; congruence).
  assert (Hw1 : TcpSocket._writeOnceEstablished s1 = []) by (cbn; congruence).
  assert (Hin1 : inbound a s1).
  { unfold inbound in *. cbn. rewrite EsI, EsP. exact Hina. }
  eexists. split; [exact H1 |].
  split; [exact Eev |]. split; [exact Eack |]. split; [reflexivity |].
  (* the first segment arrives *)
  rewrite process_inbound by (congruence || assumption).
  rewrite acknowledge_set_sent.
  rewrite processInState_established by assumption.
  cbn [TcpSocket._receivedPacketsUnacknowledged TcpSocket.set_sent].
  rewrite Hq1. clearbody s1.
  cbn [app length]. rewrite drain_step.
  cbn [TcpSocket._ack TcpSocket.set_received TcpSocket.set_sent
       TcpSocket._receivedPacketsUnacknowledged TcpSocket.takeFirstDue].
  rewrite Eack1.
  destruct (Z.leb_spec (pk_seq b) (TcpSocket._ack s)); [lia |].
  destruct (Z.leb_spec (pk_seq a) (TcpSocket._ack s)); [| lia].
  destruct (Z.ltb_spec (pk_seq a) (TcpSocket._ack s)); [lia |].
  destruct (Z.ltb_spec 0 (Z.of_nat (length (pk_data a)))); [| lia].
  rewrite drain_step.
  cbn [TcpSocket._ack TcpSocket.set_received TcpSocket.set_sent
       TcpSocket.set_ack TcpSocket.set_events
       TcpSocket._receivedPacketsUnacknowledged TcpSocket.takeFirstDue].
  destruct (Z.leb_spec (pk_seq b)
              (TcpSocket._ack s + Z.of_nat (length (pk_data a)))); [| lia].
  destruct (Z.ltb_spec (pk_seq b)
              (TcpSocket._ack s + Z.of_nat (length (pk_data a)))); [lia |].
  destruct (Z.ltb_spec 0 (Z.of_nat (length (pk_data b)))); [| lia].
  rewrite drain_step.
  cbn [TcpSocket._ack TcpSocket.set_received TcpSocket.set_sent
       TcpSocket.set_ack TcpSocket.set_events
       TcpSocket._receivedPacketsUnacknowledged TcpSocket.takeFirstDue].
  rewrite sendPacket_spec.
  split; [reflexivity |].
  unfold packetOf, afterSending. cbn -[Z.of_nat Z.add].
  rewrite ?Eev1, ?Ecb1, ?Eseq1, ?EsI1, ?EdI1, ?EsP1, ?EdP1.
  split; [reflexivity |]. split; [reflexivity |].
  now rewrite <- !app_assoc.
Qed.

Lemma out_of_order_segments_are_reassembled_witness :
  exists s1 s2,
    TcpSocket.process (peerPacket 7004 123456701 flagsAck [4; 5])
      readingSocket = (Ok tt, s1)
    /\ TcpSocket.events s1 = TcpSocket.events readingSocket
    /\ TcpSocket.process (peerPacket 7001 123456701 flagsAck [1; 2; 3]) s1
       = (Ok tt, s2)
    /\ TcpSocket.events s2
       = TcpSocket.events readingSocket
         ++ [DataCallback 3 [1; 2; 3]; DataCallback 3 [4; 5];
             SendPacket (packetOf readingSocket 123456701 7006 flagsAck [])].
Proof.
  destruct (out_of_order_segments_are_reassembled readingSocket
              (peerPacket 7001 123456701 flagsAck [1; 2; 3])
              (peerPacket 7004 123456701 flagsAck [4; 5]))
    as (s1 & s2 & H1 & E1 & _ & _ & H2 & _ & _ & E2).
  - reflexivity.
  - reflexivity.
  - reflexivity.
  - repeat split; reflexivity.
  - repeat split; reflexivity.
  - reflexivity.
  - reflexivity.
  - reflexivity.
  - discriminate.
  - reflexivity.
  - discriminate.
  - exists s1, s2. split; [exact H1 |]. split; [exact E1 |].
    split; [exact H2 | exact E2].
Defined.

(** X27: an ACK stops the retransmission of what it covers: after an
    established socket has processed a packet whose ACK number is at or
    beyond the end of a sent packet that expects an ACK, every later stage
    of that packet's retransmission loop does nothing. *)
Theorem acknowledged_packet_is_not_retransmitted (s : TcpSocket.t)
    (q p : TcpPacket) (i : nat) :
  TcpSocket._state s = ESTABLISHED ->
  TcpSocket._writeOnceEstablished s = [] ->
  inbound q s -> fl_fin (pk_flags q) = false ->
  fl_ack (pk_flags q) = true ->
  pk_seq p + Z.of_nat (length (pk_data p)) <= pk_ack q ->
  TcpSocket.isPureAck p = false ->
  exists s',
    TcpSocket.process q s = (Ok tt, s')
    /\ ~ In p (TcpSocket._sentPacketsUnacknowledged s')
    /\ TcpSocket.runTask (AfterWait p i) s' = (Ok tt, s').
Proof.
  intros Hst Hw Hin Hfin Hack Hcov Hpure.
  rewrite process_inbound by (congruence || assumption).
  rewrite acknowledge_set_sent, Hack.
  set (sent' := List.filter _ _).
  assert (Hnot : ~ In p sent').
  { unfold sent'. rewrite filter_In. intros [_ H].
    unfold stillUnacknowledged in H. apply Z.gtb_lt in H. lia. }
  rewrite processInState_established by assumption.
  destruct (drain_spec
              (S (length (TcpSocket._receivedPacketsUnacknowledged
                            (TcpSocket.set_sent sent' s) ++ [q])))
              false
              (TcpSocket.set_received
                 (TcpSocket._receivedPacketsUnacknowledged
                    (TcpSocket.set_sent sent' s) ++ [q])
                 (TcpSocket.set_sent sent' s)))
    as (must & s2 & evs & -> & Hsame & _ & _).
  destruct Hsame as (_ & _ & Hsent & _).
  cbn [TcpSocket._sentPacketsUnacknowledged TcpSocket.set_received
       TcpSocket.set_sent] in Hsent.
  assert (Hrun : forall s3,
            ~ In p (TcpSocket._sentPacketsUnacknowledged s3) ->
            TcpSocket.runTask (AfterWait p i) s3 = (Ok tt, s3)).
  { intros s3 H3. unfold TcpSocket.runTask, TcpSocket.bind, TcpSocket.get.
    rewrite Hpure.
    destruct (existsb _ _) eqn:E; [| reflexivity].
    now apply includes_In in E. }
  destruct must.
  - rewrite sendPacket_spec. eexists. split; [reflexivity |].
    assert (H3 : ~ In p (TcpSocket._sentPacketsUnacknowledged
                           (afterSending
                              [packetOf s2 (TcpSocket._seq s2)
                                 (TcpSocket._ack s2) flagsAck []]
                              (TcpSocket._seq s2 + 0) s2))).
    { cbn. rewrite Hsent, in_app_iff. intros [H | [H | []]]; [auto |].
      subst p. discriminate. }
    split; [exact H3 | now apply Hrun].
  - eexists. split; [reflexivity |].
    assert (H3 : ~ In p (TcpSocket._sentPacketsUnacknowledged s2))
      by now rewrite Hsent.
    split; [exact H3 | now apply Hrun].
Qed.

Lemma acknowledged_packet_is_not_retransmitted_witness :
  exists s',
    TcpSocket.process (peerPacket 7001 123456706 flagsAck []) writingSocket
    = (Ok tt, s')
    /\ ~ In helloSegment (TcpSocket._sentPacketsUnacknowledged s')
    /\ TcpSocket.runTask (AfterWait helloSegment 1) s' = (Ok tt, s').
Proof.
  apply (acknowledged_packet_is_not_retransmitted writingSocket
           (peerPacket 7001 123456706 flagsAck []) helloSegment 1).
  - reflexivity.
  - reflexivity.
  - repeat split; reflexivity.
  - reflexivity.
  - reflexivity.
  - cbn. lia.
  - reflexivity.
Defined.

(** ** The router's DHCP responder *)

Section DhcpResponder.

Lemma getOrRegisterDevice_lookup r mac d r' :
  Router.getOrRegisterDevice r mac = Some (Some d, r') ->
  Router.getDeviceByMac r' mac = Some d /\ Router.ip r' = Router.ip r.
Proof.
  unfold Router.getOrRegisterDevice.
  destruct (Router.getDeviceByMac r mac) as [d0 |] eqn:Hfound.
  - intros [= <- <-]. auto.
  - unfold Router.registerDevice.
    destruct (Router._getNextFreeIp r) as [[a |] |]; try discriminate.
    intros [= <- <-]. unfold Router.getDeviceByMac.
    cbn [Router._registerDevice Router._devices Router.ip dev_mac].
    now rewrite lookup_insert_eq.
Qed.

Lemma confirm_lookup r mac d :
  Router.getDeviceByMac r mac = Some d ->
  Router.getDeviceByMac (DhcpImplementation.confirm r mac) mac
  = Some (DhcpImplementation.confirmed d).
Proof.
  unfold Router.getDeviceByMac, DhcpImplementation.confirm.
  cbn [Router._devices]. intros H. now rewrite lookup_alter_eq, H.
Qed.

Lemma leaseTime_bytes : toBigEndianFromInt 4 0x00015180 = Some [0; 1; 81; 128].
Proof. reflexivity. Qed.

Lemma reply_messageType router frame device t lease :
  dhcpMessageType (DhcpImplementation.reply router frame device t lease)
  = Some (if t =? 1 then 2 else 5).
Proof. unfold dhcpMessageType. cbn. now destruct (t =? 1). Qed.

End DhcpResponder.

(** X28: whatever the DHCP responder sends is a lease for the client: if
    it replies at all, it consumed a DISCOVER or REQUEST addressed to port
    67 and sent exactly one frame, an OFFER for a DISCOVER and an ACK for
    a REQUEST, from the router's address to the address that the device
    table now holds for the client's MAC, echoing the transaction id; and
    after a REQUEST that device is confirmed. *)
Theorem dhcp_reply_is_a_lease (router : Router.t) (frame : DhcpData)
    (consumed : bool) (replies : list DhcpData) (router' : Router.t)
    (reply : DhcpData) :
  DhcpImplementation.onProcessFrame router frame
  = Some (consumed, replies, router') ->
  In reply replies ->
  consumed = true /\ replies = [reply]
  /\ dhcp_destPort frame = 67
  /\ (exists t, dhcpMessageType frame = Some t /\ (t = 1 \/ t = 3)
        /\ dhcpMessageType reply = Some (if t =? 1 then 2 else 5)
        /\ exists device,
             Router.getDeviceByMac router' (dhcp_clientHardwareAddress frame)
             = Some device
             /\ dhcp_yourIpAddress reply = dev_ip device
             /\ dhcp_destIp reply = dev_ip device
             /\ (t = 3 -> dev_isConfirmed device = true))
  /\ dhcp_operation reply = 2
  /\ dhcp_srcIp reply = Router.ip router
  /\ dhcp_srcPort reply = 67
  /\ dhcp_destPort reply = dhcp_srcPort frame
  /\ dhcp_xid reply = dhcp_xid frame
  /\ dhcp_clientHardwareAddress reply = dhcp_clientHardwareAddress frame.
Proof.
  unfold DhcpImplementation.onProcessFrame, dhcpMessageType.
  destruct (_ && _); [intros [= _ <- _] [] |].
  destruct (Z.eqb_spec (dhcp_destPort frame) 67) as [Hport | Hport];
    [| rewrite orb_true_r; intros [= _ <- _] []].
  destruct (negb _); [intros [= _ <- _] [] |]. cbn [orb negb].
  destruct (find _ _) as [o |]; [| intros [= _ <- _] []].
  destruct (nth_error (opt_data o) 0) as [t |]; [| intros [= _ <- _] []].
  destruct ((t =? 1) || (t =? 3)) eqn:Ht; [| intros [= _ <- _] []].
  destruct (Router.getOrRegisterDevice router
              (dhcp_clientHardwareAddress frame))
    as [[[device |] r1] |] eqn:Hget; [| intros [= _ <- _] [] | discriminate].
  destruct (getOrRegisterDevice_lookup _ _ _ _ Hget) as (Hlook & Hip).
  rewrite leaseTime_bytes. intros [= <- <- <-] [<- | []].
  split; [reflexivity |]. split; [reflexivity |]. split; [exact Hport |].
  split.
  - exists t. split; [reflexivity |].
    split; [apply orb_true_iff in Ht; rewrite !Z.eqb_eq in Ht; exact Ht |].
    split; [unfold dhcpMessageType; cbn; now destruct (t =? 1) |].
    destruct (Z.eqb_spec t 3) as [E3 | Hne].
    + exists (DhcpImplementation.confirmed device).
      split; [now apply confirm_lookup |]. cbn. auto.
    + exists device. split; [exact Hlook |]. cbn. split; [reflexivity |].
      split; [reflexivity | contradiction].
  - cbn. destruct (t =? 3); cbn [DhcpImplementation.confirm Router.ip];
      rewrite ?Hip; auto 10.
Qed.

Lemma dhcp_reply_is_a_lease_witness :
  exists reply,
    DhcpImplementation.onProcessFrame adapterRouter (dhcpFromEmulator 1)
    = Some (true, [reply], bootedRouter)
    /\ dhcp_yourIpAddress reply = ip 192 168 0 1
    /\ dhcpMessageType reply = Some 2.
Proof.
  eexists. split; [vm_compute; reflexivity |].
  destruct (dhcp_reply_is_a_lease adapterRouter (dhcpFromEmulator 1) true
              [DhcpImplementation.reply bootedRouter (dhcpFromEmulator 1)
                 emulatorDevice 1 [0; 1; 81; 128]]
              bootedRouter
              (DhcpImplementation.reply bootedRouter (dhcpFromEmulator 1)
                 emulatorDevice 1 [0; 1; 81; 128]))
    as (_ & _ & _ & (t & Ht & _ & Hty & _) & _).
  - vm_compute. reflexivity.
  - left. reflexivity.
  - split; [reflexivity |]. injection Ht as <-. exact Hty.
Defined.

(** X29: a client that sends DISCOVER and then REQUEST is offered, and
    then acknowledged, one and the same address: the first frame makes the
    router register the client's MAC (or find it registered), the second
    finds that device again and confirms it. *)
Theorem dhcp_discover_then_request (router : Router.t)
    (discover request : DhcpData) (device : Device) (router1 : Router.t) :
  dhcpForRouter router discover -> dhcpForRouter router request ->
  dhcpMessageType discover = Some 1 -> dhcpMessageType request = Some 3 ->
  dhcp_clientHardwareAddress request = dhcp_clientHardwareAddress discover ->
  Router.getOrRegisterDevice router (dhcp_clientHardwareAddress discover)
  = Some (Some device, router1) ->
  exists offer ack router2,
    DhcpImplementation.onProcessFrame router discover
    = Some (true, [offer], router1)
    /\ DhcpImplementation.onProcessFrame router1 request
       = Some (true, [ack], router2)
    /\ dhcpMessageType offer = Some 2 /\ dhcpMessageType ack = Some 5
    /\ dhcp_yourIpAddress offer = dev_ip device
    /\ dhcp_yourIpAddress ack = dev_ip device
    /\ dhcp_xid offer = dhcp_xid discover /\ dhcp_xid ack = dhcp_xid request
    /\ Router.getDeviceByMac router2 (dhcp_clientHardwareAddress discover)
       = Some (DhcpImplementation.confirmed device).
Proof.
  intros (Hs1 & Hd1 & Hp1) (Hs2 & Hd2 & Hp2) Ht1 Ht2 Hmac Hget.
  destruct (getOrRegisterDevice_lookup _ _ _ _ Hget) as (Hlook & Hip).
  assert (Hget1 : Router.getOrRegisterDevice router1
                    (dhcp_clientHardwareAddress request)
                  = Some (Some device, router1)).
  { rewrite Hmac. unfold Router.getOrRegisterDevice. now rewrite Hlook. }
  unfold dhcpMessageType in Ht1, Ht2.
  do 3 eexists.
  unfold DhcpImplementation.onProcessFrame.
  rewrite Hip, Hs1, Hd1, Hp1, Hs2, Hd2, Hp2. cbn [negb orb Z.eqb Pos.eqb].
  destruct (find _ (dhcp_options discover)) as [o1 |]; [| discriminate].
  destruct (find _ (dhcp_options request)) as [o2 |]; [| discriminate].
  rewrite Ht1, Ht2, Hget, Hget1, leaseTime_bytes.
  cbn [orb Z.eqb Pos.eqb].
  split; [reflexivity |]. split; [reflexivity |].
  rewrite !reply_messageType. cbn [Z.eqb Pos.eqb].
  split; [reflexivity |]. split; [reflexivity |].
  cbn [DhcpImplementation.reply dhcp_yourIpAddress dhcp_xid].
  split; [reflexivity |]. split; [reflexivity |].
  split; [reflexivity |]. split; [reflexivity |].
  rewrite <- Hmac. apply confirm_lookup. now rewrite Hmac.
Qed.

Lemma dhcp_discover_then_request_witness :
  exists offer ack router2,
    DhcpImplementation.onProcessFrame adapterRouter (dhcpFromEmulator 1)
    = Some (true, [offer], bootedRouter)
    /\ DhcpImplementation.onProcessFrame bootedRouter (dhcpFromEmulator 3)
       = Some (true, [ack], router2)
    /\ dhcpMessageType offer = Some 2 /\ dhcpMessageType ack = Some 5
    /\ dhcp_yourIpAddress offer = dev_ip emulatorDevice
    /\ dhcp_yourIpAddress ack = dev_ip emulatorDevice
    /\ dhcp_xid offer = dhcp_xid (dhcpFromEmulator 1)
    /\ dhcp_xid ack = dhcp_xid (dhcpFromEmulator 3)
    /\ Router.getDeviceByMac router2
         (dhcp_clientHardwareAddress (dhcpFromEmulator 1))
       = Some (DhcpImplementation.confirmed emulatorDevice).
Proof.
  apply (dhcp_discover_then_request adapterRouter (dhcpFromEmulator 1)
           (dhcpFromEmulator 3) emulatorDevice bootedRouter).
  - repeat split; reflexivity.
  - repeat split; reflexivity.
  - reflexivity.
  - reflexivity.
  - reflexivity.
  - vm_compute. reflexivity.
Defined.

(** ** The IPv4 header *)

Section Ipv4Header.

Lemma dscp_ecn_byte d e :
  0 <= d <= 63 -> 0 <= e <= 3 ->
  isByte (bor (shl d 2) e)
  /\ shr (bor (shl d 2) e) 2 = d
  /\ band (bor (shl d 2) e) 0x03 = e.
Proof.
  intros Hd He.
  assert (H : forallb (fun n =>
                forallb (fun m =>
                  let b := bor (shl (Z.of_nat n) 2) (Z.of_nat m) in
                  (0 <=? b) && (b <? 256) && (shr b 2 =? Z.of_nat n)
                  && (band b 0x03 =? Z.of_nat m))
                  (seq 0 4))
                (seq 0 64) = true) by (vm_compute; reflexivity).
  rewrite forallb_forall in H.
  specialize (H (Z.to_nat d) ltac:(apply in_seq; lia)).
  rewrite forallb_forall in H.
  specialize (H (Z.to_nat e) ltac:(apply in_seq; lia)).
  rewrite !Z2Nat.id in H by lia. cbv zeta in H.
  rewrite !andb_true_iff, Z.leb_le, Z.ltb_lt, !Z.eqb_eq in H.
  unfold isByte. tauto.
Qed.

Lemma flags_byte (df : bool) :
  let b := shl (bor (if df then 0x02 else 0x00) 0x00) 5 in
  isByte b
  /\ negb (band (shr b 5) 0x02 =? 0) = df
  /\ negb (band (shr b 5) 0x01 =? 0) = false
  /\ shl (band b 0x1f) 8 = 0.
Proof. destruct df; vm_compute; repeat split; congruence. Qed.

Lemma wordSum_cons2 a b l : wordSum (a :: b :: l) = a * 256 + b + wordSum l.
Proof.
  change (a :: b :: l) with ([a; b] ++ l).
  rewrite wordSum_app_even by reflexivity. now rewrite wordSum_pair.
Qed.

(** The idiom of the IPv4 emit path on data whose words do not add up to
    zero: the complement of the checksum that was computed with the field
    at [0xffff] makes the data verify. *)
Lemma checksum_field_ones_verifies pre post :
  Forall isByte pre -> Forall isByte post ->
  Nat.even (length pre) = true ->
  Z.of_nat (length pre) + 2 + Z.of_nat (length post) <= 65534 ->
  0 < wordSum pre ->
  internetChecksum
    (pre ++ complementBytes (internetChecksum (pre ++ [255; 255] ++ post))
         ++ post)
  = 0xffff.
Proof.
  intros Hpre Hpost He Hlen Hpos.
  destruct (checksum_field_ones_placeholder pre post Hpre Hpost He Hlen)
    as (Hc & Hver).
  set (c := internetChecksum (pre ++ [255; 255] ++ post)) in *.
  rewrite complementBytes_spec by lia.
  destruct Hver as [Hmax | Hver]; [| exact Hver].
  assert (Hall : Forall isByte (pre ++ [255; 255] ++ post)).
  { apply Forall_app; split; [assumption |].
    repeat constructor; try assumption; unfold isByte; lia. }
  assert (Hl0 : Z.of_nat (length (pre ++ [255; 255] ++ post)) <= 65534).
  { rewrite !length_app. cbn [length]. lia. }
  destruct (internetChecksum_spec _ Hall Hl0) as (_ & Hmod & _).
  fold c in Hmod. rewrite Hmax in Hmod.
  rewrite wordSum_app_even in Hmod by assumption.
  cbn [app] in Hmod. rewrite wordSum_cons2 in Hmod.
  rewrite Hmax. change ((65535 - 65535) / 256) with 0.
  change ((65535 - 65535) mod 256) with 0.
  assert (Hall' : Forall isByte (pre ++ [0; 0] ++ post)).
  { apply Forall_app; split; [assumption |].
    repeat constructor; try assumption; unfold isByte; lia. }
  assert (Hl1 : Z.of_nat (length (pre ++ [0; 0] ++ post)) <= 65534).
  { rewrite !length_app. cbn [length]. lia. }
  destruct (internetChecksum_spec _ Hall' Hl1) as (Hr & Hmod' & Hz').
  set (r := internetChecksum (pre ++ [0; 0] ++ post)) in *.
  rewrite wordSum_app_even in Hmod', Hz' by assumption.
  cbn [app] in Hmod', Hz'. rewrite wordSum_cons2 in Hmod', Hz'.
  pose proof (wordSum_bound_any post Hpost).
  assert (r <> 0) by lia.
  lia.
Qed.

End Ipv4Header.

(** X30: the IPv4 layer decodes what it encodes, whatever the zero test
    of [utils/ones-complement.ts] is as long as it accepts [0xffff]: for
    data between two addresses that the router knows, [onSendData] emits a
    20-byte header whose Internet checksum is [0xffff], followed by the
    payload, with the MAC addresses of the two devices; and
    [onProcessFrame] consumes that frame and passes the same data on. *)
Theorem ipv4_round_trip (isZero : Z -> bool) (router : Router.t)
    (data : Ipv4Data) (srcDevice destDevice : Device) :
  isZero 0xffff = true ->
  Ipv4Address.wf (ip_srcIp data) -> Ipv4Address.wf (ip_destIp data) ->
  0 <= ip_dscp data <= 63 -> 0 <= ip_ecn data <= 3 ->
  isByte (ip_timeToLive data) -> isByte (ip_protocol data) ->
  Forall isByte (ip_payload data) ->
  Z.of_nat (length (ip_payload data)) <= 65515 ->
  Router.getDeviceByIp router (ip_srcIp data) = Some srcDevice ->
  Router.getDeviceByIp router (ip_destIp data) = Some destDevice ->
  exists frame,
    Ipv4.onSendData isZero router data = Some frame
    /\ eth_srcMac frame = dev_mac srcDevice
    /\ eth_destMac frame = dev_mac destDevice
    /\ eth_etherType frame = 0x0800
    /\ length (eth_payload frame) = (20 + length (ip_payload data))%nat
    /\ internetChecksum (JS.slice 0 20 (eth_payload frame)) = 0xffff
    /\ Ipv4.onProcessFrame isZero frame = Some (true, Some data).
Proof.
  destruct data as [src dst proto payload df dscp ecn ttl].
  cbn [ip_srcIp ip_destIp ip_protocol ip_payload ip_dontFragment ip_dscp
       ip_ecn ip_timeToLive].
  intros Hzero Hsrc Hdst Hdscp Hecn Bttl Bproto Hpayload Hlen Hsd Hdd.
  assert (B0 : isByte 0) by (unfold isByte; lia).
  assert (B69 : isByte 69) by (unfold isByte; lia).
  assert (B255 : isByte 255) by (unfold isByte; lia).
  destruct (dscp_ecn_byte dscp ecn Hdscp Hecn) as (B1 & Vdscp & Vecn).
  destruct (flags_byte df) as (B6 & Vdf & Vmf & Vfo). cbv zeta in B6, Vdf, Vmf, Vfo.
  set (b1 := bor (shl dscp 2) ecn) in *.
  set (b6 := shl (bor (if df then 2 else 0) 0) 5) in *.
  destruct (encode2 (20 + Z.of_nat (length payload)) ltac:(lia))
    as (El & Vl & Bl0 & Bl1).
  set (L := 20 + Z.of_nat (length payload)) in *.
  destruct (wf_octets src Hsrc) as (a0 & a1 & a2 & a3 & -> & ? & ? & ? & ?).
  destruct (wf_octets dst Hdst) as (e0 & e1 & e2 & e3 & -> & ? & ? & ? & ?).
  set (pre := [69; b1; L / 256; L mod 256; 0; 0; b6; 0; ttl; proto]).
  set (post := [a0; a1; a2; a3; e0; e1; e2; e3]).
  assert (Hpre : Forall isByte pre)
    by (unfold pre; repeat (constructor; [assumption |]); constructor).
  assert (Hpost : Forall isByte post)
    by (unfold post; repeat (constructor; [assumption |]); constructor).
  assert (Hsum : 0 < wordSum pre).
  { unfold pre. rewrite wordSum_cons2.
    pose proof (wordSum_bound_any [L / 256; L mod 256; 0; 0; b6; 0; ttl; proto]
                  ltac:(repeat (constructor; [assumption |]); constructor)).
    unfold isByte in B1. lia. }
  pose proof (checksum_field_ones_verifies pre post Hpre Hpost eq_refl
                ltac:(cbn [length pre post]; lia) Hsum) as Hver.
  set (c := internetChecksum (pre ++ [255; 255] ++ post)) in *.
  assert (Bc : Forall isByte (complementBytes c)).
  { unfold complementBytes. rewrite !band_0xff.
    repeat constructor; unfold isByte; lia. }
  unfold Ipv4.onSendData, Ipv4.etherType.
  cbn [ip_srcIp ip_destIp ip_protocol ip_payload ip_dontFragment ip_dscp
       ip_ecn ip_timeToLive Ipv4Address.bytes].
  fold L. rewrite El. change (64 + 20 / 4) with 69. fold b1. fold b6.
  cbn [app].
  rewrite Uint8Array_bytes
    by (repeat (constructor; [assumption |]); constructor).
  cbn [length Z.of_nat Pos.of_succ_nat Pos.succ Z.eqb Pos.eqb negb].
  change (internetChecksum
            [69; b1; L / 256; L mod 256; 0; 0; b6; 0; ttl; proto; 255; 255;
             a0; a1; a2; a3; e0; e1; e2; e3]) with c.
  unfold Udp.store. cbn [insert list_insert].
  fold (complementBytes c) in *.
  unfold complementBytes in Bc |- *.
  apply Forall_cons in Bc. destruct Bc as [Bh Bc].
  apply Forall_cons in Bc. destruct Bc as [Bl _].
  unfold ToUint8.
  rewrite (Z.mod_small (band (shr (bnot c) 8) 255)),
          (Z.mod_small (band (bnot c) 255)) by assumption.
  cbn [slice skipn firstn Nat.sub].
  change (internetChecksum
            [69; b1; L / 256; L mod 256; 0; 0; b6; 0; ttl; proto;
             band (shr (bnot c) 8) 255; band (bnot c) 255;
             a0; a1; a2; a3; e0; e1; e2; e3])
    with (internetChecksum (pre ++ complementBytes c ++ post)).
  rewrite Hver, Hzero. cbn [negb].
  rewrite Hsd, Hdd.
  rewrite Uint8Array_bytes
    by (repeat (constructor; [assumption |]); exact Hpayload).
  eexists. split; [reflexivity |].
  cbn [eth_srcMac eth_destMac eth_etherType eth_payload].
  split; [reflexivity |]. split; [reflexivity |]. split; [reflexivity |].
  split; [reflexivity |].
  cbn [slice skipn firstn Nat.sub app]. rewrite take_0.
  change (internetChecksum
            [69; b1; L / 256; L mod 256; 0; 0; b6; 0; ttl; proto;
             band (shr (bnot c) 8) 255; band (bnot c) 255;
             a0; a1; a2; a3; e0; e1; e2; e3])
    with (internetChecksum (pre ++ complementBytes c ++ post)).
  split; [exact Hver |].
  unfold Ipv4.onProcessFrame, Ipv4.etherType, Tcp.byteAt.
  cbn [eth_etherType eth_payload nth].
  change (2048 =? 2048) with true. cbn [negb].
  change (shr 69 4) with 4. change (4 =? 4) with true. cbn [negb].
  change (band 69 15 * 4) with 20. change (Z.to_nat 20) with 20%nat.
  cbn [slice skipn firstn Nat.sub]. rewrite ?take_0.
  rewrite !ipv4_new_bytes
    by (try reflexivity; repeat (constructor; [assumption |]); constructor).
  change (internetChecksum
            [69; b1; L / 256; L mod 256; 0; 0; b6; 0; ttl; proto;
             band (shr (bnot c) 8) 255; band (bnot c) 255;
             a0; a1; a2; a3; e0; e1; e2; e3])
    with (internetChecksum (pre ++ complementBytes c ++ post)).
  rewrite Hver, Hzero, Vl, Vdscp, Vecn, Vdf, Vmf, Vfo.
  cbn [negb length Nat.eqb orb Z.add Z.eqb].
  unfold slice. cbn [skipn].
  replace (Z.to_nat L - 20)%nat with (length payload) by (unfold L; lia).
  now rewrite firstn_all.
Qed.

Lemma ipv4_round_trip_witness :
  exists frame,
    Ipv4.onSendData acceptsAllOnes bootedRouter routerToEmulator = Some frame
    /\ eth_srcMac frame = adapterRouterMac
    /\ eth_destMac frame = emulatorMac
    /\ eth_etherType frame = 0x0800
    /\ length (eth_payload frame) = 28%nat
    /\ internetChecksum (JS.slice 0 20 (eth_payload frame)) = 0xffff
    /\ Ipv4.onProcessFrame acceptsAllOnes frame
       = Some (true, Some routerToEmulator).
Proof.
  apply (ipv4_round_trip acceptsAllOnes bootedRouter routerToEmulator
           {| dev_mac := adapterRouterMac; dev_ip := ip 192 168 13 37;
              dev_isConfirmed := true |}
           emulatorDevice).
  - reflexivity.
  - split; [reflexivity |]. repeat constructor; cbn; lia.
  - split; [reflexivity |]. repeat constructor; cbn; lia.
  - cbn; lia.
  - cbn; lia.
  - unfold isByte; cbn; lia.
  - unfold isByte; cbn; lia.
  - repeat constructor; unfold isByte; lia.
  - cbn; lia.
  - vm_compute. reflexivity.
  - vm_compute. reflexivity.
Defined.
